(** * meegkit.utils.cca: canonical correlation analysis from covariance

    A shallow embedding of [src/meegkit/utils/cca.py] and the properties of
    its specification.

    - numpy arrays are a shape together with a row-major (C order) buffer;
    - float64 scalars are an abstract type with the operations the code
      applies to them (class [Float64]);
    - Python exceptions are values of [exn], a call returns a [result];
    - the numerical collaborators that live outside this module
      ([scipy.linalg.eigh], the two [svd], and [pca], [cov_lags],
      [_check_shifts] of the sibling modules) are the fields of the class
      [Collaborators];
    - the same code is given a second time over a store of arrays, where
      assignments into arrays and views show;
    - the model runs on binary64 floats with the decompositions of diagonal
      matrices. *)

From Stdlib Require Import PrimFloat.
From Stdlib Require Import String.
From Stdlib Require Import List ZArith Lia Bool Permutation Sorted PeanoNat.
Import ListNotations.

Set Implicit Arguments.
Open Scope string_scope.
Open Scope nat_scope.
Open Scope list_scope.

(* ------------------------------------------------------------------ *)
(** ** Exceptions and results *)

Inductive exn : Type :=
| AttributeError (msg : string)
| RuntimeError (msg : string)
| IndexError (msg : string)
| ValueError (msg : string)
| TypeError (msg : string)
| LinAlgError (msg : string)
| RecursionError.

Inductive result (A : Type) : Type :=
| Ok (a : A)
| Raise (e : exn).

Arguments Ok {A} a.
Arguments Raise {A} e.

Definition bind {A B : Type} (r : result A) (k : A -> result B) : result B :=
  match r with
  | Ok a => k a
  | Raise e => Raise e
  end.

Notation "x <- c ;; k" := (bind c (fun x => k))
  (at level 61, c at next level, right associativity).
Notation "' p <- c ;; k" := (bind c (fun x => let p := x in k))
  (at level 61, p pattern, c at next level, right associativity).

Definition is_ok {A : Type} (r : result A) : bool :=
  match r with Ok _ => true | Raise _ => false end.

(** Monadic left fold: the body of a [for] loop threaded through the
    iteration space, stopping at the first exception. *)
Fixpoint foldM {A S : Type} (body : S -> A -> result S) (l : list A) (s : S)
  : result S :=
  match l with
  | [] => Ok s
  | a :: l' => s' <- body s a ;; foldM body l' s'
  end.

(** Modelled from the spec: the error taxonomy of section 7, which the
    Python code does not declare; the exceptions the code raises are sorted
    into it the way sections 4.1 and 7 describe them. *)
Inductive taxonomy : Type := InvalidArgument | InvalidState | NumericalFailure.

Definition msg_XY := "Either *both* X and Y should be defined, or C!".
Definition msg_C := "covariance matrix should be defined".
Definition msg_m := "m should be defined".
Definition msg_square := "covariance matrix should be square".
Definition msg_only := "only covariance should be defined at this point".
Definition msg_3D := "covariance should be 3D at most".

Definition classify (e : exn) : option taxonomy :=
  match e with
  | AttributeError _ => Some InvalidArgument
  | RuntimeError msg =>
      if String.eqb msg msg_only then Some InvalidArgument
      else Some InvalidState
  | LinAlgError _ => Some NumericalFailure
  | IndexError _ | ValueError _ | TypeError _ | RecursionError => None
  end.

(* ------------------------------------------------------------------ *)
(** ** float64 scalars *)

Class Float64 (F : Type) : Type := {
  f0 : F;                       (* 0.0 *)
  f1 : F;                       (* 1.0 *)
  f2 : F;                       (* 2.0 *)
  f1e12 : F;                    (* 1e-12 *)
  f1e18 : F;                    (* 1e-18 *)
  fadd : F -> F -> F;
  fsub : F -> F -> F;
  fmul : F -> F -> F;
  fdiv : F -> F -> F;
  fsqrt : F -> F;
  fpow : F -> F -> F;
  fltb : F -> F -> bool;        (* x < y *)
  fleb : F -> F -> bool;        (* x <= y *)
  feqb : F -> F -> bool         (* x == y *)
}.

Section Model.

Context {F : Type} {FO : Float64 F}.

Definition fgtb (x y : F) : bool := fltb y x.
Definition fgeb (x y : F) : bool := fleb y x.
Definition fisnan (x : F) : bool := negb (feqb x x).
Definition ftruth (x : F) : bool := negb (feqb x f0).

(** [np.maximum] on two scalars: the first operand when it is greater or
    equal or a NaN, the second otherwise. *)
Definition fmax (x y : F) : F := if fgeb x y || fisnan x then x else y.

Definition fsum (l : list F) : F := fold_left fadd l f0.

(* ------------------------------------------------------------------ *)
(** ** ndarray: shape and row-major buffer *)

Record ndarray : Type := mkarr { shape : list nat; data : list F }.

Definition ndim (a : ndarray) : nat := length (shape a).

Definition prod (sh : list nat) : nat := fold_right Nat.mul 1 sh.

Definition size (a : ndarray) : nat := prod (shape a).

(** Offset of a multi-index in the buffer. *)
Fixpoint offset (sh ix : list nat) : nat :=
  match sh, ix with
  | _ :: sh', i :: ix' => i * prod sh' + offset sh' ix'
  | _, _ => 0
  end.

Definition item (a : ndarray) (ix : list nat) : F :=
  nth (offset (shape a) ix) (data a) f0.

(** The buffer of the array of shape [sh] whose entry at [ix] is [f ix]. *)
Fixpoint tabulate (sh : list nat) (f : list nat -> F) : list F :=
  match sh with
  | [] => [f []]
  | n :: sh' => flat_map (fun i => tabulate sh' (fun ix => f (i :: ix))) (seq 0 n)
  end.

Definition build (sh : list nat) (f : list nat -> F) : ndarray :=
  mkarr sh (tabulate sh f).

Definition build2 (r c : nat) (g : nat -> nat -> F) : ndarray :=
  build [r; c] (fun ix => g (nth 0 ix 0) (nth 1 ix 0)).
Definition build3 (r c p : nat) (g : nat -> nat -> nat -> F) : ndarray :=
  build [r; c; p] (fun ix => g (nth 0 ix 0) (nth 1 ix 0) (nth 2 ix 0)).

Definition item1 (a : ndarray) (i : nat) : F := item a [i].
Definition item2 (a : ndarray) (i j : nat) : F := item a [i; j].
Definition item3 (a : ndarray) (i j k : nat) : F := item a [i; j; k].

(** A 1-D array from its elements. *)
Definition vec (l : list F) : ndarray := mkarr [length l] l.

(** [a.shape[i]]: IndexError past the number of dimensions. *)
Definition shape_at (a : ndarray) (i : nat) : result nat :=
  match nth_error (shape a) i with
  | Some n => Ok n
  | None => Raise (IndexError "tuple index out of range")
  end.

(** [a.shape[0]], [a.shape[1]] where the array is known to be 2-D. *)
Definition nrows (a : ndarray) : nat := nth 0 (shape a) 0.
Definition ncols (a : ndarray) : nat := nth 1 (shape a) 0.

(** An array whose buffer has the length its shape announces. *)
Definition wf (a : ndarray) : Prop := length (data a) = size a.


(* ------------------------------------------------------------------ *)
(** ** The numpy operations the module uses *)

(** Normalisation of a slice bound against an axis of length [n]: a
    negative bound counts from the end, and both kinds are clamped. *)
Definition pybound (z : Z) (n : nat) : nat :=
  if (z <? 0)%Z then Z.to_nat (Z.max 0 (Z.of_nat n + z))
  else Nat.min (Z.to_nat z) n.

(** [a[r0:r1, c0:c1]] with bounds that are already naturals. *)
Definition slice2 (a : ndarray) (r0 r1 c0 c1 : nat) : ndarray :=
  let r0' := Nat.min r0 (nrows a) in
  let r1' := Nat.min r1 (nrows a) in
  let c0' := Nat.min c0 (ncols a) in
  let c1' := Nat.min c1 (ncols a) in
  build2 (r1' - r0') (c1' - c0') (fun i j => item2 a (r0' + i) (c0' + j)).

(** [C[:m, :m]] and [C[m:, m:]]. *)
Definition upper_left (C : ndarray) (m : Z) : ndarray :=
  slice2 C 0 (pybound m (nrows C)) 0 (pybound m (ncols C)).
Definition lower_right (C : ndarray) (m : Z) : ndarray :=
  slice2 C (pybound m (nrows C)) (nrows C) (pybound m (ncols C)) (ncols C).

(** [C[:, :, k]]. *)
Definition page (C : ndarray) (k : nat) : ndarray :=
  build2 (nrows C) (ncols C) (fun i j => item3 C i j k).

(** [d[:n]] on a 1-D array. *)
Definition head1 (d : ndarray) (n : nat) : ndarray := vec (firstn n (data d)).

(** Elementwise application of a scalar operation. *)
Definition amap (g : F -> F) (a : ndarray) : ndarray :=
  mkarr (shape a) (map g (data a)).

(** [a.T] of a 2-D array. *)
Definition transpose (a : ndarray) : ndarray :=
  build2 (ncols a) (nrows a) (fun i j => item2 a j i).

(** [np.dot] of two 2-D arrays. *)
Definition np_dot (a b : ndarray) : result ndarray :=
  if ncols a =? nrows b then
    Ok (build2 (nrows a) (ncols b)
          (fun i j =>
             fsum (map (fun k => fmul (item2 a i k) (item2 b k j))
                       (seq 0 (ncols a)))))
  else Raise (ValueError "shapes not aligned").

(** [np.diag] of a 1-D array. *)
Definition np_diag (v : ndarray) : ndarray :=
  let n := length (data v) in
  build2 n n (fun i j => if i =? j then nth i (data v) f0 else f0).

(** [np.zeros]. *)
Definition np_zeros (sh : list Z) : result ndarray :=
  if forallb (fun z => (0 <=? z)%Z) sh
  then Ok (build (map Z.to_nat sh) (fun _ => f0))
  else Raise (ValueError "negative dimensions are not allowed").

Definition zeros2 (r c : nat) : ndarray := build2 r c (fun _ _ => f0).

(** [np.max] over all the elements. *)
Definition np_max (d : ndarray) : result F :=
  match data d with
  | [] => Raise (ValueError "zero-size array to reduction operation maximum which has no identity")
  | x :: l => Ok (fold_left fmax l x)
  end.

(** [np.argsort] of a 1-D array, ascending; equal keys keep their order. *)
Fixpoint insert_idx (d : list F) (i : nat) (l : list nat) : list nat :=
  match l with
  | [] => [i]
  | j :: l' =>
      if fltb (nth i d f0) (nth j d f0) then i :: l
      else j :: insert_idx d i l'
  end.

Definition argsort (d : ndarray) : list nat :=
  fold_left (fun acc i => insert_idx (data d) i acc)
            (seq 0 (length (data d))) [].

(** Ascending: no later key is smaller than an earlier one. *)
Definition asc (d : list F) (i j : nat) : Prop :=
  fltb (nth j d f0) (nth i d f0) = false.

(** [d[idx]] and [V[:, idx]] for a list of positions. *)
Definition take1 (d : ndarray) (idx : list nat) : ndarray :=
  vec (map (fun i => nth i (data d) f0) idx).
Definition take_cols (V : ndarray) (idx : list nat) : ndarray :=
  build2 (nrows V) (length idx) (fun i j => item2 V i (nth j idx 0)).

(** Positions a boolean mask selects. *)
Fixpoint where_true (i : nat) (keep : list bool) : list nat :=
  match keep with
  | [] => []
  | b :: keep' => if b then i :: where_true (S i) keep' else where_true (S i) keep'
  end.

(** [d[keep]] and [V[:, keep]] for a boolean mask. *)
Definition mask1 (d : ndarray) (keep : list bool) : ndarray :=
  take1 d (where_true 0 keep).
Definition mask_cols (V : ndarray) (keep : list bool) : ndarray :=
  take_cols V (where_true 0 keep).

(** Broadcasting of the right-hand side of an assignment to a 1-D or a
    2-D target region. *)
Definition msg_broadcast := "could not broadcast input array".

Definition broadcast1 (M : ndarray) (p : nat) : result (nat -> F) :=
  match shape M with
  | [] => Ok (fun _ => item M [])
  | [b] =>
      if (b =? p) || (b =? 1)
      then Ok (fun i => item1 M (if b =? 1 then 0 else i))
      else Raise (ValueError msg_broadcast)
  | _ => Raise (ValueError msg_broadcast)
  end.

Definition broadcast2 (M : ndarray) (p q : nat) : result (nat -> nat -> F) :=
  match shape M with
  | [] => Ok (fun _ _ => item M [])
  | [b] =>
      if (b =? q) || (b =? 1)
      then Ok (fun _ j => item1 M (if b =? 1 then 0 else j))
      else Raise (ValueError msg_broadcast)
  | [a; b] =>
      if ((a =? p) || (a =? 1)) && ((b =? q) || (b =? 1))
      then Ok (fun i j => item2 M (if a =? 1 then 0 else i)
                                  (if b =? 1 then 0 else j))
      else Raise (ValueError msg_broadcast)
  | _ => Raise (ValueError msg_broadcast)
  end.

(** [W[r0:r1, c0:c1] = M] on a 2-D array [W]. *)
Definition setitem2 (W : ndarray) (r0 r1 c0 c1 : nat) (M : ndarray)
  : result ndarray :=
  let r0' := Nat.min r0 (nrows W) in
  let r1' := Nat.min r1 (nrows W) in
  let c0' := Nat.min c0 (ncols W) in
  let c1' := Nat.min c1 (ncols W) in
  g <- broadcast2 M (r1' - r0') (c1' - c0') ;;
  Ok (build2 (nrows W) (ncols W)
        (fun i j =>
           if (r0' <=? i) && (i <? r1') && (c0' <=? j) && (j <? c1')
           then g (i - r0') (j - c0') else item2 W i j)).

Definition npages (A : ndarray) : nat := nth 2 (shape A) 0.

(** [A[:r, :c, k] = M] on a 3-D array [A]. *)
Definition setitem3_page (A : ndarray) (r c k : nat) (M : ndarray)
  : result ndarray :=
  if k <? npages A then
    let r' := Nat.min r (nrows A) in
    let c' := Nat.min c (ncols A) in
    g <- broadcast2 M r' c' ;;
    Ok (build3 (nrows A) (ncols A) (npages A)
          (fun i j l =>
             if (i <? r') && (j <? c') && (l =? k) then g i j
             else item3 A i j l))
  else Raise (IndexError "index is out of bounds for axis 2").

(** [R[:, k] = M] on a 2-D array [R]. *)
Definition setitem2_col (R : ndarray) (k : nat) (M : ndarray)
  : result ndarray :=
  if k <? ncols R then
    g <- broadcast1 M (nrows R) ;;
    Ok (build2 (nrows R) (ncols R)
          (fun i j => if j =? k then g i else item2 R i j))
  else Raise (IndexError "index is out of bounds for axis 1").

Definition msg_NoneType :=
  "unsupported operand type(s) for +: 'float' and 'NoneType'".

(** [S + thresh] where [thresh] may be [None]. *)
Definition add_scalar (Sv : ndarray) (t : option F) : result ndarray :=
  match t with
  | Some x => Ok (amap (fun s => fadd s x) Sv)
  | None => Raise (TypeError msg_NoneType)
  end.

(** [np.real] of a real array. *)
Definition np_real (a : ndarray) : ndarray := a.

(* ------------------------------------------------------------------ *)
(** ** Python values of the optional arguments and their truth value *)

Inductive pyobj : Type :=
| PyInt (z : Z)
| PyList (l : list Z)
| PyIntArray (l : list Z)          (* 1-D integer ndarray *)
| PyArray (a : ndarray).

Definition msg_ambiguous :=
  "The truth value of an array with more than one element is ambiguous. Use a.any() or a.all()".

(** [bool(o)]; [None] is the [None] of the option. An array of several
    elements has no truth value; an empty one is false (with a
    deprecation warning in the numpy of the time). *)
Definition truth (o : option pyobj) : result bool :=
  match o with
  | None => Ok false
  | Some (PyInt z) => Ok (negb (z =? 0)%Z)
  | Some (PyList l) => Ok (negb (length l =? 0))
  | Some (PyIntArray l) =>
      match l with
      | [] => Ok false
      | [z] => Ok (negb (z =? 0)%Z)
      | _ => Raise (ValueError msg_ambiguous)
      end
  | Some (PyArray a) =>
      match size a with
      | 0 => Ok false
      | 1 => Ok (ftruth (nth 0 (data a) f0))
      | _ => Raise (ValueError msg_ambiguous)
      end
  end.

(** [any((X, Y, lags))]: the first true element ends the iteration. *)
Definition any3 (X Y lags : option pyobj) : result bool :=
  bx <- truth X ;;
  if bx then Ok true else
  by_ <- truth Y ;;
  if by_ then Ok true else truth lags.

Definition is_None {A : Type} (o : option A) : bool :=
  match o with None => true | Some _ => false end.

(* ------------------------------------------------------------------ *)
(** ** Collaborators outside the module *)

Class Collaborators : Type := {
  (** [scipy.linalg.eigh(C)]: eigenvalues (ascending) and eigenvectors. *)
  eigh : ndarray -> result (ndarray * ndarray);
  (** [scipy.linalg.svd(X, full_matrices=False)]: [(U, S, Vt)]. *)
  scipy_svd : ndarray -> result (ndarray * ndarray * ndarray);
  (** [np.linalg.svd(C)]: [(U, S, V)]. *)
  numpy_svd : ndarray -> result (ndarray * ndarray * ndarray);
  (** [meegkit.utils.denoise.pca(C)]: [(V, d)]. *)
  pca : ndarray -> result (ndarray * ndarray);
  (** [meegkit.utils.matrix._check_shifts(lags)]: [(lags, n_lags)]. *)
  check_shifts : option pyobj -> result (pyobj * nat);
  (** [meegkit.utils.covariances.cov_lags(X, Y, lags)]: [(C, tw, m)]. *)
  cov_lags : pyobj -> pyobj -> pyobj -> result (ndarray * ndarray * Z)
}.

Context {CO : Collaborators}.

(* ------------------------------------------------------------------ *)
(** ** The whitening functions *)

(** [whiten(C, fudge=1e-18)]; [fudge] is [None] when the argument is
    omitted. *)
Definition whiten (C : ndarray) (fudge : option F) : result ndarray :=
  let fudge := match fudge with Some x => x | None => f1e18 end in
  '(eigvals, V) <- eigh C ;;
  let D := np_diag (amap (fun x => fdiv f1 (fsqrt (fadd x fudge))) eigvals) in
  VD <- np_dot V D ;;
  np_dot VD (transpose V).

(** The mask of [whiten_nt]: [(d / np.max(d)) > thresh]. *)
Definition keep_mask (d : ndarray) (mx thresh : F) : list bool :=
  map (fun x => fgtb (fdiv x mx) thresh) (data d).

(** [whiten_nt(C, thresh=1e-12)]; [thresh] is [None] when the argument is
    omitted. *)
Definition whiten_nt (C : ndarray) (thresh : option F) : result ndarray :=
  let thresh := match thresh with Some x => x | None => f1e12 end in
  '(d, V) <- eigh C ;;
  let d := np_real d in
  let V := np_real V in
  (* Sort eigenvalues *)
  let idx := rev (argsort d) in
  let d := take1 d idx in
  let V := take_cols V idx in
  (* Remove small eigenvalues *)
  mx <- np_max d ;;
  let keep := keep_mask d mx thresh in
  let d := mask1 d keep in
  let V := mask_cols V keep in
  (* break symmetry *)
  let d := amap (fun x => fpow x (fsub f1 thresh)) d in
  let D := np_diag (amap (fun x => fsqrt (fdiv f1 x)) d) in
  np_dot V D.

(** [whiten_svd(X)]. *)
Definition whiten_svd (X : ndarray) : result ndarray :=
  '(U, _, Vt) <- scipy_svd X ;;
  np_dot U Vt.

(** [whiten_zca(C, thresh=None)]: here [None] is the default itself. *)
Definition whiten_zca (C : ndarray) (thresh : option F) : result ndarray :=
  '(U, Sv, _) <- numpy_svd C ;;
  St <- add_scalar Sv thresh ;;
  let D := np_diag (amap (fun x => fdiv f1 (fsqrt x)) St) in
  UD <- np_dot U D ;;
  np_dot UD (transpose U).

(* ------------------------------------------------------------------ *)
(** ** nt_cca *)

Definition triple : Type := (ndarray * ndarray * ndarray)%type.

(** Lines 99-120: CCA of one covariance block [C] split at [m]. *)
Definition cca_core (C : ndarray) (m : Z) (thresh : F) : result triple :=
  Cxw <- whiten_nt (upper_left C m) (Some thresh) ;;
  Cyw <- whiten_nt (lower_right C m) (Some thresh) ;;
  (* apply sphering matrices to C *)
  let W := zeros2 (nrows Cxw + nrows Cyw) (ncols Cxw + ncols Cyw) in
  W <- setitem2 W 0 (nrows Cxw) 0 (ncols Cxw) Cxw ;;
  W <- setitem2 W (nrows Cxw) (nrows W) (ncols Cxw) (ncols W) Cyw ;;
  WtC <- np_dot (transpose W) C ;;
  C' <- np_dot WtC W ;;
  (* Number of CCA components *)
  let N := Nat.min (ncols Cxw) (ncols Cyw) in
  (* PCA *)
  '(V, d) <- pca C' ;;
  A <- np_dot Cxw (slice2 V 0 (ncols Cxw) 0 N) ;;
  B <- np_dot Cyw (slice2 V (ncols Cxw) (nrows V) 0 N) ;;
  let A := amap (fun x => fmul x (fsqrt f2)) A in
  let B := amap (fun x => fmul x (fsqrt f2)) B in
  let R := amap (fun x => fsub x f1) (head1 d N) in
  Ok (A, B, R).

(** The body of the loop of lines 91-95, given the result of the
    recursive call on page [k]. *)
Definition store_page (acc : triple) (k : nat) (res : triple) : result triple :=
  let '(A, B, R) := acc in
  let '(AA, BB, RR) := res in
  a0 <- shape_at AA 0 ;;
  a1 <- shape_at AA 1 ;;
  A <- setitem3_page A a0 a1 k AA ;;
  b0 <- shape_at BB 0 ;;
  b1 <- shape_at BB 1 ;;
  B <- setitem3_page B b0 b1 k BB ;;
  R <- setitem2_col R k RR ;;
  Ok (A, B, R).

(** Lines 84-97, given the function called on each page. *)
Definition cca_pages (self : ndarray -> result triple) (C : ndarray) (m : Z)
  : result triple :=
  let n_chans := Z.of_nat (nrows C) in
  let n_lags := npages C in
  let N := Z.min m (n_chans - m) in
  A <- np_zeros [m; N; Z.of_nat n_lags] ;;
  B <- np_zeros [(n_chans - m)%Z; N; Z.of_nat n_lags] ;;
  R <- np_zeros [N; Z.of_nat n_lags] ;;
  foldM (fun acc k => res <- self (page C k) ;; store_page acc k res)
        (seq 0 n_lags) (A, B, R).

(** The shapes a triple of output arrays keeps through the loop. *)
Definition shaped (a b c p : nat) (acc : triple) : Prop :=
  let '(A, B, R) := acc in
  shape A = [a; c; p] /\ shape B = [b; c; p] /\ shape R = [c; p].

(** [nt_cca(X, Y, lags, C, m, thresh)]; [fuel] bounds the depth of the
    recursive calls. *)
Fixpoint nt_cca_rec (fuel : nat) (X Y lags : option pyobj)
    (C : option ndarray) (m : option Z) (thresh : option F) : result triple :=
  match fuel with
  | O => Raise RecursionError
  | S fuel' =>
    let thresh := match thresh with Some t => t | None => f1e12 end in
    if (is_None X && negb (is_None Y)) || (is_None Y && negb (is_None X))
    then Raise (AttributeError msg_XY)
    else
    match X, Y with
    | Some x, Some y =>
        '(lags', n_lags) <- check_shifts lags ;;
        '(C', _, m') <- cov_lags x y lags' ;;
        nt_cca_rec fuel' None None None (Some C') (Some m') (Some thresh)
    | _, _ =>
        match C with
        | None => Raise (RuntimeError msg_C)
        | Some C =>
        match m with
        | None => Raise (RuntimeError msg_m)
        | Some m =>
            s0 <- shape_at C 0 ;;
            s1 <- shape_at C 1 ;;
            if negb (s0 =? s1) then Raise (RuntimeError msg_square) else
            b <- any3 X Y lags ;;
            if b then Raise (RuntimeError msg_only) else
            if 3 <? ndim C then Raise (RuntimeError msg_3D) else
            if ndim C =? 3 then
              cca_pages
                (fun Ck => nt_cca_rec fuel' None None None (Some Ck) (Some m)
                             (Some thresh))
                C m
            else cca_core C m thresh
        end
        end
    end
  end.

(** No call chain is deeper than three: raw data, then the stack of
    pages, then one page. *)
Definition nt_cca := nt_cca_rec 3.

(* ------------------------------------------------------------------ *)
(** ** The 2D core as the specification words it (section 4.1) *)

(** The block-diagonal matrix with blocks [P] and [Q] and zero
    off-diagonal blocks. *)
Definition block_diag (P Q : ndarray) : ndarray :=
  build2 (nrows P + nrows Q) (ncols P + ncols Q)
    (fun i j =>
       if i <? nrows P
       then (if j <? ncols P then item2 P i j else f0)
       else (if j <? ncols P then f0
             else item2 Q (i - nrows P) (j - ncols P))).

Definition scale (a : ndarray) (x : F) : ndarray := amap (fun y => fmul y x) a.

(** Step 4: the covariance projected through the block-diagonal whitening
    matrix, [W.T @ C @ W]. *)
Definition whitened_cov (Cxw Cyw C : ndarray) : result ndarray :=
  let W := block_diag Cxw Cyw in
  WtC <- np_dot (transpose W) C ;;
  np_dot WtC W.

(** Steps 1 to 7 of the 2D core algorithm. *)
Definition cca_core_spec (C : ndarray) (m : Z) (thresh : F) : result triple :=
  Cxw <- whiten_nt (upper_left C m) (Some thresh) ;;
  Cyw <- whiten_nt (lower_right C m) (Some thresh) ;;
  C' <- whitened_cov Cxw Cyw C ;;
  let rank_x := ncols Cxw in
  let N := Nat.min (ncols Cxw) (ncols Cyw) in
  '(V, d) <- pca C' ;;
  CxwV <- np_dot Cxw (slice2 V 0 rank_x 0 N) ;;
  CywV <- np_dot Cyw (slice2 V rank_x (nrows V) 0 N) ;;
  Ok (scale CxwV (fsqrt f2), scale CywV (fsqrt f2),
      amap (fun x => fsub x f1) (head1 d N)).

(* ------------------------------------------------------------------ *)
(** ** Rank-reducing whitening as the specification words it (section 4.2) *)

(** Eigenvalue at position [i] of the decomposition. *)
Definition ev (d : ndarray) (i : nat) : F := nth i (data d) f0.

(** Positions of the eigenvalues, largest eigenvalue first. *)
Definition descending (d : ndarray) : list nat := rev (argsort d).

(** The eigen-directions that survive the threshold, largest first: those
    whose eigenvalue-to-maximum ratio exceeds [thresh]. *)
Definition retained (d : ndarray) (thresh : F) : result (list nat) :=
  mx <- np_max (take1 d (descending d)) ;;
  Ok (filter (fun i => fgtb (fdiv (ev d i) mx) thresh) (descending d)).

(** Eigen-decompose, sort, drop, raise the retained eigenvalues to the
    power [1 - thresh], return [V @ diag(sqrt(1/d))]. *)
Definition whiten_nt_spec (C : ndarray) (thresh : F) : result ndarray :=
  '(d, V) <- eigh C ;;
  kept <- retained d thresh ;;
  let dk := map (fun i => fpow (ev d i) (fsub f1 thresh)) kept in
  np_dot (take_cols V kept)
         (np_diag (vec (map (fun x => fsqrt (fdiv f1 x)) dk))).

(** The order of float64 on the numbers of a list that holds no NaN:
    [<] is irreflexive and transitive, and [x < y] or [y <= x]. *)
Definition ordered_on (l : list F) : Prop :=
  (forall x, In x l -> fltb x x = false) /\
  (forall x y z, In x l -> In y l -> In z l ->
     fltb x y = true -> fltb y z = true -> fltb x z = true) /\
  (forall x y, In x l -> In y l -> fltb x y = false -> fleb y x = true).

(** [r <= t] excludes [r > t], for the ratios of the numbers of a list. *)
Definition le_excludes_gt (l : list F) (t : F) : Prop :=
  forall x y, In x l -> In y l ->
    fleb (fdiv x y) t = true -> fgtb (fdiv x y) t = false.

(** Boolean tests of the two properties above, to settle them on given
    numbers by computation. *)
Definition ordered_onb (l : list F) : bool :=
  forallb (fun x => negb (fltb x x)) l &&
  forallb (fun x => forallb (fun y => forallb (fun z =>
     implb (fltb x y && fltb y z) (fltb x z)) l) l) l &&
  forallb (fun x => forallb (fun y => fltb x y || fleb y x) l) l.

Definition le_excludes_gtb (l : list F) (t : F) : bool :=
  forallb (fun x => forallb (fun y =>
     implb (fleb (fdiv x y) t) (negb (fgtb (fdiv x y) t))) l) l.

(** Thresholding removes no component: every eigenvalue-to-maximum ratio
    exceeds [thresh]. *)
Definition removes_none (d : ndarray) (thresh : F) : Prop :=
  forall mx, np_max (take1 d (descending d)) = Ok mx ->
    Forall (fun x => fgtb (fdiv x mx) thresh = true) (data d).

(** Thresholding removes every component: no eigenvalue-to-maximum ratio
    exceeds [thresh] (all the eigenvalues are null, say: 0/0 is a NaN, and
    a NaN exceeds nothing). *)
Definition removes_all (d : ndarray) (thresh : F) : Prop :=
  forall mx, np_max (take1 d (descending d)) = Ok mx ->
    Forall (fun x => fgtb (fdiv x mx) thresh = false) (data d).

(** The messages of [np.max] on an empty array and of [np.zeros] on a
    negative dimension. *)
Definition msg_max :=
  "zero-size array to reduction operation maximum which has no identity".
Definition msg_negative := "negative dimensions are not allowed".

(** A positive (finite) float64 divided by itself is 1.0, for the numbers
    of a list. *)
Definition div_self_on (l : list F) : Prop :=
  forall x, In x l -> fltb f0 x = true -> fdiv x x = f1.

(** The eigenvalue that comes first after the sort. *)
Definition leading (d : ndarray) : F := ev d (hd 0 (descending d)).

(** The transform [W] of whiten_nt keeps the leading eigen-direction of
    the decomposition [(d, V)]: the maximum is the leading eigenvalue, its
    ratio to the maximum is 1 and exceeds [thresh], its position heads the
    retained positions [kept], and [W] is [V[:, kept]] times the diagonal
    matrix of [sqrt(1 / d[kept] ** (1 - thresh))], with one column for each
    retained position. *)
Definition retains_leading (d V : ndarray) (thresh : F) (kept : list nat)
    (W : ndarray) : Prop :=
  np_max (take1 d (descending d)) = Ok (leading d) /\
  fdiv (leading d) (leading d) = f1 /\
  fgtb (fdiv (leading d) (leading d)) thresh = true /\
  retained d thresh = Ok kept /\
  hd_error kept = Some (hd 0 (descending d)) /\
  np_dot (take_cols V kept)
    (np_diag (vec (map (fun i => fsqrt (fdiv f1 (fpow (ev d i)
                                                      (fsub f1 thresh))))
                       kept))) = Ok W /\
  shape W = [nrows V; length kept] /\
  1 <= length kept.

(** What [scipy.linalg.eigh] returns on a square matrix of order [n]: [n]
    eigenvalues and an [n] by [n] array of eigenvectors. *)
Definition eigh_shapes : Prop :=
  forall C d V, eigh C = Ok (d, V) ->
    shape V = [nrows C; nrows C] /\ length (data d) = nrows C.

(** What the reduced [svd] of scipy returns on an [r] by [c] matrix, with
    [k = min(r, c)] singular values: [U] has [r] rows and [k] columns and
    [Vt] is [k] by [c]. *)
Definition scipy_svd_shapes : Prop :=
  forall X U Sv Vt, scipy_svd X = Ok (U, Sv, Vt) ->
    exists k, shape U = [nrows X; k] /\ shape Vt = [k; ncols X].

(** What the full [svd] of numpy returns on an [r] by [c] matrix: [U] is
    [r] by [r], there are [min(r, c)] singular values, and the third array
    is [c] by [c]. *)
Definition numpy_svd_shapes : Prop :=
  forall C U Sv V r c, shape C = [r; c] -> numpy_svd C = Ok (U, Sv, V) ->
    shape U = [r; r] /\ length (data Sv) = Nat.min r c /\ shape V = [c; c].

(** Modelled from the spec: [meegkit.utils.denoise.pca], which is not among
    the sources; by sections 4.3 and 6 it returns, for a real symmetric
    matrix, its eigenvectors as the columns of [V] and the corresponding
    eigenvalues [d], both sorted by descending eigenvalue. Only the shapes
    are needed here. *)
Definition pca_shapes : Prop :=
  forall C V d, pca C = Ok (V, d) ->
    shape V = [nrows C; nrows C] /\ length (data d) = nrows C.

End Model.

(* ================================================================== *)
(** * The same code over a store of arrays

    To speak of arrays being written to, the arrays live in a store and
    the variables of the code hold their addresses. [np.zeros] and every
    operation that returns a new array allocate; [a[...] = v] replaces the
    content at the address of [a]; a basic slice ([C[:m, :m]],
    [C[:, :, k]]) is a view: the address of its base with the window it
    reads through. The collaborators are taken to read their arguments and
    to return new arrays, as [scipy.linalg.eigh] does by default
    ([overwrite_a=False]). *)

Section Store.

Context {F : Type} {FO : Float64 F} {CO : Collaborators (F := F)}.

#[local] Abbreviation ndarray := (@ndarray F).
#[local] Abbreviation triple := (@triple F).
#[local] Abbreviation pyobj := (@pyobj F).

Definition loc : Type := nat.
Definition heap : Type := list ndarray.

(** A computation on the store; the store is kept when it raises. *)
Definition St (A : Type) : Type := heap -> result A * heap.

Definition ret {A : Type} (a : A) : St A := fun h => (Ok a, h).

Definition bindS {A B : Type} (c : St A) (k : A -> St B) : St B :=
  fun h => match c h with
           | (Ok a, h') => k a h'
           | (Raise e, h') => (Raise e, h')
           end.

Definition lift {A : Type} (r : result A) : St A := fun h => (r, h).

Definition no_array : ndarray := mkarr [] [].

Definition alloc (a : ndarray) : St loc := fun h => (Ok (length h), h ++ [a]).

Definition deref (l : loc) : St ndarray := fun h => (Ok (nth l h no_array), h).

Fixpoint set_nth (l : loc) (a : ndarray) (h : heap) : heap :=
  match h, l with
  | [], _ => []
  | _ :: h', 0 => a :: h'
  | x :: h', S l' => x :: set_nth l' a h'
  end.

Definition assign (l : loc) (a : ndarray) : St unit :=
  fun h => (Ok tt, set_nth l a h).

(** [a[...] = v]: the array at [l] is replaced by what the assignment
    makes of it. *)
Definition update_at (l : loc) (f : ndarray -> result ndarray) : St unit :=
  bindS (deref l) (fun a => bindS (lift (f a)) (fun a' => assign l a')).

(** An array as a variable holds it: a whole array or a view. *)
Record aref : Type := mkref { base : loc; window : ndarray -> ndarray }.

Definition whole (l : loc) : aref := mkref l (fun a => a).
Definition sub (r : aref) (w : ndarray -> ndarray) : aref :=
  mkref (base r) (fun a => w (window r a)).

Definition content (h : heap) (r : aref) : ndarray :=
  window r (nth (base r) h no_array).

Definition read (r : aref) : St ndarray := fun h => (Ok (content h r), h).

Definition read_opt (r : option aref) : St (option pyobj) :=
  fun h => (Ok (option_map (fun r => PyArray (content h r)) r), h).

Definition refs : Type := (loc * loc * loc)%type.

(** [whiten_nt]: no statement of it assigns into an array; it reads [C]
    and returns a new array. *)
Definition whiten_nt_st (C : aref) (thresh : option F) : St loc :=
  bindS (read C) (fun c =>
  bindS (lift (whiten_nt c thresh)) (fun W =>
  alloc W)).

(** Lines 99-120. *)
Definition cca_core_st (C : aref) (m : Z) (thresh : F) : St refs :=
  bindS (whiten_nt_st (sub C (fun c => upper_left c m)) (Some thresh)) (fun Cxw =>
  bindS (whiten_nt_st (sub C (fun c => lower_right c m)) (Some thresh)) (fun Cyw =>
  bindS (deref Cxw) (fun cxw =>
  bindS (deref Cyw) (fun cyw =>
  bindS (alloc (zeros2 (nrows cxw + nrows cyw) (ncols cxw + ncols cyw))) (fun W =>
  bindS (update_at W (fun w => setitem2 w 0 (nrows cxw) 0 (ncols cxw) cxw)) (fun _ =>
  bindS (update_at W (fun w =>
           setitem2 w (nrows cxw) (nrows w) (ncols cxw) (ncols w) cyw)) (fun _ =>
  bindS (deref W) (fun w =>
  bindS (read C) (fun c =>
  bindS (lift (np_dot (transpose w) c)) (fun WtC =>
  bindS (lift (np_dot WtC w)) (fun C' =>
  let N := Nat.min (ncols cxw) (ncols cyw) in
  bindS (lift (pca C')) (fun Vd =>
  let '(V, d) := Vd in
  bindS (lift (np_dot cxw (slice2 V 0 (ncols cxw) 0 N))) (fun A =>
  bindS (lift (np_dot cyw (slice2 V (ncols cxw) (nrows V) 0 N))) (fun B =>
  bindS (alloc (amap (fun x => fmul x (fsqrt f2)) A)) (fun A =>
  bindS (alloc (amap (fun x => fmul x (fsqrt f2)) B)) (fun B =>
  bindS (alloc (amap (fun x => fsub x f1) (head1 d N))) (fun R =>
  ret (A, B, R)))))))))))))))))).

(** The body of the loop of lines 91-95. *)
Definition store_page_st (acc : refs) (k : nat) (res : refs) : St unit :=
  let '(A, B, R) := acc in
  let '(AA, BB, RR) := res in
  bindS (deref AA) (fun aa =>
  bindS (lift (shape_at aa 0)) (fun a0 =>
  bindS (lift (shape_at aa 1)) (fun a1 =>
  bindS (update_at A (fun a => setitem3_page a a0 a1 k aa)) (fun _ =>
  bindS (deref BB) (fun bb =>
  bindS (lift (shape_at bb 0)) (fun b0 =>
  bindS (lift (shape_at bb 1)) (fun b1 =>
  bindS (update_at B (fun b => setitem3_page b b0 b1 k bb)) (fun _ =>
  bindS (deref RR) (fun rr =>
  update_at R (fun r => setitem2_col r k rr)))))))))).

Fixpoint forS {A : Type} (body : A -> St unit) (l : list A) : St unit :=
  match l with
  | [] => ret tt
  | a :: l' => bindS (body a) (fun _ => forS body l')
  end.

(** Lines 84-97. *)
Definition cca_pages_st (self : aref -> St refs) (C : aref) (m : Z) : St refs :=
  bindS (read C) (fun c =>
  let n_chans := Z.of_nat (nrows c) in
  let n_lags := npages c in
  let N := Z.min m (n_chans - m) in
  bindS (lift (np_zeros [m; N; Z.of_nat n_lags])) (fun A0 =>
  bindS (alloc A0) (fun A =>
  bindS (lift (np_zeros [(n_chans - m)%Z; N; Z.of_nat n_lags])) (fun B0 =>
  bindS (alloc B0) (fun B =>
  bindS (lift (np_zeros [N; Z.of_nat n_lags])) (fun R0 =>
  bindS (alloc R0) (fun R =>
  bindS (forS (fun k =>
                 bindS (self (sub C (fun c => page c k))) (fun res =>
                 store_page_st (A, B, R) k res))
              (seq 0 n_lags)) (fun _ =>
  ret (A, B, R))))))))).

(** [nt_cca]; X, Y and C are arrays in the store. *)
Fixpoint nt_cca_rec_st (fuel : nat) (X Y : option aref) (lags : option pyobj)
    (C : option aref) (m : option Z) (thresh : option F) : St refs :=
  match fuel with
  | O => lift (Raise RecursionError)
  | S fuel' =>
    let thresh := match thresh with Some t => t | None => f1e12 end in
    if (is_None X && negb (is_None Y)) || (is_None Y && negb (is_None X))
    then lift (Raise (AttributeError msg_XY))
    else
    match X, Y with
    | Some x, Some y =>
        bindS (read x) (fun xv =>
        bindS (read y) (fun yv =>
        bindS (lift (check_shifts lags)) (fun ln =>
        let '(lags', n_lags) := ln in
        bindS (lift (cov_lags (PyArray xv) (PyArray yv) lags')) (fun Ctm =>
        let '(C', _, m') := Ctm in
        bindS (alloc C') (fun C' =>
        nt_cca_rec_st fuel' None None None (Some (whole C')) (Some m')
                      (Some thresh))))))
    | _, _ =>
        match C with
        | None => lift (Raise (RuntimeError msg_C))
        | Some C =>
        match m with
        | None => lift (Raise (RuntimeError msg_m))
        | Some m =>
            bindS (read C) (fun c =>
            bindS (lift (shape_at c 0)) (fun s0 =>
            bindS (lift (shape_at c 1)) (fun s1 =>
            if negb (s0 =? s1) then lift (Raise (RuntimeError msg_square)) else
            bindS (read_opt X) (fun xo =>
            bindS (read_opt Y) (fun yo =>
            bindS (lift (any3 xo yo lags)) (fun b =>
            if b then lift (Raise (RuntimeError msg_only)) else
            if 3 <? ndim c then lift (Raise (RuntimeError msg_3D)) else
            if ndim c =? 3 then
              cca_pages_st
                (fun Ck => nt_cca_rec_st fuel' None None None (Some Ck) (Some m)
                             (Some thresh))
                C m
            else cca_core_st C m thresh))))))
        end
        end
    end
  end.

Definition nt_cca_st := nt_cca_rec_st 3.

(** The arguments of the call as the code without a store receives them. *)
Definition arg (h : heap) (r : option aref) : option pyobj :=
  option_map (fun r => PyArray (content h r)) r.

Definition valid (h : heap) (r : option aref) : Prop :=
  match r with Some r => base r < length h | None => True end.

(** The outcome of a run from the store [h], against the outcome [p] of
    the code without a store: the run only adds arrays to the store, the
    arrays it returns are among those it added, and they hold the values of
    [p]; it raises what [p] raises. *)
Definition agrees (h : heap) (run : result refs * heap) (p : result triple)
  : Prop :=
  exists ext, snd run = h ++ ext /\
    match fst run, p with
    | Ok (A, B, R), Ok (a, b, r) =>
        length h <= A < length (h ++ ext) /\
        length h <= B < length (h ++ ext) /\
        length h <= R < length (h ++ ext) /\
        nth A (h ++ ext) no_array = a /\
        nth B (h ++ ext) no_array = b /\
        nth R (h ++ ext) no_array = r
    | Raise e, Raise e' => e = e'
    | _, _ => False
    end.

(** What a run returns, read in the store it leaves. *)
Definition outcome (run : result refs * heap) : result triple :=
  match fst run with
  | Ok (A, B, R) =>
      Ok (nth A (snd run) no_array, nth B (snd run) no_array,
          nth R (snd run) no_array)
  | Raise e => Raise e
  end.

End Store.

(* ================================================================== *)
(** * Running the model: binary64 scalars, diagonal matrices

    The scalars are Rocq's binary64 floats, with the arithmetic and the
    comparisons of IEEE 754 that numpy applies to float64. The power
    function, which these floats lack, is given where IEEE 754 fixes its
    value whatever the accuracy of the library: [pow(1, y) = 1],
    [pow(x, 0) = 1], [pow(x, 1) = x]; NaN stands for the rest. The
    decompositions are given on diagonal matrices, where the eigenvalues
    (and singular values, when none is negative) are the diagonal entries
    and the eigenvectors are unit vectors; they raise LinAlgError
    elsewhere. *)

Definition float_pow (x y : float) : float :=
  if PrimFloat.eqb x 1%float then 1%float
  else if PrimFloat.eqb y 0%float then 1%float
  else if PrimFloat.eqb y 1%float then x
  else nan.

#[local] Set Warnings "-inexact-float".

#[global] Instance float64_binary64 : Float64 float := {|
  f0 := 0%float;
  f1 := 1%float;
  f2 := 2%float;
  f1e12 := 1e-12%float;
  f1e18 := 1e-18%float;
  fadd := PrimFloat.add;
  fsub := PrimFloat.sub;
  fmul := PrimFloat.mul;
  fdiv := PrimFloat.div;
  fsqrt := PrimFloat.sqrt;
  fpow := float_pow;
  fltb := PrimFloat.ltb;
  fleb := PrimFloat.leb;
  feqb := PrimFloat.eqb
|}.

Definition farray : Type := @ndarray float.

Definition diagonal_of (C : farray) : list float :=
  map (fun i => item2 C i i) (seq 0 (nrows C)).

Definition is_diagonal (C : farray) : bool :=
  (ncols C =? nrows C) &&
  forallb (fun i =>
             forallb (fun j => (i =? j) || PrimFloat.eqb (item2 C i j) 0%float)
                     (seq 0 (ncols C)))
          (seq 0 (nrows C)).

(** The unit vectors [e_(idx[0])], [e_(idx[1])], ... as columns. *)
Definition unit_columns (n : nat) (idx : list nat) : farray :=
  build2 n n (fun i j => if i =? nth j idx 0 then 1%float else 0%float).

Definition msg_not_diagonal := "decomposition given on diagonal matrices only".

(** [eigh]: eigenvalues in ascending order. *)
Definition diag_eigh (C : farray) : result (farray * farray) :=
  if is_diagonal C then
    let idx := argsort (vec (diagonal_of C)) in
    Ok (take1 (vec (diagonal_of C)) idx, unit_columns (nrows C) idx)
  else Raise (LinAlgError msg_not_diagonal).

(** [pca]: eigenvectors and eigenvalues in descending order. *)
Definition diag_pca (C : farray) : result (farray * farray) :=
  if is_diagonal C then
    let idx := rev (argsort (vec (diagonal_of C))) in
    Ok (unit_columns (nrows C) idx, take1 (vec (diagonal_of C)) idx)
  else Raise (LinAlgError msg_not_diagonal).

(** [svd] of a diagonal matrix without negative entries. *)
Definition diag_svd (C : farray) : result (farray * farray * farray) :=
  if is_diagonal C
     && forallb (fun x => PrimFloat.leb 0%float x) (diagonal_of C) then
    let idx := rev (argsort (vec (diagonal_of C))) in
    let U := unit_columns (nrows C) idx in
    Ok (U, take1 (vec (diagonal_of C)) idx, transpose U)
  else Raise (LinAlgError msg_not_diagonal).

Definition msg_no_data := "covariance of raw data is not given here".

#[global] Instance diagonal_collaborators : Collaborators (F := float) := {|
  eigh := diag_eigh;
  scipy_svd := diag_svd;
  numpy_svd := diag_svd;
  pca := diag_pca;
  check_shifts := fun _ => Raise (ValueError msg_no_data);
  cov_lags := fun _ _ _ => Raise (ValueError msg_no_data)
|}.

(** The diagonal matrix with the given diagonal. *)
Definition diag_matrix (l : list float) : farray := np_diag (vec l).

(** The full [svd] of numpy on a rectangular matrix that is null off its
    diagonal and whose diagonal entries are not negative and come in
    descending order: the matrix is its own matrix of singular values,
    between two identities. *)
Definition eye (n : nat) : farray :=
  build2 n n (fun i j => if i =? j then 1%float else 0%float).

Definition rect_diagonal_of (C : farray) : list float :=
  map (fun i => item2 C i i) (seq 0 (Nat.min (nrows C) (ncols C))).

Definition is_rect_diagonal (C : farray) : bool :=
  (ndim C =? 2) &&
  forallb (fun i =>
             forallb (fun j => (i =? j) || PrimFloat.eqb (item2 C i j) 0%float)
                     (seq 0 (ncols C)))
          (seq 0 (nrows C)) &&
  forallb (fun x => PrimFloat.leb 0%float x) (rect_diagonal_of C) &&
  forallb (fun i => PrimFloat.leb (item2 C (S i) (S i)) (item2 C i i))
          (seq 0 (Nat.min (nrows C) (ncols C) - 1)).

Definition rect_svd (C : farray) : result (farray * farray * farray) :=
  if is_rect_diagonal C then
    Ok (eye (nrows C), vec (rect_diagonal_of C), eye (ncols C))
  else Raise (LinAlgError msg_not_diagonal).

(** The same collaborators, with that [svd] for numpy's. *)
Definition rectangular_collaborators : Collaborators (F := float) := {|
  eigh := diag_eigh;
  scipy_svd := diag_svd;
  numpy_svd := rect_svd;
  pca := diag_pca;
  check_shifts := fun _ => Raise (ValueError msg_no_data);
  cov_lags := fun _ _ _ => Raise (ValueError msg_no_data)
|}.

(** A stack of diagonal pages, [C[:, :, k] = diag(pages[k])]. *)
Definition diag_stack (n : nat) (pages : list (list float)) : farray :=
  build3 n n (length pages)
    (fun i j k => if i =? j then nth i (nth k pages []) 0%float else 0%float).

(** ** Inputs of the examples *)

(** A block with one null direction. *)
Definition C_rank1 : farray := diag_matrix [1; 0]%float.

(** The identity of order 4, as a covariance of two pairs of channels. *)
Definition eye4_data : list float :=
  [1; 0; 0; 0;
   0; 1; 0; 0;
   0; 0; 1; 0;
   0; 0; 0; 1]%float.

(** Order 4 with a null direction in the first pair of channels. *)
Definition deficient4_data : list float :=
  [1; 0; 0; 0;
   0; 0; 0; 0;
   0; 0; 1; 0;
   0; 0; 0; 1]%float.

(** Two pages of order 6 split at [m = 3]: the identity, and a page whose
    first block has rank 2. *)
Definition C_two_ranks : farray :=
  diag_stack 6 [[1; 1; 1; 1; 1; 1]; [1; 1; 0; 1; 1; 1]]%float.

(** A one-dimensional array. *)
Definition C_1d : farray := vec [1; 2; 3]%float.

(** Two identity pages of order 4, and a store that holds this stack. *)
Definition C_stack : farray := diag_stack 4 [[1; 1; 1; 1]; [1; 1; 1; 1]]%float.
Definition store_of_stack : @heap float := [C_stack].

Definition C_eye4 : farray := mkarr [4; 4] eye4_data.
Definition C_deficient4 : farray := mkarr [4; 4] deficient4_data.

(** A matrix with more rows than columns. *)
Definition C_tall : farray := mkarr [2; 1] [1; 0]%float.

(** The identity and the null matrix of order 2, the matrix of order 0. *)
Definition C_eye2 : farray := diag_matrix [1; 1]%float.
Definition C_zero2 : farray := diag_matrix [0; 0]%float.
Definition C_empty : farray := diag_matrix [].

(** Two pages of order 4: the identity, and a page that is not diagonal,
    on which the decompositions given here raise. *)
Definition C_mixed : farray :=
  build3 4 4 2
    (fun i j k =>
       if k =? 0 then (if i =? j then 1%float else 0%float) else 1%float).

(** What nt_cca returns on the pages of [C_stack], page by page. *)
Definition on_page (k : nat) : @triple float :=
  match nt_cca None None None (Some (page C_stack k)) (Some 2%Z) None with
  | Ok res => res
  | Raise _ => (no_array, no_array, no_array)
  end.
Definition AA_stack (k : nat) : farray := fst (fst (on_page k)).
Definition BB_stack (k : nat) : farray := snd (fst (on_page k)).
Definition RR_stack (k : nat) : farray := snd (on_page k).

(** The decompositions of the blocks of these inputs. *)
Definition d_rank1 : farray := vec [0; 1]%float.
Definition V_rank1 : farray := unit_columns 2 [1; 0].
Definition d_full : farray := vec [1; 1]%float.
Definition V_full : farray := unit_columns 2 [0; 1].

(* ================================================================== *)
(** * Properties *)

Section Facts.

Context {F : Type} {FO : Float64 F} {CO : Collaborators (F := F)}.

(** ** Buffers and indices *)

Lemma length_tabulate (sh : list nat) (f : list nat -> F) :
  length (tabulate sh f) = prod sh.
Proof.
  revert f. induction sh as [|n sh IH]; intros f; simpl; [reflexivity|].
  generalize 0 as s. induction n as [|n IHn]; intros s; simpl; [reflexivity|].
  rewrite length_app, IH, IHn. reflexivity.
Qed.

Lemma nth_flat_map_blocks (g : nat -> list F) (L n s i r : nat) (d : F) :
  (forall k, length (g k) = L) -> i < n -> r < L ->
  nth (i * L + r) (flat_map g (seq s n)) d = nth r (g (s + i)) d.
Proof.
  intros HL. revert s i. induction n as [|n IH]; intros s i Hi Hr; [lia|].
  simpl. destruct i as [|i].
  - simpl. rewrite app_nth1 by (rewrite HL; exact Hr).
    now rewrite Nat.add_0_r.
  - rewrite app_nth2 by (rewrite HL; simpl; lia).
    rewrite HL. replace (S i * L + r - L) with (i * L + r) by (simpl; lia).
    rewrite IH by lia. f_equal. f_equal. lia.
Qed.

Lemma offset_lt (sh ix : list nat) :
  Forall2 lt ix sh -> offset sh ix < prod sh.
Proof.
  intros H. induction H as [|i n ix sh Hin _ IH]; simpl; [lia|].
  nia.
Qed.

Lemma nth_tabulate (sh ix : list nat) (f : list nat -> F) (d : F) :
  Forall2 lt ix sh -> nth (offset sh ix) (tabulate sh f) d = f ix.
Proof.
  intros H. revert f.
  induction H as [|i n ix sh Hin Hrest IH]; intros f; simpl; [reflexivity|].
  rewrite nth_flat_map_blocks with (L := prod sh).
  - simpl. apply IH.
  - intros k. apply length_tabulate.
  - exact Hin.
  - now apply offset_lt.
Qed.

Lemma tabulate_ext (sh : list nat) (f g : list nat -> F) :
  (forall ix, Forall2 lt ix sh -> f ix = g ix) ->
  tabulate sh f = tabulate sh g.
Proof.
  revert f g. induction sh as [|n sh IH]; intros f g H; simpl.
  - f_equal. apply H. constructor.
  - assert (Hs : forall i, In i (seq 0 n) -> i < n)
      by (intros i Hi; apply in_seq in Hi; lia).
    revert Hs. generalize (seq 0 n) as l.
    induction l as [|i l IHl]; intros Hs; simpl; [reflexivity|].
    f_equal.
    + apply IH. intros ix Hix. apply H. constructor; [|exact Hix].
      apply Hs. now left.
    + apply IHl. intros k Hk. apply Hs. now right.
Qed.

Lemma item_build (sh ix : list nat) (f : list nat -> F) :
  Forall2 lt ix sh -> item (build sh f) ix = f ix.
Proof. intros H. unfold item, build. simpl. now apply nth_tabulate. Qed.

Lemma wf_build (sh : list nat) (f : list nat -> F) : wf (build sh f).
Proof. unfold wf, size, build. simpl. apply length_tabulate. Qed.

Lemma item2_build2 (r c : nat) (g : nat -> nat -> F) (i j : nat) :
  i < r -> j < c -> item2 (build2 r c g) i j = g i j.
Proof.
  intros Hi Hj. unfold item2, build2. rewrite item_build; [reflexivity|].
  repeat constructor; assumption.
Qed.

Lemma item3_build3 (r c p : nat) (g : nat -> nat -> nat -> F) (i j k : nat) :
  i < r -> j < c -> k < p -> item3 (build3 r c p g) i j k = g i j k.
Proof.
  intros Hi Hj Hk. unfold item3, build3. rewrite item_build; [reflexivity|].
  repeat constructor; assumption.
Qed.

Lemma build2_ext (r c : nat) (g h : nat -> nat -> F) :
  (forall i j, i < r -> j < c -> g i j = h i j) ->
  build2 r c g = build2 r c h.
Proof.
  intros H. unfold build2, build. f_equal. apply tabulate_ext.
  intros ix Hix. inversion Hix as [|i n ix1 sh1 Hi H1]; subst.
  inversion H1 as [|j n2 ix2 sh2 Hj H2]; subst.
  inversion H2; subst. simpl. now apply H.
Qed.

Lemma build3_ext (r c p : nat) (g h : nat -> nat -> nat -> F) :
  (forall i j k, i < r -> j < c -> k < p -> g i j k = h i j k) ->
  build3 r c p g = build3 r c p h.
Proof.
  intros H. unfold build3, build. f_equal. apply tabulate_ext.
  intros ix Hix. inversion Hix as [|i n ix1 sh1 Hi H1]; subst.
  inversion H1 as [|j n2 ix2 sh2 Hj H2]; subst.
  inversion H2 as [|k n3 ix3 sh3 Hk H3]; subst.
  inversion H3; subst. simpl. now apply H.
Qed.

Lemma shape_build2 (r c : nat) (g : nat -> nat -> F) :
  shape (build2 r c g) = [r; c].
Proof. reflexivity. Qed.

Lemma nrows_build2 (r c : nat) (g : nat -> nat -> F) : nrows (build2 r c g) = r.
Proof. reflexivity. Qed.

Lemma ncols_build2 (r c : nat) (g : nat -> nat -> F) : ncols (build2 r c g) = c.
Proof. reflexivity. Qed.

End Facts.

Section Checks.

Context {F : Type} {FO : Float64 F} {CO : Collaborators (F := F)}.

(** ** The argument checks of nt_cca (lines 61-82) *)

(** [C] absent: the first check of the covariance form. *)
Lemma nt_cca_C_absent (lags : option pyobj) (m : option Z) (thresh : option F) :
  nt_cca None None lags None m thresh = Raise (RuntimeError msg_C).
Proof. reflexivity. Qed.

(** [m] absent, [C] present. *)
Lemma nt_cca_m_absent (lags : option pyobj) (C : ndarray) (thresh : option F) :
  nt_cca None None lags (Some C) None thresh = Raise (RuntimeError msg_m).
Proof. reflexivity. Qed.

(** [C] with two dimensions or more whose first two differ. *)
Lemma nt_cca_not_square (lags : option pyobj) (n0 n1 : nat) (sh : list nat)
    (dat : list F) (m : Z) (thresh : option F) :
  n0 <> n1 ->
  nt_cca None None lags (Some (mkarr (n0 :: n1 :: sh) dat)) (Some m) thresh
  = Raise (RuntimeError msg_square).
Proof.
  intros Hne. unfold nt_cca. simpl.
  apply Nat.eqb_neq in Hne. rewrite Hne. reflexivity.
Qed.

(** A non-empty Python list as [lags]. *)
Lemma nt_cca_lags_list (z : Z) (l : list Z) (n : nat) (sh : list nat)
    (dat : list F) (m : Z) (thresh : option F) :
  nt_cca None None (Some (PyList (z :: l))) (Some (mkarr (n :: n :: sh) dat))
         (Some m) thresh
  = Raise (RuntimeError msg_only).
Proof. unfold nt_cca. simpl. rewrite Nat.eqb_refl. reflexivity. Qed.

(** More than three dimensions. *)
Lemma nt_cca_4D (n n2 n3 : nat) (sh : list nat) (dat : list F) (m : Z)
    (thresh : option F) :
  nt_cca None None None (Some (mkarr (n :: n :: n2 :: n3 :: sh) dat))
         (Some m) thresh
  = Raise (RuntimeError msg_3D).
Proof. unfold nt_cca. simpl. rewrite Nat.eqb_refl. reflexivity. Qed.

(** The five messages are pairwise different and fall in the taxonomy. *)
Lemma five_errors_distinct :
  NoDup [msg_C; msg_m; msg_square; msg_only; msg_3D] /\
  Forall (fun msg => classify (RuntimeError msg) <> None)
         [msg_C; msg_m; msg_square; msg_only; msg_3D].
Proof.
  split.
  - repeat constructor; simpl; intuition discriminate.
  - repeat constructor; discriminate.
Qed.

End Checks.

Section Claims_errors.

Context {F : Type} {FO : Float64 F} {CO : Collaborators (F := F)}.

(** C5. A call of nt_cca with exactly one of X and Y fails with the
    AttributeError of line 65, an InvalidArgument error, whatever lags, C,
    m and thresh are and whatever the collaborators would compute: none of
    them is consulted. *)
Theorem nt_cca_one_of_X_Y :
  forall (x : pyobj) (lags : option pyobj) (C : option ndarray)
         (m : option Z) (thresh : option F),
    nt_cca (Some x) None lags C m thresh = Raise (AttributeError msg_XY) /\
    nt_cca None (Some x) lags C m thresh = Raise (AttributeError msg_XY) /\
    classify (AttributeError msg_XY) = Some InvalidArgument.
Proof. intros. repeat split. Qed.

(** C3, at the input where the code departs from it. A one-element integer
    array holding 0 is a non-empty lags sequence, yet [any((X, Y, lags))] is
    false on it: the call goes on exactly as if lags had been omitted. With
    two elements or more the truth value of the array is itself an error, a
    ValueError outside the taxonomy, instead of the RuntimeError of line 80. *)
Theorem nt_cca_lags_array_not_rejected :
  forall (C : ndarray) (m : Z) (thresh : option F),
    nt_cca None None (Some (PyIntArray [0%Z])) (Some C) (Some m) thresh
    = nt_cca None None None (Some C) (Some m) thresh
    /\
    forall (z1 z2 : Z) (l : list Z) (n : nat) (sh : list nat) (dat : list F),
      nt_cca None None (Some (PyIntArray (z1 :: z2 :: l)))
             (Some (mkarr (n :: n :: sh) dat)) (Some m) thresh
      = Raise (ValueError msg_ambiguous)
      /\ classify (ValueError msg_ambiguous) = None.
Proof.
  intros C m thresh. split.
  - reflexivity.
  - intros. split; [|reflexivity].
    unfold nt_cca. simpl. rewrite Nat.eqb_refl. reflexivity.
Qed.

(** C9, amended. With X and Y omitted, m given and a one-dimensional C,
    the call fails at the squareness check of line 77 with the IndexError
    of [C.shape[1]], which is outside the taxonomy; this holds whatever
    lags is, so neither the check of line 79 nor the dimension check of
    line 81 is reached. *)
Theorem nt_cca_1d_cov_index_error :
  forall (n : nat) (dat : list F) (m : Z) (lags : option pyobj)
         (thresh : option F),
    nt_cca None None lags (Some (mkarr [n] dat)) (Some m) thresh
    = Raise (IndexError "tuple index out of range")
    /\ classify (IndexError "tuple index out of range") = None.
Proof. intros. split; reflexivity. Qed.

(** C7, at the input where the code departs from it. With its default
    [thresh=None], whiten_zca never returns: once the decomposition has
    succeeded, [S + thresh] raises a TypeError, which is not a
    NumericalFailure (nor in the taxonomy at all). *)
Theorem whiten_zca_default_raises :
  forall (C : ndarray),
    whiten_zca C None
    = match numpy_svd C with
      | Ok _ => Raise (TypeError msg_NoneType)
      | Raise e => Raise e
      end
    /\ is_ok (whiten_zca C None) = false
    /\ classify (TypeError msg_NoneType) = None.
Proof.
  intros C. unfold whiten_zca.
  destruct (numpy_svd C) as [[[U Sv] V]|e]; repeat split.
Qed.

End Claims_errors.

Section Core.

Context {F : Type} {FO : Float64 F} {CO : Collaborators (F := F)}.

(** ** The 2D core (lines 99-120) *)

Ltac bool_cases :=
  repeat match goal with
         | |- context [?a <? ?b] => destruct (Nat.ltb_spec a b)
         | |- context [?a <=? ?b] => destruct (Nat.leb_spec a b)
         | |- context [?a =? ?b] => destruct (Nat.eqb_spec a b)
         end.

Lemma np_dot_built (a b c : ndarray) :
  np_dot a b = Ok c -> exists g, c = build2 (nrows a) (ncols b) g.
Proof.
  unfold np_dot. destruct (ncols a =? nrows b); intros H; inversion H.
  eexists. reflexivity.
Qed.

(** What whiten_nt returns is the product of line 164: a 2-D array. *)
Lemma whiten_nt_built (C : ndarray) (thresh : option F) (W : ndarray) :
  whiten_nt C thresh = Ok W -> exists r c g, W = build2 r c g.
Proof.
  unfold whiten_nt.
  destruct (eigh C) as [[d V]|e]; simpl; [|discriminate].
  destruct (np_max _) as [mx|e]; simpl; [|discriminate].
  intros H. apply np_dot_built in H. destruct H as [g Hg].
  eexists _, _, g. exact Hg.
Qed.

(** A source of the shape of the target region is copied as it is. *)
Lemma broadcast2_same (r c : nat) (g : nat -> nat -> F) :
  exists h, broadcast2 (build2 r c g) r c = Ok h /\
            forall i j, i < r -> j < c -> h i j = g i j.
Proof.
  unfold broadcast2. simpl. rewrite !Nat.eqb_refl. simpl.
  eexists. split; [reflexivity|].
  intros i j Hi Hj. simpl.
  destruct (Nat.eqb_spec r 1), (Nat.eqb_spec c 1); subst;
    rewrite item2_build2; try lia; f_equal; lia.
Qed.

(** Assignment of a source that has the shape of the target region. *)
Lemma setitem2_exact (W : ndarray) (r0 r1 c0 c1 : nat) (g : nat -> nat -> F) :
  r0 <= r1 <= nrows W -> c0 <= c1 <= ncols W ->
  setitem2 W r0 r1 c0 c1 (build2 (r1 - r0) (c1 - c0) g)
  = Ok (build2 (nrows W) (ncols W)
          (fun i j =>
             if (r0 <=? i) && (i <? r1) && (c0 <=? j) && (j <? c1)
             then g (i - r0) (j - c0) else item2 W i j)).
Proof.
  intros Hr Hc. unfold setitem2.
  replace (Nat.min r0 (nrows W)) with r0 by lia.
  replace (Nat.min r1 (nrows W)) with r1 by lia.
  replace (Nat.min c0 (ncols W)) with c0 by lia.
  replace (Nat.min c1 (ncols W)) with c1 by lia.
  destruct (broadcast2_same (r1 - r0) (c1 - c0) g) as [h [Hh Hhg]].
  rewrite Hh. cbn [bind]. f_equal. apply build2_ext. intros i j Hi Hj.
  bool_cases; simpl; try reflexivity. apply Hhg; lia.
Qed.

(** Lines 105-107: a zero array with the two transforms assigned to its
    diagonal blocks is their block-diagonal matrix. *)
Lemma assemble_block_diag (r c r' c' : nat) (g g' : nat -> nat -> F) :
  let P := build2 r c g in
  let Q := build2 r' c' g' in
  (W1 <- setitem2 (zeros2 (nrows P + nrows Q) (ncols P + ncols Q))
                  0 (nrows P) 0 (ncols P) P ;;
   setitem2 W1 (nrows P) (nrows W1) (ncols P) (ncols W1) Q)
  = Ok (block_diag P Q).
Proof.
  intros P Q. subst P Q. rewrite !nrows_build2, !ncols_build2.
  pose proof (@setitem2_exact (zeros2 (r + r') (c + c')) 0 r 0 c g) as H1.
  rewrite !Nat.sub_0_r in H1. rewrite H1 by (unfold zeros2, nrows, ncols; simpl; lia).
  clear H1. cbn [bind]. unfold zeros2.
  rewrite !nrows_build2, !ncols_build2.
  pose proof (@setitem2_exact
                (build2 (r + r') (c + c')
                   (fun i j =>
                      if (0 <=? i) && (i <? r) && (0 <=? j) && (j <? c)
                      then g (i - 0) (j - 0)
                      else item2 (build2 (r + r') (c + c') (fun _ _ => f0)) i j))
                r (r + r') c (c + c') g') as H2.
  replace (r + r' - r) with r' in H2 by lia.
  replace (c + c' - c) with c' in H2 by lia.
  rewrite H2 by (unfold nrows, ncols; simpl; lia). clear H2.
  f_equal. unfold block_diag. rewrite !nrows_build2, !ncols_build2.
  apply build2_ext. intros i j Hi Hj.
  rewrite !(item2_build2 _ Hi Hj).
  bool_cases; simpl; try lia; try reflexivity.
  - rewrite !Nat.sub_0_r. now rewrite item2_build2.
  - now rewrite item2_build2 by lia.
Qed.

Lemma cca_core_refines (C : ndarray) (m : Z) (thresh : F) :
  cca_core C m thresh = cca_core_spec C m thresh.
Proof.
  unfold cca_core, cca_core_spec.
  destruct (whiten_nt (upper_left C m) (Some thresh)) as [Cxw|e] eqn:Hx;
    [|reflexivity].
  destruct (whiten_nt (lower_right C m) (Some thresh)) as [Cyw|e] eqn:Hy;
    [|reflexivity].
  apply whiten_nt_built in Hx. destruct Hx as (r & c & g & ->).
  apply whiten_nt_built in Hy. destruct Hy as (r' & c' & g' & ->).
  cbn [bind].
  pose proof (assemble_block_diag r c r' c' g g') as HW. cbv zeta in HW.
  destruct (setitem2 _ 0 _ 0 _ _) as [W1|e]; [|discriminate HW].
  cbn [bind] in HW |- *. rewrite HW. cbn [bind]. unfold whitened_cov.
  destruct (np_dot (transpose _) C) as [WtC|e]; [|reflexivity]. cbn [bind].
  destruct (np_dot WtC _) as [C'|e]; reflexivity.
Qed.

(** The checks of lines 61-82 let a square 2-D covariance through to the
    core. *)
Lemma nt_cca_2d (n : nat) (dat : list F) (m : Z) (thresh : option F) :
  let C := mkarr [n; n] dat in
  nt_cca None None None (Some C) (Some m) thresh
  = cca_core C m (match thresh with Some t => t | None => f1e12 end).
Proof.
  intros C. unfold nt_cca. simpl. rewrite Nat.eqb_refl. reflexivity.
Qed.

(** C2. For every square 2-D covariance [C] and split [m], nt_cca returns
    exactly the triple of the specification: [A = Cxw @ V[:rank_x, :N] *
    sqrt(2)], [B = Cyw @ V[rank_x:, :N] * sqrt(2)] and [R = d[:N] - 1], with
    [Cxw], [Cyw] the rank-reducing whitening transforms of the two diagonal
    blocks, [rank_x] the number of columns of [Cxw], [N] the smaller number
    of columns, and [(V, d)] the PCA of [W.T @ C @ W] for the block-diagonal
    [W]; it fails exactly where a step of that computation fails. *)
Theorem nt_cca_2d_core_formula :
  forall (n : nat) (dat : list F) (m : Z) (thresh : option F),
    let C := mkarr [n; n] dat in
    nt_cca None None None (Some C) (Some m) thresh
    = cca_core_spec C m (match thresh with Some t => t | None => f1e12 end).
Proof.
  intros n dat m thresh C. subst C. rewrite nt_cca_2d. apply cca_core_refines.
Qed.

End Core.

Section Whitening.

Context {F : Type} {FO : Float64 F} {CO : Collaborators (F := F)}.

(** ** argsort *)

Lemma insert_idx_perm (d : list F) (i : nat) (l : list nat) :
  Permutation (insert_idx d i l) (i :: l).
Proof.
  induction l as [|j l IH]; simpl; [reflexivity|].
  destruct (fltb _ _); [reflexivity|].
  rewrite IH. apply perm_swap.
Qed.

Lemma fold_insert_perm (d : list F) (l acc : list nat) :
  Permutation (fold_left (fun acc i => insert_idx d i acc) l acc) (l ++ acc).
Proof.
  revert acc. induction l as [|a l IH]; intros acc; simpl; [reflexivity|].
  rewrite IH, insert_idx_perm. symmetry. apply Permutation_middle.
Qed.

Lemma argsort_perm (d : ndarray) :
  Permutation (argsort d) (seq 0 (length (data d))).
Proof.
  unfold argsort. rewrite fold_insert_perm. now rewrite app_nil_r.
Qed.

Lemma descending_perm (d : ndarray) :
  Permutation (descending d) (seq 0 (length (data d))).
Proof.
  unfold descending. rewrite <- argsort_perm. symmetry. apply Permutation_rev.
Qed.

Lemma descending_lt (d : ndarray) (i : nat) :
  In i (descending d) -> i < length (data d).
Proof.
  intros Hi. apply (Permutation_in _ (descending_perm d)) in Hi.
  apply in_seq in Hi. lia.
Qed.

Lemma ev_In (d : ndarray) (i : nat) : i < length (data d) -> In (ev d i) (data d).
Proof. intros Hi. unfold ev. now apply nth_In. Qed.

Lemma Forall_insert_idx (P : nat -> Prop) (d : list F) (i : nat) (l : list nat) :
  P i -> Forall P l -> Forall P (insert_idx d i l).
Proof.
  intros Hi Hl. induction Hl as [|j l Hj Hl IH]; simpl.
  - constructor; [exact Hi|constructor].
  - destruct (fltb _ _); constructor; auto.
Qed.

Lemma insert_idx_sorted (d : list F) (i : nat) (l : list nat) :
  ordered_on d -> i < length d -> Forall (fun j => j < length d) l ->
  StronglySorted (asc d) l -> StronglySorted (asc d) (insert_idx d i l).
Proof.
  intros (Hirr & Htr & _) Hi Hl Hs.
  induction l as [|j l IH]; simpl.
  - constructor; constructor.
  - inversion Hl as [|? ? Hj Hl']; subst.
    apply StronglySorted_inv in Hs. destruct Hs as [Hs Hall].
    destruct (fltb (nth i d f0) (nth j d f0)) eqn:Hij.
    + constructor; [constructor; assumption|].
      assert (Hji : asc d i j).
      { unfold asc. destruct (fltb (nth j d f0) (nth i d f0)) eqn:E; [|reflexivity].
        rewrite <- (Hirr (nth i d f0)) by now apply nth_In.
        symmetry. apply Htr with (y := nth j d f0); auto using nth_In. }
      constructor; [exact Hji|].
      rewrite Forall_forall in Hall, Hl' |- *. intros k Hk.
      unfold asc in *. specialize (Hall k Hk).
      destruct (fltb (nth k d f0) (nth i d f0)) eqn:E; [|reflexivity].
      rewrite <- Hall. symmetry.
      apply Htr with (y := nth i d f0); auto using nth_In.
    + constructor; [apply IH; assumption|].
      apply Forall_insert_idx; [exact Hij|exact Hall].
Qed.

Lemma argsort_sorted (d : ndarray) :
  ordered_on (data d) -> StronglySorted (asc (data d)) (argsort d).
Proof.
  intros Hord. unfold argsort.
  assert (G : forall l acc,
             Forall (fun j => j < length (data d)) l ->
             Forall (fun j => j < length (data d)) acc ->
             StronglySorted (asc (data d)) acc ->
             StronglySorted (asc (data d))
               (fold_left (fun acc i => insert_idx (data d) i acc) l acc)).
  { induction l as [|a l IH]; intros acc Hl Hacc Hs; simpl; [exact Hs|].
    inversion Hl; subst. apply IH; [assumption| |].
    - apply Forall_insert_idx; assumption.
    - apply insert_idx_sorted; assumption. }
  apply G; [|constructor|constructor].
  apply Forall_forall. intros j Hj. apply in_seq in Hj. lia.
Qed.

Lemma StronglySorted_snoc {A : Type} (R : A -> A -> Prop) (l : list A) (x : A) :
  StronglySorted R l -> Forall (fun y => R y x) l ->
  StronglySorted R (l ++ [x]).
Proof.
  induction l as [|a l IH]; intros Hs Hall; simpl.
  - constructor; constructor.
  - apply StronglySorted_inv in Hs. destruct Hs as [Hs Ha].
    inversion Hall; subst. constructor; [now apply IH|].
    apply Forall_app. split; [exact Ha|]. constructor; [assumption|constructor].
Qed.

Lemma StronglySorted_rev {A : Type} (R : A -> A -> Prop) (l : list A) :
  StronglySorted R l -> StronglySorted (fun x y => R y x) (rev l).
Proof.
  induction l as [|a l IH]; intros Hs; simpl; [constructor|].
  apply StronglySorted_inv in Hs. destruct Hs as [Hs Ha].
  apply StronglySorted_snoc; [now apply IH|].
  now apply Forall_rev.
Qed.

(** After the sort no eigenvalue is smaller than a later one. *)
Lemma descending_sorted (d : ndarray) :
  ordered_on (data d) ->
  StronglySorted (fun i j => fltb (ev d i) (ev d j) = false) (descending d).
Proof.
  intros Hord. unfold descending.
  apply (StronglySorted_rev (R := asc (data d))). now apply argsort_sorted.
Qed.

(** ** Masks and positions *)

Lemma where_true_bounds (s : nat) (keep : list bool) (j : nat) :
  In j (where_true s keep) -> s <= j < s + length keep.
Proof.
  revert s. induction keep as [|b keep IH]; intros s Hj; simpl in *; [tauto|].
  destruct b.
  - destruct Hj as [<-|Hj]; [lia|]. apply IH in Hj. lia.
  - apply IH in Hj. lia.
Qed.

Lemma where_true_filter (q : nat -> bool) (l : list nat) (s : nat) :
  map (fun j => nth (j - s) l 0) (where_true s (map q l)) = filter q l.
Proof.
  revert s. induction l as [|a l IH]; intros s; simpl; [reflexivity|].
  assert (Htl : map (fun j => nth (j - s) (a :: l) 0) (where_true (S s) (map q l))
                = filter q l).
  { rewrite <- (IH (S s)). apply map_ext_in. intros j Hj.
    apply where_true_bounds in Hj.
    replace (j - s) with (S (j - S s)) by lia. reflexivity. }
  destruct (q a); simpl.
  - rewrite Nat.sub_diag. f_equal. exact Htl.
  - exact Htl.
Qed.

Lemma where_true_length (q : nat -> bool) (l : list nat) (s : nat) :
  length (where_true s (map q l)) = length (filter q l).
Proof. rewrite <- (where_true_filter q l s). now rewrite length_map. Qed.

Lemma nth_map_in {A B : Type} (g : A -> B) (l : list A) (j : nat) (a : A) (b : B) :
  j < length l -> nth j (map g l) b = g (nth j l a).
Proof.
  intros Hj. rewrite (nth_indep (map g l) b (g a)) by now rewrite length_map.
  apply map_nth.
Qed.

(** A mask over the sorted eigenvalues selects the sorted positions that
    pass the test. *)
Lemma mask1_take1 (d : ndarray) (idx : list nat) (q : nat -> bool) :
  data (mask1 (take1 d idx) (map q idx))
  = map (ev d) (filter q idx).
Proof.
  unfold mask1, take1. simpl.
  rewrite <- (where_true_filter q idx 0), map_map.
  apply map_ext_in. intros j Hj. apply where_true_bounds in Hj.
  rewrite length_map in Hj. rewrite Nat.sub_0_r. unfold ev.
  now rewrite (nth_map_in (fun i => nth i (data d) f0) idx 0 f0) by lia.
Qed.

Lemma mask_cols_take_cols (V : ndarray) (idx : list nat) (q : nat -> bool) :
  mask_cols (take_cols V idx) (map q idx) = take_cols V (filter q idx).
Proof.
  unfold mask_cols, take_cols. rewrite nrows_build2.
  rewrite where_true_length. apply build2_ext. intros i j Hi Hj.
  rewrite <- (where_true_length q idx 0) in Hj.
  assert (Hin : In (nth j (where_true 0 (map q idx)) 0) (where_true 0 (map q idx)))
    by now apply nth_In.
  apply where_true_bounds in Hin. rewrite length_map in Hin.
  rewrite item2_build2 by lia. f_equal.
  rewrite <- (where_true_filter q idx 0).
  rewrite (nth_map_in _ _ 0 0) by exact Hj.
  now rewrite Nat.sub_0_r.
Qed.

Lemma np_diag_data (a b : ndarray) : data a = data b -> np_diag a = np_diag b.
Proof. intros H. unfold np_diag. now rewrite H. Qed.

(** ** whiten_nt (lines 143-166) *)

(** The code of whiten_nt computes what section 4.2 describes. *)
Lemma whiten_nt_refines (C : ndarray) (thresh : F) :
  whiten_nt C (Some thresh) = whiten_nt_spec C thresh.
Proof.
  unfold whiten_nt, whiten_nt_spec, retained, np_real.
  destruct (eigh C) as [[d V]|e]; [|reflexivity]. cbn [bind].
  fold (descending d).
  destruct (np_max (take1 d (descending d))) as [mx|e]; [|reflexivity].
  cbn [bind].
  set (q := fun i => fgtb (fdiv (ev d i) mx) thresh).
  assert (Hk : keep_mask (take1 d (descending d)) mx thresh
               = map q (descending d)).
  { unfold keep_mask, take1. simpl. now rewrite map_map. }
  rewrite Hk. rewrite mask_cols_take_cols. f_equal.
  apply np_diag_data. unfold amap, vec. cbn [data]. rewrite mask1_take1.
  now rewrite !map_map.
Qed.

(** ** The maximum of the sorted eigenvalues *)

Lemma fold_fmax_In (l : list F) (x : F) : In (fold_left fmax l x) (x :: l).
Proof.
  revert x. induction l as [|y l IH]; intros x; simpl; [now left|].
  destruct (IH (fmax x y)) as [H|H]; [|now right; right].
  rewrite <- H. unfold fmax. destruct (fgeb x y || fisnan x); [now left|].
  right; left. reflexivity.
Qed.

Lemma fold_fmax_head (l : list F) (x : F) :
  Forall (fun y => fleb y x = true) l -> fold_left fmax l x = x.
Proof.
  intros H. induction H as [|y l Hy _ IH]; simpl; [reflexivity|].
  unfold fmax at 2. unfold fgeb. rewrite Hy. simpl. exact IH.
Qed.

Lemma data_take1 (d : ndarray) (idx : list nat) :
  data (take1 d idx) = map (ev d) idx.
Proof. reflexivity. Qed.

Lemma descending_length (d : ndarray) :
  length (descending d) = length (data d).
Proof.
  rewrite (Permutation_length (descending_perm d)). apply length_seq.
Qed.

Lemma In_descending (d : ndarray) (i : nat) :
  In i (descending d) <-> i < length (data d).
Proof.
  split; [apply descending_lt|]. intros Hi.
  apply (Permutation_in _ (Permutation_sym (descending_perm d))).
  apply in_seq. lia.
Qed.

(** With at least one eigenvalue [np.max] succeeds, on an eigenvalue. *)
Lemma np_max_sorted_ok (d : ndarray) :
  data d <> [] ->
  exists mx, np_max (take1 d (descending d)) = Ok mx /\ In mx (data d).
Proof.
  intros Hne. unfold np_max. rewrite data_take1.
  destruct (descending d) as [|i0 tl] eqn:E.
  - exfalso. apply Hne. apply length_zero_iff_nil.
    rewrite <- descending_length, E. reflexivity.
  - simpl. eexists. split; [reflexivity|].
    assert (Hin : forall x, In x (ev d i0 :: map (ev d) tl) -> In x (data d)).
    { intros x Hx. change (In x (map (ev d) (i0 :: tl))) in Hx.
      apply in_map_iff in Hx. destruct Hx as (i & <- & Hi).
      apply ev_In. apply descending_lt. rewrite E. exact Hi. }
    apply Hin. apply fold_fmax_In.
Qed.

(** On ordered eigenvalues the maximum is the leading one after the
    sort, and no eigenvalue exceeds it. *)
Lemma np_max_sorted_leading (d : ndarray) :
  data d <> [] -> ordered_on (data d) ->
  np_max (take1 d (descending d)) = Ok (ev d (hd 0 (descending d))) /\
  Forall (fun x => fltb (ev d (hd 0 (descending d))) x = false) (data d).
Proof.
  intros Hne Hord. pose proof (@descending_sorted d Hord) as Hs.
  pose proof (fun i => proj1 (In_descending d i)) as Hlt.
  pose proof (fun i => proj2 (In_descending d i)) as Hin.
  destruct Hord as (Hirr & _ & Htot).
  unfold np_max. rewrite data_take1.
  destruct (descending d) as [|i0 tl] eqn:E.
  - exfalso. apply Hne. apply length_zero_iff_nil.
    rewrite <- descending_length, E. reflexivity.
  - simpl. apply StronglySorted_inv in Hs. destruct Hs as [_ Hall].
    assert (H0 : In (ev d i0) (data d)) by (apply ev_In, Hlt; now left).
    split.
    + f_equal. apply fold_fmax_head. apply Forall_map.
      rewrite Forall_forall in Hall |- *. intros j Hj.
      apply Htot; [exact H0| |now apply Hall].
      apply ev_In, Hlt. now right.
    + apply Forall_forall. intros x Hx.
      destruct (In_nth _ _ f0 Hx) as (i & Hi & <-).
      destruct (Hin i Hi) as [<-|Hi'].
      * now apply Hirr.
      * rewrite Forall_forall in Hall. now apply Hall.
Qed.

Lemma retained_In (d : ndarray) (thresh mx : F) (kept : list nat) :
  np_max (take1 d (descending d)) = Ok mx ->
  retained d thresh = Ok kept ->
  forall i, In i kept <->
            i < length (data d) /\ fgtb (fdiv (ev d i) mx) thresh = true.
Proof.
  intros Hmx Hk i. unfold retained in Hk. rewrite Hmx in Hk. simpl in Hk.
  inversion Hk; subst. rewrite filter_In, In_descending. reflexivity.
Qed.

Lemma retained_length (d : ndarray) (thresh : F) (kept : list nat) :
  retained d thresh = Ok kept -> length kept <= length (data d).
Proof.
  unfold retained. destruct (np_max _) as [mx|e]; simpl; [|discriminate].
  intros H. inversion H; subst. rewrite <- descending_length.
  apply filter_length_le.
Qed.

(** The transform has one column for each retained direction. *)
Lemma whiten_nt_spec_shape (C d V : ndarray) (thresh : F) (kept : list nat) :
  eigh C = Ok (d, V) -> retained d thresh = Ok kept ->
  exists W, whiten_nt_spec C thresh = Ok W /\
            shape W = [nrows V; length kept].
Proof.
  intros He Hk. unfold whiten_nt_spec. rewrite He. cbn [bind]. rewrite Hk.
  cbn [bind]. unfold np_dot.
  replace (ncols (take_cols V kept) =? nrows (np_diag _)) with true.
  - eexists. split; [reflexivity|]. unfold np_diag, vec. cbn [data].
    rewrite !length_map. reflexivity.
  - symmetry. apply Nat.eqb_eq. unfold np_diag, vec, take_cols. cbn [data].
    rewrite nrows_build2, ncols_build2, !length_map. reflexivity.
Qed.

End Whitening.

Section Claims_whitening.

Context {F : Type} {FO : Float64 F} {CO : Collaborators (F := F)}.

(** C4. For a matrix [C] that eigh decomposes into [n > 0] ordered
    eigenvalues [d] and eigenvectors [V], whiten_nt sorts the eigenvalues
    in descending order (carrying their eigenvectors along), takes the
    largest as the reference, keeps the directions whose ratio to it
    exceeds [thresh] so that every direction with ratio [<= thresh] is
    dropped, raises the retained eigenvalues to the power [1 - thresh] and
    returns [V @ diag(sqrt(1/d))] over the retained directions: an array of
    shape (n, number retained). The default threshold is 1e-12. *)
Theorem whiten_nt_rank_reducing :
  forall (C d V : ndarray) (thresh : F) (n : nat),
    eigh C = Ok (d, V) ->
    shape V = [n; n] -> length (data d) = n -> 0 < n ->
    ordered_on (data d) ->
    le_excludes_gt (data d) thresh ->
    exists (mx : F) (kept : list nat) (W : ndarray),
      Permutation (descending d) (seq 0 n) /\
      StronglySorted (fun i j => fltb (ev d i) (ev d j) = false)
                     (descending d) /\
      np_max (take1 d (descending d)) = Ok mx /\
      Forall (fun x => fltb mx x = false) (data d) /\
      kept = filter (fun i => fgtb (fdiv (ev d i) mx) thresh) (descending d) /\
      (forall i, i < n -> fleb (fdiv (ev d i) mx) thresh = true -> ~ In i kept) /\
      whiten_nt C (Some thresh) = Ok W /\
      np_dot (take_cols V kept)
        (np_diag (vec (map (fun i => fsqrt (fdiv f1 (fpow (ev d i) (fsub f1 thresh))))
                           kept))) = Ok W /\
      shape W = [n; length kept] /\
      length kept <= n /\
      whiten_nt C None = whiten_nt C (Some f1e12).
Proof.
  intros C d V thresh n He HV Hd Hn Hord Hle.
  assert (Hne : data d <> []).
  { intros E. rewrite E in Hd. simpl in Hd. lia. }
  destruct (np_max_sorted_leading d Hne Hord) as [Hmx Hall].
  set (mx := ev d (hd 0 (descending d))) in *.
  assert (Hmxin : In mx (data d)).
  { destruct (np_max_sorted_ok d Hne) as (mx' & Hmx' & Hin).
    rewrite Hmx in Hmx'. inversion Hmx' as [E]. rewrite E. exact Hin. }
  set (kept := filter (fun i => fgtb (fdiv (ev d i) mx) thresh) (descending d)).
  assert (Hk : retained d thresh = Ok kept).
  { unfold retained. rewrite Hmx. reflexivity. }
  destruct (whiten_nt_spec_shape C thresh He Hk) as (W & HW & Hsh).
  exists mx, kept, W.
  split; [rewrite <- Hd; apply descending_perm|].
  split; [now apply descending_sorted|].
  split; [exact Hmx|].
  split; [exact Hall|].
  split; [reflexivity|].
  split.
  { intros i Hi Hle' Hin. apply (retained_In d thresh Hmx Hk) in Hin.
    destruct Hin as [_ Hgt].
    rewrite (Hle (ev d i) mx) in Hgt; [discriminate| |exact Hmxin|exact Hle'].
    apply ev_In. lia. }
  split; [rewrite whiten_nt_refines; exact HW|].
  split.
  { unfold whiten_nt_spec in HW. rewrite He in HW. cbn [bind] in HW.
    rewrite Hk in HW. cbn [bind] in HW. rewrite <- HW. now rewrite !map_map. }
  split.
  { rewrite Hsh. unfold nrows. rewrite HV. reflexivity. }
  split; [rewrite <- Hd; exact (retained_length d thresh Hk)|].
  reflexivity.
Qed.

End Claims_whitening.

Section Rank.

Context {F : Type} {FO : Float64 F} {CO : Collaborators (F := F)}.

(** ** The number of components *)

Lemma pybound_le (m : Z) (n : nat) : pybound m n <= n.
Proof. unfold pybound. destruct (Z.ltb_spec m 0); lia. Qed.

Lemma pybound_valid (m : Z) (n : nat) :
  (0 <= m <= Z.of_nat n)%Z -> pybound m n = Z.to_nat m.
Proof.
  intros H. unfold pybound. destruct (Z.ltb_spec m 0); lia.
Qed.

Lemma shape_upper_left (n : nat) (dat : list F) (m : Z) :
  shape (upper_left (mkarr [n; n] dat) m) = [pybound m n; pybound m n].
Proof.
  unfold upper_left, slice2, nrows, ncols. simpl.
  pose proof (pybound_le m n).
  replace (Nat.min (pybound m n) n - 0) with (pybound m n) by lia.
  reflexivity.
Qed.

Lemma shape_lower_right (n : nat) (dat : list F) (m : Z) :
  shape (lower_right (mkarr [n; n] dat) m) = [n - pybound m n; n - pybound m n].
Proof.
  unfold lower_right, slice2, nrows, ncols. simpl.
  pose proof (pybound_le m n).
  replace (Nat.min n n - Nat.min (pybound m n) n) with (n - pybound m n) by lia.
  reflexivity.
Qed.

(** whiten_nt returns as soon as eigh does, on a matrix with at least one
    row; it has a column for each retained direction. *)
Lemma whiten_nt_shape (Cb d V : ndarray) (thresh : F) :
  eigh_shapes -> eigh Cb = Ok (d, V) -> 0 < nrows Cb ->
  exists kept W,
    retained d thresh = Ok kept /\
    whiten_nt Cb (Some thresh) = Ok W /\
    shape W = [nrows Cb; length kept] /\
    length kept <= nrows Cb.
Proof.
  intros Hes He Hpos. destruct (Hes _ _ _ He) as [HV Hd].
  assert (Hne : data d <> []).
  { intros E. rewrite E in Hd. simpl in Hd. lia. }
  destruct (np_max_sorted_ok d Hne) as (mx & Hmx & _).
  assert (Hk : retained d thresh
               = Ok (filter (fun i => fgtb (fdiv (ev d i) mx) thresh)
                            (descending d))).
  { unfold retained. rewrite Hmx. reflexivity. }
  destruct (whiten_nt_spec_shape Cb thresh He Hk) as (W & HW & Hsh).
  eexists _, W. split; [exact Hk|].
  split; [rewrite whiten_nt_refines; exact HW|].
  split.
  - rewrite Hsh. unfold nrows at 1. rewrite HV. reflexivity.
  - rewrite <- Hd. exact (retained_length d thresh Hk).
Qed.

Lemma retained_all (d : ndarray) (thresh : F) (kept : list nat) :
  removes_none d thresh -> retained d thresh = Ok kept ->
  length kept = length (data d).
Proof.
  unfold removes_none, retained. intros Hall Hk.
  destruct (np_max _) as [mx|e]; simpl in Hk; [|discriminate].
  inversion Hk; subst. specialize (Hall mx eq_refl).
  rewrite forallb_filter_id; [apply descending_length|].
  apply forallb_forall. intros i Hi. rewrite Forall_forall in Hall.
  apply Hall. apply ev_In. now apply descending_lt.
Qed.

(** The leading direction survives the threshold when its eigenvalue is
    positive and [thresh < 1]. *)
Lemma retained_leading (d : ndarray) (thresh : F) :
  data d <> [] -> ordered_on (data d) -> div_self_on (data d) ->
  fltb f0 (leading d) = true -> fltb thresh f1 = true ->
  exists kept,
    retained d thresh = Ok kept /\
    hd_error kept = hd_error (descending d) /\
    1 <= length kept.
Proof.
  intros Hne Hord Hdiv Hpos Ht.
  destruct (np_max_sorted_leading d Hne Hord) as [Hmx _].
  fold (leading d) in Hmx.
  unfold retained. rewrite Hmx. cbn [bind]. eexists. split; [reflexivity|].
  assert (Hin : In (leading d) (data d)).
  { destruct (np_max_sorted_ok d Hne) as (mx' & Hmx' & Hin).
    rewrite Hmx in Hmx'. inversion Hmx' as [E]. rewrite E. exact Hin. }
  unfold leading in *. pose proof (descending_length d) as Hlen.
  destruct (descending d) as [|i0 tl]; simpl in *.
  - exfalso. apply Hne. apply length_zero_iff_nil. now rewrite <- Hlen.
  - unfold fgtb. rewrite (Hdiv _ Hin Hpos), Ht. simpl. split; [reflexivity|lia].
Qed.

Lemma shape_slice2 (V : ndarray) (r0 r1 c0 c1 : nat) :
  shape (slice2 V r0 r1 c0 c1)
  = [Nat.min r1 (nrows V) - Nat.min r0 (nrows V);
     Nat.min c1 (ncols V) - Nat.min c0 (ncols V)].
Proof. reflexivity. Qed.

Lemma np_dot_ok (a b : ndarray) :
  ncols a = nrows b ->
  exists c, np_dot a b = Ok c /\ shape c = [nrows a; ncols b].
Proof.
  intros H. unfold np_dot. rewrite H, Nat.eqb_refl.
  eexists. split; reflexivity.
Qed.

Lemma nrows_shape (a : @ndarray F) (r c : nat) : shape a = [r; c] -> nrows a = r.
Proof. intros H. unfold nrows. now rewrite H. Qed.

Lemma ncols_shape (a : @ndarray F) (r c : nat) : shape a = [r; c] -> ncols a = c.
Proof. intros H. unfold ncols. now rewrite H. Qed.

(** The shapes along the 2D core, from the shapes of the two whitening
    transforms: the core returns as soon as pca does, and it fails only
    where pca fails. *)
Lemma cca_core_shapes (n : nat) (dat : list F) (m : Z) (t : F)
    (Cxw Cyw : ndarray) (a b rx ry : nat) :
  let C := mkarr [n; n] dat in
  pca_shapes ->
  whiten_nt (upper_left C m) (Some t) = Ok Cxw -> shape Cxw = [a; rx] ->
  whiten_nt (lower_right C m) (Some t) = Ok Cyw -> shape Cyw = [b; ry] ->
  a + b = n ->
  exists C',
    whitened_cov Cxw Cyw C = Ok C' /\
    shape C' = [rx + ry; rx + ry] /\
    (forall e, pca C' = Raise e -> cca_core C m t = Raise e) /\
    (forall V d, pca C' = Ok (V, d) ->
       exists A B R,
         cca_core C m t = Ok (A, B, R) /\
         shape A = [a; Nat.min rx ry] /\
         shape B = [b; Nat.min rx ry] /\
         shape R = [Nat.min rx ry] /\
         length (data R) = Nat.min rx ry).
Proof.
  intros C Hpca Hx Hsx Hy Hsy Hab.
  pose proof (nrows_shape _ Hsx) as Hrx. pose proof (ncols_shape _ Hsx) as Hcx.
  pose proof (nrows_shape _ Hsy) as Hry. pose proof (ncols_shape _ Hsy) as Hcy.
  rewrite cca_core_refines. unfold cca_core_spec. rewrite Hx, Hy. cbn [bind].
  unfold whitened_cov.
  destruct (@np_dot_ok (transpose (block_diag Cxw Cyw)) C) as (WtC & HWtC & HsW).
  { unfold transpose, block_diag.
    repeat (rewrite ncols_build2 || rewrite nrows_build2).
    rewrite Hrx, Hry. reflexivity || exact Hab. }
  rewrite HWtC. cbn [bind].
  destruct (@np_dot_ok WtC (block_diag Cxw Cyw)) as (C' & HC' & HsC).
  { rewrite (ncols_shape _ HsW). unfold block_diag. rewrite nrows_build2.
    rewrite Hrx, Hry. symmetry. exact Hab. }
  rewrite HC'. cbn [bind].
  assert (HsC' : shape C' = [rx + ry; rx + ry]).
  { rewrite HsC, (nrows_shape _ HsW). unfold transpose, block_diag.
    repeat (rewrite ncols_build2 || rewrite nrows_build2).
    rewrite Hcx, Hcy. reflexivity. }
  exists C'. split; [reflexivity|]. split; [exact HsC'|]. split.
  { intros e He. rewrite He. reflexivity. }
  intros V d HVd. rewrite HVd. cbn [bind].
  destruct (Hpca _ _ _ HVd) as [HsV Hld].
  rewrite (nrows_shape _ HsC') in HsV, Hld.
  pose proof (nrows_shape _ HsV) as HrV. pose proof (ncols_shape _ HsV) as HcV.
  rewrite Hcx, Hcy.
  destruct (@np_dot_ok Cxw (slice2 V 0 rx 0 (Nat.min rx ry))) as (A & HA & HsA).
  { rewrite Hcx. unfold nrows at 1. rewrite shape_slice2. simpl. lia. }
  rewrite HA. cbn [bind].
  destruct (@np_dot_ok Cyw (slice2 V rx (nrows V) 0 (Nat.min rx ry)))
    as (B & HB & HsB).
  { rewrite Hcy. unfold nrows at 1. rewrite shape_slice2. simpl. lia. }
  rewrite HB. cbn [bind].
  eexists _, _, _. split; [reflexivity|].
  assert (HN : length (firstn (Nat.min rx ry) (data d)) = Nat.min rx ry).
  { rewrite length_firstn. lia. }
  unfold scale, amap, head1, vec. cbn [shape data].
  rewrite length_map, HN, HsA, HsB, Hrx, Hry.
  unfold ncols. rewrite !shape_slice2. simpl.
  rewrite HcV.
  replace (Nat.min (Nat.min rx ry) (rx + ry) - 0) with (Nat.min rx ry) by lia.
  repeat split; reflexivity.
Qed.

End Rank.

Section Pages.

Context {F : Type} {FO : Float64 F} {CO : Collaborators (F := F)}.

(** ** The stack of pages (lines 84-97) *)

Lemma foldM_invariant {A S : Type} (P : S -> Prop) (body : S -> A -> result S)
    (l : list A) (s0 s : S) :
  (forall s a s', body s a = Ok s' -> P s -> P s') ->
  P s0 -> foldM body l s0 = Ok s -> P s.
Proof.
  intros Hstep. revert s0. induction l as [|a l IH]; intros s0 H0 Hf; simpl in Hf.
  - inversion Hf; subst. exact H0.
  - destruct (body s0 a) as [s1|e] eqn:E; simpl in Hf; [|discriminate].
    apply (IH s1); [|exact Hf]. now apply (Hstep s0 a).
Qed.

Lemma store_page_shaped (a b c p : nat) (acc acc' res : triple) (k : nat) :
  store_page acc k res = Ok acc' -> shaped a b c p acc -> shaped a b c p acc'.
Proof.
  destruct acc as [[A B] R], res as [[AA BB] RR]. unfold store_page, shaped.
  intros H (HA & HB & HR).
  destruct (shape_at AA 0) as [a0|e]; cbn [bind] in H; [|discriminate].
  destruct (shape_at AA 1) as [a1|e]; cbn [bind] in H; [|discriminate].
  unfold setitem3_page at 1 in H.
  destruct (k <? npages A); [|discriminate].
  destruct (broadcast2 AA _ _) as [g|e]; cbn [bind] in H; [|discriminate].
  destruct (shape_at BB 0) as [b0|e]; cbn [bind] in H; [|discriminate].
  destruct (shape_at BB 1) as [b1|e]; cbn [bind] in H; [|discriminate].
  unfold setitem3_page at 1 in H.
  destruct (k <? npages B); [|discriminate].
  destruct (broadcast2 BB _ _) as [g'|e]; cbn [bind] in H; [|discriminate].
  unfold setitem2_col in H.
  destruct (k <? ncols R); [|discriminate].
  destruct (broadcast1 RR _) as [h|e]; cbn [bind] in H; [|discriminate].
  inversion H; subst. unfold build3, build2, build, nrows, ncols, npages.
  cbn [shape]. rewrite HA, HB, HR. repeat split.
Qed.

Lemma np_zeros_ok (sh : list Z) :
  Forall (fun z => (0 <= z)%Z) sh ->
  np_zeros sh = Ok (build (map Z.to_nat sh) (fun _ => f0)).
Proof.
  intros H. unfold np_zeros.
  replace (forallb _ sh) with true; [reflexivity|].
  symmetry. apply forallb_forall. rewrite Forall_forall in H.
  intros z Hz. apply Z.leb_le. now apply H.
Qed.

(** Whatever the pages return, the arrays that leave the loop have the
    shapes they were allocated with: [N = min(m, n_chans - m)] columns. *)
Lemma cca_pages_shapes (self : ndarray -> result triple) (n p : nat)
    (dat : list F) (m : Z) (A B R : ndarray) :
  (0 <= m <= Z.of_nat n)%Z ->
  cca_pages self (mkarr [n; n; p] dat) m = Ok (A, B, R) ->
  let N := Nat.min (Z.to_nat m) (n - Z.to_nat m) in
  shape A = [Z.to_nat m; N; p] /\
  shape B = [n - Z.to_nat m; N; p] /\
  shape R = [N; p].
Proof.
  intros Hm H N. unfold cca_pages in H.
  change (nrows (mkarr [n; n; p] dat)) with n in H.
  change (npages (mkarr [n; n; p] dat)) with p in H.
  rewrite !np_zeros_ok in H by (repeat constructor; lia).
  cbn [bind] in H.
  apply (foldM_invariant (shaped (Z.to_nat m) (n - Z.to_nat m) N p)) in H.
  - exact H.
  - intros s k s' Hb Hs.
    destruct (self (page _ k)) as [res|e]; cbn [bind] in Hb; [|discriminate].
    eapply store_page_shaped; eassumption.
  - unfold shaped, build. cbn [shape map]. subst N.
    rewrite !Nat2Z.id.
    replace (Z.to_nat (Z.min m (Z.of_nat n - m)))
      with (Nat.min (Z.to_nat m) (n - Z.to_nat m)) by lia.
    replace (Z.to_nat (Z.of_nat n - m)) with (n - Z.to_nat m) by lia.
    repeat split.
Qed.

End Pages.

Section Claims_rank.

Context {F : Type} {FO : Float64 F} {CO : Collaborators (F := F)}.

Lemma nt_cca_3d (n p : nat) (dat : list F) (m : Z) (thresh : option F) :
  let C := mkarr [n; n; p] dat in
  nt_cca None None None (Some C) (Some m) thresh
  = cca_pages
      (fun Ck => nt_cca_rec 2 None None None (Some Ck) (Some m)
                   (Some (match thresh with Some t => t | None => f1e12 end)))
      C m.
Proof.
  intros C. unfold nt_cca. simpl. rewrite Nat.eqb_refl. reflexivity.
Qed.

(** The two whitening transforms of a valid split, with their shapes. *)
Lemma whiten_blocks (n : nat) (dat : list F) (m : Z) (t : F)
    (dx Vx dy Vy : ndarray) :
  let C := mkarr [n; n] dat in
  (0 < m < Z.of_nat n)%Z -> eigh_shapes ->
  eigh (upper_left C m) = Ok (dx, Vx) ->
  eigh (lower_right C m) = Ok (dy, Vy) ->
  exists kx ky Cxw Cyw,
    retained dx t = Ok kx /\ retained dy t = Ok ky /\
    whiten_nt (upper_left C m) (Some t) = Ok Cxw /\
    whiten_nt (lower_right C m) (Some t) = Ok Cyw /\
    shape Cxw = [Z.to_nat m; length kx] /\
    shape Cyw = [n - Z.to_nat m; length ky] /\
    length (data dx) = Z.to_nat m /\ length (data dy) = n - Z.to_nat m /\
    length kx <= Z.to_nat m /\ length ky <= n - Z.to_nat m.
Proof.
  intros C Hm Hes Hex Hey.
  assert (Hux : nrows (upper_left C m) = Z.to_nat m).
  { unfold nrows. subst C. rewrite shape_upper_left. simpl.
    apply pybound_valid. lia. }
  assert (Hly : nrows (lower_right C m) = n - Z.to_nat m).
  { unfold nrows. subst C. rewrite shape_lower_right. simpl.
    rewrite pybound_valid by lia. reflexivity. }
  destruct (@whiten_nt_shape F FO CO _ _ _ t Hes Hex) as (kx & Cxw & Hkx & Hwx & Hsx & Hlx);
    [lia|].
  destruct (@whiten_nt_shape F FO CO _ _ _ t Hes Hey) as (ky & Cyw & Hky & Hwy & Hsy & Hly');
    [lia|].
  destruct (Hes _ _ _ Hex) as [_ Hdx]. destruct (Hes _ _ _ Hey) as [_ Hdy].
  exists kx, ky, Cxw, Cyw. rewrite Hux in *. rewrite Hly in *.
  repeat split; assumption.
Qed.

(** C6. For a valid input (a square covariance of order [n] and a split
    [0 < m < n], collaborators returning arrays of the shapes they
    document), the number [N] of canonical components -- the number of
    columns of A and B and the length of R -- is the smaller of the numbers
    of columns of the two whitening transforms; it is at most
    [min(m, n - m)] and equal to it when thresholding removes no component
    of either block. The call returns as soon as pca does. For a stack of
    pages the arrays returned have [min(m, n - m)] as that dimension. *)
Theorem nt_cca_rank_bound :
  forall (n : nat) (dat : list F) (m : Z) (thresh : option F)
         (dx Vx dy Vy : ndarray),
    let C := mkarr [n; n] dat in
    let t := match thresh with Some t => t | None => f1e12 end in
    (0 < m < Z.of_nat n)%Z ->
    eigh_shapes -> pca_shapes ->
    eigh (upper_left C m) = Ok (dx, Vx) ->
    eigh (lower_right C m) = Ok (dy, Vy) ->
    (exists (N : nat) (Cxw Cyw C' : ndarray),
       whiten_nt (upper_left C m) (Some t) = Ok Cxw /\
       whiten_nt (lower_right C m) (Some t) = Ok Cyw /\
       N = Nat.min (ncols Cxw) (ncols Cyw) /\
       whitened_cov Cxw Cyw C = Ok C' /\
       (Z.of_nat N <= Z.min m (Z.of_nat n - m))%Z /\
       (removes_none dx t -> removes_none dy t ->
        Z.of_nat N = Z.min m (Z.of_nat n - m)) /\
       (forall e, pca C' = Raise e ->
          nt_cca None None None (Some C) (Some m) thresh = Raise e) /\
       (forall V d, pca C' = Ok (V, d) ->
          exists A B R,
            nt_cca None None None (Some C) (Some m) thresh = Ok (A, B, R) /\
            shape A = [Z.to_nat m; N] /\
            shape B = [n - Z.to_nat m; N] /\
            shape R = [N]))
    /\
    (forall (p : nat) (dat3 : list F) (A B R : ndarray),
       nt_cca None None None (Some (mkarr [n; n; p] dat3)) (Some m) thresh
       = Ok (A, B, R) ->
       let N := Z.to_nat (Z.min m (Z.of_nat n - m)) in
       shape A = [Z.to_nat m; N; p] /\
       shape B = [n - Z.to_nat m; N; p] /\
       shape R = [N; p]).
Proof.
  intros n dat m thresh dx Vx dy Vy C t Hm Hes Hps Hex Hey. split.
  - destruct (@whiten_blocks n dat m t dx Vx dy Vy Hm Hes Hex Hey)
      as (kx & ky & Cxw & Cyw & Hkx & Hky & Hwx & Hwy & Hsx & Hsy
          & Hdx & Hdy & Hlx & Hly).
    destruct (@cca_core_shapes F FO CO n dat m t Cxw Cyw _ _ _ _ Hps Hwx Hsx Hwy Hsy)
      as (C' & HC' & _ & Hfail & Hok); [lia|].
    exists (Nat.min (length kx) (length ky)), Cxw, Cyw, C'.
    rewrite (ncols_shape _ Hsx), (ncols_shape _ Hsy).
    split; [exact Hwx|]. split; [exact Hwy|]. split; [reflexivity|].
    split; [exact HC'|]. split; [lia|]. split.
    { intros Hnx Hny.
      rewrite (@retained_all F FO dx t kx Hnx Hkx), (@retained_all F FO dy t ky Hny Hky), Hdx, Hdy. lia. }
    split.
    { intros e He. subst C. rewrite nt_cca_2d. now apply Hfail. }
    intros V d HVd. destruct (Hok V d HVd) as (A & B & R & Hc & HA & HB & HR & _).
    exists A, B, R. subst C. rewrite nt_cca_2d. repeat split; assumption.
  - intros p dat3 A B R H N. rewrite nt_cca_3d in H.
    apply cca_pages_shapes in H; [|lia]. cbv zeta in H. subst N.
    replace (Z.to_nat (Z.min m (Z.of_nat n - m)))
      with (Nat.min (Z.to_nat m) (n - Z.to_nat m)) by lia.
    exact H.
Qed.

End Claims_rank.

Section Claims_leading.

Context {F : Type} {FO : Float64 F} {CO : Collaborators (F := F)}.

(** whiten_nt on any matrix whose leading eigenvalue is positive, with
    [thresh < 1]: the leading direction is retained and heads the columns
    of the transform. *)
Lemma whiten_nt_keeps_leading (M d V : ndarray) (t : F) :
  eigh M = Ok (d, V) -> data d <> [] ->
  ordered_on (data d) -> div_self_on (data d) ->
  fltb f0 (leading d) = true -> fltb t f1 = true ->
  exists kept W,
    whiten_nt M (Some t) = Ok W /\ retains_leading d V t kept W.
Proof.
  intros He Hne Hord Hdiv Hpos Ht.
  destruct (@np_max_sorted_leading F FO d Hne Hord) as [Hmx _].
  fold (leading d) in Hmx.
  destruct (@retained_leading F FO d t Hne Hord Hdiv Hpos Ht)
    as (kept & Hk & Hhd & Hlen).
  destruct (@whiten_nt_spec_shape F FO CO M d V t kept He Hk) as (W & HW & Hsh).
  assert (Hdesc : descending d <> []).
  { intros E. apply Hne. apply length_zero_iff_nil.
    rewrite <- descending_length, E. reflexivity. }
  assert (Hin : In (leading d) (data d)).
  { unfold leading. apply ev_In. apply In_descending.
    destruct (descending d); [congruence|now left]. }
  assert (Hone : fdiv (leading d) (leading d) = f1) by now apply Hdiv.
  exists kept, W. split; [rewrite whiten_nt_refines; exact HW|].
  unfold retains_leading.
  split; [exact Hmx|]. split; [exact Hone|].
  split; [rewrite Hone; exact Ht|]. split; [exact Hk|].
  split; [rewrite Hhd; destruct (descending d); [congruence|reflexivity]|].
  split.
  { unfold whiten_nt_spec in HW. rewrite He in HW. cbn [bind] in HW.
    rewrite Hk in HW. cbn [bind] in HW. rewrite <- HW. now rewrite !map_map. }
  split; [exact Hsh|exact Hlen].
Qed.

(** C10, amended. With [thresh < 1], whiten_nt of any input whose largest
    eigenvalue is positive retains the leading eigen-direction: its ratio
    to the maximum is 1, which exceeds [thresh], its position heads the
    retained ones and the transform is made of the retained eigenvectors,
    so it has at least one column. On a valid split of a square
    covariance whose two diagonal blocks [C[:m, :m]] and [C[m:, m:]] each
    have a positive largest eigenvalue, the 2D core then returns, as soon
    as pca does, at least one canonical component: A and B have
    [N >= 1] columns, N the smaller number of retained directions, and R
    has [N] entries, so it is not empty. A positive largest eigenvalue of
    [C] itself does not make the blocks so. *)
Theorem nt_cca_at_least_one_component :
  forall (n : nat) (dat : list F) (m : Z) (thresh : option F)
         (dx Vx dy Vy : ndarray),
    let C := mkarr [n; n] dat in
    let t := match thresh with Some t => t | None => f1e12 end in
    (0 < m < Z.of_nat n)%Z ->
    eigh_shapes -> pca_shapes ->
    eigh (upper_left C m) = Ok (dx, Vx) ->
    eigh (lower_right C m) = Ok (dy, Vy) ->
    ordered_on (data dx) -> ordered_on (data dy) ->
    div_self_on (data dx) -> div_self_on (data dy) ->
    fltb f0 (leading dx) = true -> fltb f0 (leading dy) = true ->
    fltb t f1 = true ->
    (forall M d V,
       eigh M = Ok (d, V) -> data d <> [] ->
       ordered_on (data d) -> div_self_on (data d) ->
       fltb f0 (leading d) = true ->
       exists kept W,
         whiten_nt M (Some t) = Ok W /\ retains_leading d V t kept W /\
         1 <= ncols W) /\
    exists (kx ky : list nat) (Cxw Cyw C' : ndarray),
      whiten_nt (upper_left C m) (Some t) = Ok Cxw /\
      retains_leading dx Vx t kx Cxw /\
      shape Cxw = [Z.to_nat m; length kx] /\
      whiten_nt (lower_right C m) (Some t) = Ok Cyw /\
      retains_leading dy Vy t ky Cyw /\
      shape Cyw = [n - Z.to_nat m; length ky] /\
      whitened_cov Cxw Cyw C = Ok C' /\
      (forall e, pca C' = Raise e ->
         nt_cca None None None (Some C) (Some m) thresh = Raise e) /\
      (forall V d, pca C' = Ok (V, d) ->
         exists A B R,
           nt_cca None None None (Some C) (Some m) thresh = Ok (A, B, R) /\
           1 <= Nat.min (length kx) (length ky) /\
           shape A = [Z.to_nat m; Nat.min (length kx) (length ky)] /\
           shape B = [n - Z.to_nat m; Nat.min (length kx) (length ky)] /\
           shape R = [Nat.min (length kx) (length ky)] /\
           1 <= ncols A /\ ncols B = ncols A /\ data R <> []).
Proof.
  intros n dat m thresh dx Vx dy Vy C t Hm Hes Hps Hex Hey
         Hox Hoy Hvx Hvy Hpx Hpy Ht.
  split.
  { intros M d V He Hne Hord Hdiv Hpos.
    destruct (@whiten_nt_keeps_leading M d V t He Hne Hord Hdiv Hpos Ht)
      as (kept & W & HW & Hr).
    exists kept, W. split; [exact HW|]. split; [exact Hr|].
    destruct Hr as (_ & _ & _ & _ & _ & _ & Hsh & Hlen).
    now rewrite (ncols_shape _ Hsh). }
  destruct (@whiten_blocks F FO CO n dat m t dx Vx dy Vy Hm Hes Hex Hey)
    as (kx & ky & Cxw & Cyw & Hkx & Hky & Hwx & Hwy & Hsx & Hsy
        & Hdx & Hdy & Hlx & Hly).
  assert (Hnx : data dx <> []).
  { intros E. rewrite E in Hdx. simpl in Hdx. lia. }
  assert (Hny : data dy <> []).
  { intros E. rewrite E in Hdy. simpl in Hdy. lia. }
  destruct (@whiten_nt_keeps_leading _ dx Vx t Hex Hnx Hox Hvx Hpx Ht)
    as (kx' & Cxw' & Hwx' & Hrx).
  destruct (@whiten_nt_keeps_leading _ dy Vy t Hey Hny Hoy Hvy Hpy Ht)
    as (ky' & Cyw' & Hwy' & Hry).
  fold C in Hwx, Hwy. rewrite Hwx in Hwx'. inversion Hwx'; subst Cxw'.
  rewrite Hwy in Hwy'. inversion Hwy'; subst Cyw'.
  assert (Ekx : kx' = kx).
  { destruct Hrx as (_ & _ & _ & Hk & _). rewrite Hkx in Hk. now inversion Hk. }
  assert (Eky : ky' = ky).
  { destruct Hry as (_ & _ & _ & Hk & _). rewrite Hky in Hk. now inversion Hk. }
  subst kx' ky'.
  assert (H1x : 1 <= length kx) by apply Hrx.
  assert (H1y : 1 <= length ky) by apply Hry.
  destruct (@cca_core_shapes F FO CO n dat m t Cxw Cyw _ _ _ _ Hps Hwx Hsx Hwy Hsy)
    as (C' & HC' & _ & Hfail & Hok); [lia|].
  exists kx, ky, Cxw, Cyw, C'.
  split; [exact Hwx|]. split; [exact Hrx|]. split; [exact Hsx|].
  split; [exact Hwy|]. split; [exact Hry|]. split; [exact Hsy|].
  split; [exact HC'|]. split.
  { intros e He. subst C. rewrite nt_cca_2d. now apply Hfail. }
  intros V d HVd. destruct (Hok V d HVd) as (A & B & R & Hc & HA & HB & HR & HlR).
  exists A, B, R. subst C. rewrite nt_cca_2d.
  rewrite (ncols_shape _ HA), (ncols_shape _ HB).
  split; [exact Hc|]. split; [lia|]. split; [exact HA|]. split; [exact HB|].
  split; [exact HR|]. split; [lia|]. split; [reflexivity|].
  intros E. rewrite E in HlR. simpl in HlR. lia.
Qed.

End Claims_leading.

Section Fuel.

Context {F : Type} {FO : Float64 F} {CO : Collaborators (F := F)}.

(** ** The depth of the recursion *)

(** A page is two-dimensional: the call on it does not call again. *)
Lemma nt_cca_rec_page (fuel : nat) (C : ndarray) (k : nat) (m : Z) (t : F) :
  nt_cca_rec (S fuel) None None None (Some (page C k)) (Some m) (Some t)
  = nt_cca_rec 1 None None None (Some (page C k)) (Some m) (Some t).
Proof. reflexivity. Qed.

(** Three levels are all the code ever needs: with more fuel nt_cca
    computes the same, so the bound never shows. *)
Lemma nt_cca_fuel_enough (fuel : nat) (X Y lags : option pyobj)
    (C : option ndarray) (m : option Z) (thresh : option F) :
  nt_cca_rec (3 + fuel) X Y lags C m thresh = nt_cca X Y lags C m thresh.
Proof.
  (* the calls on the pages reduce to the 2D core at any depth *)
  unfold nt_cca. destruct X as [x|], Y as [y|]; reflexivity.
Qed.

End Fuel.

Section Whitening_returns.

Context {F : Type} {FO : Float64 F} {CO : Collaborators (F := F)}.

(** ** The whitening functions that return *)

(** whiten returns as soon as eigh does. *)
Lemma whiten_returns (C d V : ndarray) (fudge : option F) :
  eigh_shapes -> eigh C = Ok (d, V) ->
  exists W, whiten C fudge = Ok W /\ shape W = [nrows C; nrows C].
Proof.
  intros Hes He. destruct (Hes _ _ _ He) as [HV Hd].
  unfold whiten. rewrite He. cbn [bind].
  set (D := np_diag _).
  assert (HD : shape D = [nrows C; nrows C]).
  { unfold D, np_diag, amap. cbn [data shape build2 build].
    now rewrite length_map, Hd. }
  destruct (@np_dot_ok F FO V D) as (VD & HVD & HsVD).
  { now rewrite (ncols_shape _ HV), (nrows_shape _ HD). }
  rewrite HVD. cbn [bind].
  destruct (@np_dot_ok F FO VD (transpose V)) as (W & HW & HsW).
  { rewrite (ncols_shape _ HsVD), (ncols_shape _ HD). unfold transpose.
    now rewrite nrows_build2, (ncols_shape _ HV). }
  exists W. split; [exact HW|].
  rewrite HsW, (nrows_shape _ HsVD), (nrows_shape _ HV). unfold transpose.
  now rewrite ncols_build2, (nrows_shape _ HV).
Qed.

(** whiten_svd returns as soon as the decomposition does. *)
Lemma whiten_svd_returns (X U Sv Vt : ndarray) :
  scipy_svd_shapes -> scipy_svd X = Ok (U, Sv, Vt) ->
  exists W, whiten_svd X = Ok W /\ shape W = [nrows X; ncols X].
Proof.
  intros Hss Hs. destruct (Hss _ _ _ _ Hs) as (k & HU & HVt).
  unfold whiten_svd. rewrite Hs. cbn [bind].
  destruct (@np_dot_ok F FO U Vt) as (W & HW & HsW).
  { now rewrite (ncols_shape _ HU), (nrows_shape _ HVt). }
  exists W. split; [exact HW|].
  now rewrite HsW, (nrows_shape _ HU), (ncols_shape _ HVt).
Qed.

(** whiten_zca returns too, once it is given a threshold, on a matrix
    with no more rows than columns. *)
Lemma whiten_zca_returns (C U Sv V : ndarray) (thresh : F) (r c : nat) :
  numpy_svd_shapes -> shape C = [r; c] -> r <= c ->
  numpy_svd C = Ok (U, Sv, V) ->
  exists W, whiten_zca C (Some thresh) = Ok W /\ shape W = [r; r].
Proof.
  intros Hss HC Hrc Hs. destruct (Hss _ _ _ _ _ _ HC Hs) as (HU & HS & _).
  rewrite Nat.min_l in HS by exact Hrc.
  unfold whiten_zca. rewrite Hs. cbn [bind add_scalar].
  set (D := np_diag _).
  assert (HD : shape D = [r; r]).
  { unfold D, np_diag, amap. cbn [data shape build2 build].
    now rewrite !length_map, HS. }
  destruct (@np_dot_ok F FO U D) as (UD & HUD & HsUD).
  { now rewrite (ncols_shape _ HU), (nrows_shape _ HD). }
  rewrite HUD. cbn [bind].
  destruct (@np_dot_ok F FO UD (transpose U)) as (W & HW & HsW).
  { rewrite (ncols_shape _ HsUD), (ncols_shape _ HD). unfold transpose.
    now rewrite nrows_build2, (ncols_shape _ HU). }
  exists W. split; [exact HW|].
  rewrite HsW, (nrows_shape _ HsUD), (nrows_shape _ HU). unfold transpose.
  now rewrite ncols_build2, (nrows_shape _ HU).
Qed.

(** On a matrix with more rows than columns the product [U @ D] of line
    201 has no meaning: [U] has as many columns as the matrix has rows,
    [D] as many rows as it has columns. *)
Lemma whiten_zca_tall (C U Sv V : ndarray) (thresh : F) (r c : nat) :
  numpy_svd_shapes -> shape C = [r; c] -> c < r ->
  numpy_svd C = Ok (U, Sv, V) ->
  exists msg, whiten_zca C (Some thresh) = Raise (ValueError msg).
Proof.
  intros Hss HC Hrc Hs. destruct (Hss _ _ _ _ _ _ HC Hs) as (HU & HS & _).
  rewrite Nat.min_r in HS by lia.
  unfold whiten_zca. rewrite Hs. cbn [bind add_scalar].
  set (D := np_diag _).
  assert (HD : shape D = [c; c]).
  { unfold D, np_diag, amap. cbn [data shape build2 build].
    now rewrite !length_map, HS. }
  unfold np_dot at 1. rewrite (ncols_shape _ HU), (nrows_shape _ HD).
  destruct (Nat.eqb_spec r c) as [E|_]; [lia|].
  eexists. reflexivity.
Qed.

End Whitening_returns.

(* ------------------------------------------------------------------ *)
(** ** The store: nt_cca writes only to arrays of its own *)

Section Store_facts.

Context {F : Type} {FO : Float64 F} {CO : Collaborators (F := F)}.

#[local] Abbreviation heapF := (@heap F).

Lemma nth_app_plus (h t : heapF) (k : nat) :
  nth (length h + k) (h ++ t) no_array = nth k t no_array.
Proof.
  rewrite app_nth2 by lia. f_equal. lia.
Qed.

Lemma nth_app_here (h t : heapF) :
  nth (length h) (h ++ t) no_array = nth 0 t no_array.
Proof. rewrite <- (Nat.add_0_r (length h)) at 1. apply nth_app_plus. Qed.

Lemma set_nth_app_plus (h t : heapF) (k : nat) (a : ndarray) :
  set_nth (length h + k) a (h ++ t) = h ++ set_nth k a t.
Proof.
  induction h as [|x h IH]; simpl; [reflexivity|]. now rewrite IH.
Qed.

Lemma set_nth_app_here (h t : heapF) (a : ndarray) :
  set_nth (length h) a (h ++ t) = h ++ set_nth 0 a t.
Proof. rewrite <- (Nat.add_0_r (length h)) at 1. apply set_nth_app_plus. Qed.

Lemma content_app (h t : heapF) (r : aref) :
  base r < length h -> content (h ++ t) r = content h r.
Proof. intros H. unfold content. now rewrite app_nth1. Qed.

Lemma agrees_raise (h ext : heapF) (e : exn) :
  agrees h (Raise e, h ++ ext) (Raise e).
Proof. exists ext. split; reflexivity. Qed.

Lemma agrees_raise_nil (h : heapF) (e : exn) : agrees h (Raise e, h) (Raise e).
Proof. exists []. split; [symmetry; apply app_nil_r|reflexivity]. Qed.

(** A run that started after some allocations of the caller. *)
Lemma agrees_extend (h pre : heapF) (run : result refs * heapF)
    (p : result triple) :
  agrees (h ++ pre) run p -> agrees h run p.
Proof.
  intros (ext & Hs & Hr). exists (pre ++ ext).
  rewrite app_assoc. split; [exact Hs|].
  destruct (fst run) as [[[A B] R]|e], p as [[[a b] r]|e']; try exact Hr.
  rewrite length_app in Hr. destruct Hr as (HA & HB & HR & E).
  repeat split; try lia; apply E.
Qed.

(** whiten_nt on the store: one new array, or the exception and no
    change. *)
Lemma whiten_nt_st_run (C : aref) (t : option F) (h : heapF) :
  whiten_nt_st C t h
  = match whiten_nt (content h C) t with
    | Ok W => (Ok (length h), h ++ [W])
    | Raise e => (Raise e, h)
    end.
Proof.
  unfold whiten_nt_st, bindS, read, lift, alloc.
  destruct (whiten_nt (content h C) t); reflexivity.
Qed.

(** The 2D core on the store: against the core without a store. *)
Lemma cca_core_st_agrees (C : aref) (m : Z) (t : F) (h : heapF) :
  base C < length h ->
  agrees h (cca_core_st C m t h) (cca_core (content h C) m t).
Proof.
  intros HC. unfold cca_core_st, cca_core.
  unfold bindS at 1. rewrite whiten_nt_st_run.
  change (content h (sub C (fun c => upper_left c m)))
    with (upper_left (content h C) m).
  destruct (whiten_nt (upper_left (content h C) m) (Some t)) as [cxw|e];
    cbn [bind]; [|apply agrees_raise_nil].
  unfold bindS at 1. rewrite whiten_nt_st_run.
  replace (content (h ++ [cxw]) (sub C (fun c => lower_right c m)))
    with (lower_right (content h C) m)
    by (unfold content, sub; cbn [base window]; now rewrite app_nth1).
  destruct (whiten_nt (lower_right (content h C) m) (Some t)) as [cyw|e];
    cbn [bind]; [|apply (agrees_raise h [cxw])].
  unfold bindS, deref, alloc, update_at, bindS, deref, lift, assign, read, ret.
  rewrite <- !app_assoc. cbn [app].
  rewrite nth_app_here. cbn [nth].
  replace (nth (length (h ++ [cxw])) (h ++ [cxw; cyw]) no_array) with cyw
    by (rewrite length_app, nth_app_plus; reflexivity).
  replace (length (h ++ [cxw; cyw])) with (length h + 2)
    by (rewrite length_app; reflexivity).
  rewrite nth_app_plus. cbn [nth].
  set (W0 := zeros2 (nrows cxw + nrows cyw) (ncols cxw + ncols cyw)).
  destruct (setitem2 W0 0 (nrows cxw) 0 (ncols cxw) cxw) as [W1|e];
    cbn [bind]; [|apply (agrees_raise h [cxw; cyw; W0])].
  rewrite set_nth_app_plus. cbn [set_nth].
  rewrite nth_app_plus. cbn [nth].
  destruct (setitem2 W1 (nrows cxw) (nrows W1) (ncols cxw) (ncols W1) cyw)
    as [W2|e]; cbn [bind]; [|apply (agrees_raise h [cxw; cyw; W1])].
  rewrite set_nth_app_plus. cbn [set_nth].
  rewrite nth_app_plus. cbn [nth].
  rewrite content_app by exact HC.
  destruct (np_dot (transpose W2) (content h C)) as [WtC|e];
    cbn [bind]; [|apply (agrees_raise h [cxw; cyw; W2])].
  destruct (np_dot WtC W2) as [C'|e];
    cbn [bind]; [|apply (agrees_raise h [cxw; cyw; W2])].
  destruct (pca C') as [[V d]|e];
    cbn [bind]; [|apply (agrees_raise h [cxw; cyw; W2])].
  destruct (np_dot cxw _) as [A|e];
    cbn [bind]; [|apply (agrees_raise h [cxw; cyw; W2])].
  destruct (np_dot cyw _) as [B|e];
    cbn [bind]; [|apply (agrees_raise h [cxw; cyw; W2])].
  rewrite <- !app_assoc. cbn [app].
  eexists. split; [reflexivity|]. cbn [fst].
  rewrite !length_app. cbn [length].
  repeat split; try lia; now rewrite nth_app_plus.
Qed.

(** An address past the three output arrays reads in what follows them. *)
Lemma nth_past3 (h J : heapF) (x y z : ndarray) (l : loc) :
  length h + 3 <= l ->
  nth l (h ++ x :: y :: z :: J) no_array = nth (l - (length h + 3)) J no_array.
Proof.
  intros Hl. replace l with (length h + (3 + (l - (length h + 3)))) at 1 by lia.
  rewrite nth_app_plus. reflexivity.
Qed.

(** The body of the loop on the store, with the three output arrays at
    [length h], [length h + 1], [length h + 2] and the page's results
    further on: A, B and R are replaced as the assignments of lines 93-95
    say, and nothing else changes. *)
Lemma store_page_st_run (h J : heapF) (a b r : ndarray) (k : nat)
    (AA BB RR : loc) :
  length h + 3 <= AA -> length h + 3 <= BB -> length h + 3 <= RR ->
  let val := fun l => nth (l - (length h + 3)) J no_array in
  let run := store_page_st (length h, length h + 1, length h + 2) k
               (AA, BB, RR) (h ++ a :: b :: r :: J) in
  exists a' b' r',
    snd run = h ++ a' :: b' :: r' :: J /\
    match store_page (a, b, r) k (val AA, val BB, val RR) with
    | Ok acc' => fst run = Ok tt /\ acc' = (a', b', r')
    | Raise e => fst run = Raise e
    end.
Proof.
  intros HA HB HR val run. subst run.
  unfold store_page_st, store_page.
  unfold bindS, deref, update_at, bindS, deref, lift, assign.
  rewrite (nth_past3 h J a b r HA). fold (val AA).
  destruct (shape_at (val AA) 0) as [a0|e]; cbn [bind];
    [|exists a, b, r; split; reflexivity].
  destruct (shape_at (val AA) 1) as [a1|e]; cbn [bind];
    [|exists a, b, r; split; reflexivity].
  rewrite nth_app_here. cbn [nth].
  destruct (setitem3_page a a0 a1 k (val AA)) as [a'|e]; cbn [bind];
    [|exists a, b, r; split; reflexivity].
  rewrite set_nth_app_here. cbn [set_nth].
  rewrite (nth_past3 h J a' b r HB). fold (val BB).
  destruct (shape_at (val BB) 0) as [b0|e]; cbn [bind];
    [|exists a', b, r; split; reflexivity].
  destruct (shape_at (val BB) 1) as [b1|e]; cbn [bind];
    [|exists a', b, r; split; reflexivity].
  rewrite nth_app_plus. cbn [nth].
  destruct (setitem3_page b b0 b1 k (val BB)) as [b'|e]; cbn [bind];
    [|exists a', b, r; split; reflexivity].
  rewrite set_nth_app_plus. cbn [set_nth].
  rewrite (nth_past3 h J a' b' r HR). fold (val RR).
  rewrite nth_app_plus. cbn [nth].
  destruct (setitem2_col r k (val RR)) as [r'|e]; cbn [bind];
    [|exists a', b', r; split; reflexivity].
  rewrite set_nth_app_plus. cbn [set_nth].
  exists a', b', r'. repeat split.
Qed.

(** One iteration of the loop of lines 91-95 on the store, given that the
    call on a page agrees with the call without a store. *)
Lemma page_step_run (self_st : aref -> St refs)
    (self : ndarray -> result triple) (C : aref) (h : heapF) :
  base C < length h ->
  (forall h' r, base r < length h' ->
     agrees h' (self_st r h') (self (content h' r))) ->
  forall (k : nat) (a b r : ndarray) (J : heapF),
    let run :=
      bindS (self_st (sub C (fun c => page c k))) (fun res =>
        store_page_st (length h, length h + 1, length h + 2) k res)
        (h ++ a :: b :: r :: J) in
    exists a' b' r' J',
      snd run = h ++ a' :: b' :: r' :: J' /\
      match (res <- self (page (content h C) k) ;; store_page (a, b, r) k res) with
      | Ok acc' => fst run = Ok tt /\ acc' = (a', b', r')
      | Raise e => fst run = Raise e
      end.
Proof.
  intros HC Hself k a b r J run. subst run. unfold bindS.
  set (H := h ++ a :: b :: r :: J).
  assert (HlenH : length H = length h + 3 + length J).
  { unfold H. rewrite length_app. simpl. lia. }
  destruct (Hself H (sub C (fun c => page c k))) as (ext & Hs & Hr).
  { cbn [sub base]. rewrite HlenH. lia. }
  replace (content H (sub C (fun c => page c k)))
    with (page (content h C) k) in Hr
    by (unfold content, sub, H; cbn [base window]; now rewrite app_nth1).
  destruct (self_st (sub C (fun c => page c k)) H) as [res hs].
  cbn [fst snd] in Hs, Hr. subst hs.
  destruct res as [[[AA BB] RR]|e],
           (self (page (content h C) k)) as [[[aa bb] rr]|e'];
    try contradiction; cbn [bind].
  - destruct Hr as (HA & HB & HR & EA & EB & ER).
    unfold H in *. rewrite <- app_assoc in *. cbn [app] in *.
    rewrite HlenH in HA, HB, HR.
    assert (HA3 : length h + 3 <= AA) by lia.
    assert (HB3 : length h + 3 <= BB) by lia.
    assert (HR3 : length h + 3 <= RR) by lia.
    rewrite (nth_past3 h (J ++ ext) a b r HA3) in EA.
    rewrite (nth_past3 h (J ++ ext) a b r HB3) in EB.
    rewrite (nth_past3 h (J ++ ext) a b r HR3) in ER.
    destruct (@store_page_st_run h (J ++ ext) a b r k AA BB RR HA3 HB3 HR3)
      as (a1 & b1 & r1 & Hsnd & Hres).
    rewrite EA, EB, ER in Hres.
    exists a1, b1, r1, (J ++ ext). split; [exact Hsnd|exact Hres].
  - subst e'. exists a, b, r, (J ++ ext). unfold H.
    rewrite <- app_assoc. split; reflexivity.
Qed.

(** The whole loop: the three output arrays go through the values of the
    loop without a store, and the store only grows behind them. *)
Lemma pages_loop_run (self_st : aref -> St refs)
    (self : ndarray -> result triple) (C : aref) (h : heapF) :
  base C < length h ->
  (forall h' r, base r < length h' ->
     agrees h' (self_st r h') (self (content h' r))) ->
  forall (ks : list nat) (a b r : ndarray) (J : heapF),
    let run :=
      forS (fun k =>
              bindS (self_st (sub C (fun c => page c k))) (fun res =>
              store_page_st (length h, length h + 1, length h + 2) k res))
           ks (h ++ a :: b :: r :: J) in
    exists a' b' r' J',
      snd run = h ++ a' :: b' :: r' :: J' /\
      match foldM (fun acc k => res <- self (page (content h C) k) ;;
                                store_page acc k res) ks (a, b, r) with
      | Ok acc' => fst run = Ok tt /\ acc' = (a', b', r')
      | Raise e => fst run = Raise e
      end.
Proof.
  intros HC Hself ks. induction ks as [|k ks IH]; intros a b r J run; subst run.
  - exists a, b, r, J. repeat split.
  - cbn [foldM].
    set (body := fun k => bindS (self_st (sub C (fun c => page c k)))
                   (fun res => store_page_st
                      (length h, length h + 1, length h + 2) k res)) in *.
    assert (E : forall H, forS body (k :: ks) H
                = match body k H with
                  | (Ok _, h1) => forS body ks h1
                  | (Raise e, h1) => (Raise e, h1)
                  end) by reflexivity.
    rewrite E. clear E.
    destruct (@page_step_run self_st self C h HC Hself k a b r J)
      as (a1 & b1 & r1 & J1 & Hsnd & Hres).
    fold (body k) in Hsnd, Hres.
    destruct (body k (h ++ a :: b :: r :: J)) as [r2 h2].
    cbn [fst snd] in Hsnd, Hres. subst h2.
    destruct (res <- self (page (content h C) k) ;; store_page (a, b, r) k res)
      as [acc'|e]; cbn [bind].
    + destruct Hres as [-> ->]. apply IH.
    + subst r2. exists a1, b1, r1, J1. split; reflexivity.
Qed.

(** The stack of pages on the store. *)
Lemma cca_pages_st_agrees (self_st : aref -> St refs)
    (self : ndarray -> result triple) (C : aref) (m : Z) (h : heapF) :
  base C < length h ->
  (forall h' r, base r < length h' ->
     agrees h' (self_st r h') (self (content h' r))) ->
  agrees h (cca_pages_st self_st C m h) (cca_pages self (content h C) m).
Proof.
  intros HC Hself. unfold cca_pages_st, cca_pages.
  unfold bindS at 1. unfold read at 1.
  unfold bindS at 1. unfold lift at 1.
  destruct (np_zeros _) as [A0|e]; cbn [bind]; [|apply agrees_raise_nil].
  unfold bindS at 1. unfold alloc at 1.
  unfold bindS at 1. unfold lift at 1.
  destruct (np_zeros _) as [B0|e]; cbn [bind]; [|apply (agrees_raise h [A0])].
  unfold bindS at 1. unfold alloc at 1.
  unfold bindS at 1. unfold lift at 1.
  destruct (np_zeros _) as [R0|e]; cbn [bind];
    [|rewrite <- app_assoc; apply (agrees_raise h [A0; B0])].
  unfold bindS at 1. unfold alloc at 1.
  unfold bindS at 1.
  rewrite <- !app_assoc. cbn [app].
  replace (length (h ++ [A0])) with (length h + 1)
    by (rewrite length_app; reflexivity).
  replace (length (h ++ [A0; B0])) with (length h + 2)
    by (rewrite length_app; reflexivity).
  destruct (@pages_loop_run self_st self C h HC Hself
              (seq 0 (npages (content h C))) A0 B0 R0 [])
    as (a' & b' & r' & J' & Hsnd & Hres).
  destruct (forS _ _ _) as [r2 h2]. cbn [fst snd] in Hsnd, Hres. subst h2.
  destruct (foldM _ _ _) as [acc'|e].
  - destruct Hres as [-> ->]. unfold ret.
    eexists. split; [reflexivity|]. cbn [fst].
    rewrite !length_app. cbn [length].
    repeat split; try lia.
    + now rewrite nth_app_here.
    + now rewrite nth_app_plus.
    + now rewrite nth_app_plus.
  - subst r2. apply agrees_raise.
Qed.

(** nt_cca on the store, at every depth of the recursion. *)
Lemma nt_cca_rec_st_agrees (fuel : nat) :
  forall (h : heapF) (X Y : option aref) (lags : option pyobj)
         (C : option aref) (m : option Z) (thresh : option F),
    valid h X -> valid h Y -> valid h C ->
    agrees h (nt_cca_rec_st fuel X Y lags C m thresh h)
           (nt_cca_rec fuel (arg h X) (arg h Y) lags
                       (option_map (content h) C) m thresh).
Proof.
  induction fuel as [|fuel IH]; intros h X Y lags C m thresh HX HY HC.
  - apply agrees_raise_nil.
  - cbn [nt_cca_rec_st nt_cca_rec].
    destruct X as [x|], Y as [y|]; cbn [arg option_map is_None negb andb orb].
    + (* raw data *)
      unfold bindS at 1. unfold read at 1.
      unfold bindS at 1. unfold read at 1.
      unfold bindS at 1. unfold lift at 1.
      destruct (check_shifts lags) as [[lags' n_lags]|e]; cbn [bind];
        [|apply agrees_raise_nil].
      unfold bindS at 1. unfold lift at 1.
      destruct (cov_lags _ _ lags') as [[[C' tw] m']|e]; cbn [bind];
        [|apply agrees_raise_nil].
      unfold bindS at 1. unfold alloc at 1.
      apply (@agrees_extend h [C']).
      specialize (IH (h ++ [C']) None None None (Some (whole (length h)))
                     (Some m')
                     (Some (match thresh with Some t => t | None => f1e12 end))
                     I I).
      cbn [arg option_map] in IH.
      replace (content (h ++ [C']) (whole (length h))) with C' in IH
        by (unfold content, whole; cbn [base window];
            now rewrite nth_app_here).
      apply IH. cbn [valid whole base]. rewrite length_app. simpl. lia.
    + apply agrees_raise_nil.
    + apply agrees_raise_nil.
    + (* covariance *)
      destruct C as [c|]; cbn [option_map]; [|apply agrees_raise_nil].
      destruct m as [m|]; [|apply agrees_raise_nil].
      cbn [valid] in HC.
      unfold bindS at 1. unfold read at 1.
      unfold bindS at 1. unfold lift at 1.
      destruct (shape_at (content h c) 0) as [s0|e]; cbn [bind];
        [|apply agrees_raise_nil].
      unfold bindS at 1. unfold lift at 1.
      destruct (shape_at (content h c) 1) as [s1|e]; cbn [bind];
        [|apply agrees_raise_nil].
      destruct (negb (s0 =? s1)); [apply agrees_raise_nil|].
      unfold bindS at 1. unfold read_opt at 1.
      unfold bindS at 1. unfold read_opt at 1.
      unfold bindS at 1. unfold lift at 1. cbn [option_map].
      destruct (any3 None None lags) as [b|e]; cbn [bind];
        [|apply agrees_raise_nil].
      destruct b; [apply agrees_raise_nil|].
      destruct (3 <? ndim (content h c)); [apply agrees_raise_nil|].
      destruct (ndim (content h c) =? 3).
      * apply cca_pages_st_agrees; [exact HC|].
        intros h' r Hr.
        apply (IH h' None None None (Some r) (Some m)
                  (Some (match thresh with Some t => t | None => f1e12 end))
                  I I Hr).
      * apply cca_core_st_agrees. exact HC.
Qed.

End Store_facts.

Section Claims_store.

Context {F : Type} {FO : Float64 F} {CO : Collaborators (F := F)}.

(** C8. nt_cca run on a store that holds its input arrays, with
    collaborators that read their arguments and return new arrays: the
    store it leaves is the store it found followed by new arrays, so no
    array that existed before the call -- the inputs among them -- has
    changed, whether the call returns or raises; and what it returns (or
    raises) is the value of [nt_cca], a function of the contents of X, Y,
    lags, C, m and thresh alone: a second run on equal inputs, in whatever
    store, gives the same triple. *)
Theorem nt_cca_reads_only :
  forall (h : heap) (X Y : option aref) (lags : option pyobj)
         (C : option aref) (m : option Z) (thresh : option F),
    valid h X -> valid h Y -> valid h C ->
    let run := nt_cca_st X Y lags C m thresh h in
    (exists ext, snd run = h ++ ext) /\
    outcome run
    = nt_cca (arg h X) (arg h Y) lags (option_map (content h) C) m thresh /\
    (forall (h2 : heap) (X2 Y2 C2 : option aref),
       valid h2 X2 -> valid h2 Y2 -> valid h2 C2 ->
       arg h2 X2 = arg h X -> arg h2 Y2 = arg h Y ->
       option_map (content h2) C2 = option_map (content h) C ->
       outcome (nt_cca_st X2 Y2 lags C2 m thresh h2) = outcome run).
Proof.
  assert (G : forall (h : heap) X Y lags C m thresh,
             valid h X -> valid h Y -> valid h C ->
             (exists ext, snd (nt_cca_st X Y lags C m thresh h) = h ++ ext) /\
             outcome (nt_cca_st X Y lags C m thresh h)
             = nt_cca (arg h X) (arg h Y) lags (option_map (content h) C)
                      m thresh).
  { intros h X Y lags C m thresh HX HY HC.
    destruct (@nt_cca_rec_st_agrees F FO CO 3 h X Y lags C m thresh HX HY HC)
      as (ext & Hs & Hr).
    fold (nt_cca_st X Y lags C m thresh h) in Hs, Hr.
    fold (nt_cca (arg h X) (arg h Y) lags (option_map (content h) C) m thresh)
      in Hr.
    split; [exists ext; exact Hs|].
    unfold outcome. rewrite Hs.
    destruct (fst (nt_cca_st X Y lags C m thresh h)) as [[[A B] R]|e],
             (nt_cca (arg h X) (arg h Y) lags (option_map (content h) C)
                     m thresh) as [[[a b] r]|e']; try contradiction.
    - destruct Hr as (_ & _ & _ & -> & -> & ->). reflexivity.
    - now subst. }
  intros h X Y lags C m thresh HX HY HC run.
  destruct (G h X Y lags C m thresh HX HY HC) as [Hext Hout].
  split; [exact Hext|]. split; [exact Hout|].
  intros h2 X2 Y2 C2 HX2 HY2 HC2 EX EY EC.
  destruct (G h2 X2 Y2 lags C2 m thresh HX2 HY2 HC2) as [_ Hout2].
  rewrite Hout2. subst run. rewrite Hout, EX, EY, EC. reflexivity.
Qed.

End Claims_store.

Section Decide.

Context {F : Type} {FO : Float64 F}.

(** ** Settling the order hypotheses by computation *)

Lemma ordered_onb_sound (l : list F) : ordered_onb l = true -> ordered_on l.
Proof.
  unfold ordered_onb, ordered_on. intros H.
  apply andb_prop in H. destruct H as [H H3].
  apply andb_prop in H. destruct H as [H1 H2].
  rewrite forallb_forall in H1, H2, H3. repeat split.
  - intros x Hx. apply negb_true_iff. now apply H1.
  - intros x y z Hx Hy Hz Hxy Hyz.
    specialize (H2 x Hx). rewrite forallb_forall in H2.
    specialize (H2 y Hy). rewrite forallb_forall in H2.
    specialize (H2 z Hz). rewrite Hxy, Hyz in H2. exact H2.
  - intros x y Hx Hy Hxy.
    specialize (H3 x Hx). rewrite forallb_forall in H3.
    specialize (H3 y Hy). rewrite Hxy in H3. exact H3.
Qed.

Lemma le_excludes_gtb_sound (l : list F) (t : F) :
  le_excludes_gtb l t = true -> le_excludes_gt l t.
Proof.
  unfold le_excludes_gtb, le_excludes_gt. intros H x y Hx Hy Hle.
  rewrite forallb_forall in H. specialize (H x Hx).
  rewrite forallb_forall in H. specialize (H y Hy).
  rewrite Hle in H. simpl in H. now apply negb_true_iff.
Qed.

End Decide.

(** ** The collaborators on diagonal matrices have the documented shapes *)

Lemma argsort_length (d : farray) : length (argsort d) = length (data d).
Proof.
  rewrite (Permutation_length (argsort_perm d)). apply length_seq.
Qed.

Lemma diag_eigh_shapes : eigh_shapes (CO := diagonal_collaborators).
Proof.
  intros C d V. simpl. unfold diag_eigh.
  destruct (is_diagonal C); [|discriminate].
  intros H. inversion H; subst. split; [reflexivity|].
  unfold take1, vec. cbn [data]. rewrite length_map, argsort_length.
  cbn [data]. unfold diagonal_of. now rewrite length_map, length_seq.
Qed.

Lemma diag_pca_shapes : pca_shapes (CO := diagonal_collaborators).
Proof.
  intros C V d. simpl. unfold diag_pca.
  destruct (is_diagonal C); [|discriminate].
  intros H. inversion H; subst. split; [reflexivity|].
  unfold take1, vec. cbn [data]. rewrite length_map, length_rev, argsort_length.
  cbn [data]. unfold diagonal_of. now rewrite length_map, length_seq.
Qed.

(* ------------------------------------------------------------------ *)
(** ** The stack of pages does not pad R *)

Section Padding.

Context {F : Type} {FO : Float64 F} {CO : Collaborators (F := F)}.

(** Lines 93-94 write the page's A (and B alike) into the top-left corner
    and leave the rest of the page as it was. *)
Lemma setitem3_page_corner (A AA A' : ndarray) (a c p a0 a1 k : nat) :
  shape A = [a; c; p] ->
  setitem3_page A a0 a1 k AA = Ok A' ->
  shape A' = [a; c; p] /\
  forall i j l, i < a -> j < c -> l < p ->
    (a0 <= i \/ a1 <= j \/ l <> k) -> item3 A' i j l = item3 A i j l.
Proof.
  intros HA H. unfold setitem3_page in H.
  unfold npages, nrows, ncols in H. rewrite HA in H. simpl in H.
  destruct (k <? p); [|discriminate].
  destruct (broadcast2 AA _ _) as [g|e]; cbn [bind] in H; [|discriminate].
  inversion H; subst. split; [reflexivity|].
  intros i j l Hi Hj Hl Hout. rewrite item3_build3 by assumption.
  destruct (Nat.ltb_spec i (Nat.min a0 a)), (Nat.ltb_spec j (Nat.min a1 c)),
    (Nat.eqb_spec l k); simpl; try reflexivity. lia.
Qed.

(** Line 95 assigns the page's scores to the whole column: a page with
    fewer scores than rows, and more than one, cannot be stored. *)
Lemma store_page_short_R (A B R AA BB RR : ndarray) (k b : nat) :
  shape RR = [b] -> b <> nrows R -> b <> 1 ->
  is_ok (store_page (A, B, R) k (AA, BB, RR)) = false.
Proof.
  intros HRR Hb Hb1. unfold store_page.
  destruct (shape_at AA 0); cbn [bind]; [|reflexivity].
  destruct (shape_at AA 1); cbn [bind]; [|reflexivity].
  destruct (setitem3_page A _ _ k AA); cbn [bind]; [|reflexivity].
  destruct (shape_at BB 0); cbn [bind]; [|reflexivity].
  destruct (shape_at BB 1); cbn [bind]; [|reflexivity].
  destruct (setitem3_page B _ _ k BB); cbn [bind]; [|reflexivity].
  unfold setitem2_col. destruct (k <? ncols R); [|reflexivity].
  unfold broadcast1. rewrite HRR.
  apply Nat.eqb_neq in Hb, Hb1. rewrite Hb, Hb1. reflexivity.
Qed.

(** A page with a single score has it copied down the whole column, not
    followed by zeros. *)
Lemma store_page_single_R (A B R AA BB RR A' B' R' : ndarray) (k n p : nat) :
  shape RR = [1] -> shape R = [n; p] ->
  store_page (A, B, R) k (AA, BB, RR) = Ok (A', B', R') ->
  forall i, i < n -> item2 R' i k = item1 RR 0.
Proof.
  intros HRR HR H i Hi. unfold store_page in H.
  destruct (shape_at AA 0); cbn [bind] in H; [|discriminate].
  destruct (shape_at AA 1); cbn [bind] in H; [|discriminate].
  destruct (setitem3_page A _ _ k AA); cbn [bind] in H; [|discriminate].
  destruct (shape_at BB 0); cbn [bind] in H; [|discriminate].
  destruct (shape_at BB 1); cbn [bind] in H; [|discriminate].
  destruct (setitem3_page B _ _ k BB); cbn [bind] in H; [|discriminate].
  unfold setitem2_col, broadcast1, nrows, ncols in H. rewrite HRR, HR in H.
  simpl in H. destruct (Nat.ltb_spec k p); [|discriminate].
  rewrite orb_true_r in H. cbn [bind] in H. inversion H; subst.
  rewrite item2_build2 by assumption. now rewrite Nat.eqb_refl.
Qed.

End Padding.

(* ------------------------------------------------------------------ *)
(** ** The arguments of nt_cca beyond the five checks *)

Section Arguments.

Context {F : Type} {FO : Float64 F} {CO : Collaborators (F := F)}.

(** In the covariance form only the truth value of [lags] counts (line
    79). *)
Lemma nt_cca_rec_lags_truth (fuel : nat) (lags : option pyobj) (C : ndarray)
    (m : Z) (thresh : option F) (b : bool) :
  truth lags = Ok b ->
  nt_cca_rec (S fuel) None None lags (Some C) (Some m) thresh
  = (s0 <- shape_at C 0 ;;
     s1 <- shape_at C 1 ;;
     if negb (s0 =? s1) then Raise (RuntimeError msg_square) else
     if b then Raise (RuntimeError msg_only) else
     nt_cca_rec (S fuel) None None None (Some C) (Some m) thresh).
Proof.
  intros Hb. cbn [nt_cca_rec is_None andb orb negb].
  destruct (shape_at C 0) as [s0|e]; cbn [bind]; [|reflexivity].
  destruct (shape_at C 1) as [s1|e]; cbn [bind]; [|reflexivity].
  destruct (negb (s0 =? s1)); [reflexivity|].
  unfold any3. cbn [truth bind]. rewrite Hb. cbn [bind].
  destruct b; reflexivity.
Qed.

(** X4. In the covariance form (X and Y omitted), a [lags] whose truth
    value is true, a non-zero integer, a non-empty list or a one-element
    array of a non-zero number, is rejected with the RuntimeError 'only
    covariance should be defined at this point', whatever the square
    covariance (of two dimensions or more), [m] and [thresh] (lines
    79-80). *)
Theorem nt_cca_truthy_lags_rejected (lags : option pyobj) (n : nat)
    (sh : list nat) (dat : list F) (m : Z) (thresh : option F) :
  truth lags = Ok true ->
  nt_cca None None lags (Some (mkarr (n :: n :: sh) dat)) (Some m) thresh
  = Raise (RuntimeError msg_only).
Proof.
  intros Hb. unfold nt_cca.
  rewrite nt_cca_rec_lags_truth with (b := true) by exact Hb.
  unfold shape_at. cbn [shape nth_error bind]. now rewrite Nat.eqb_refl.
Qed.

(** X5. In the covariance form a [lags] whose truth value is false, 0, an
    empty list, an empty array or a one-element array of zero, is not
    told from an omitted one: the call does, returns or raises, what it
    does without [lags], for every [C], [m] and [thresh] given or not
    (lines 73-82: [lags] is read by the test of line 79 only). *)
Theorem nt_cca_falsy_lags_ignored (lags : option pyobj) (C : option ndarray)
    (m : option Z) (thresh : option F) :
  truth lags = Ok false ->
  nt_cca None None lags C m thresh = nt_cca None None None C m thresh.
Proof.
  intros Hb. unfold nt_cca.
  destruct C as [C|]; [|reflexivity]. destruct m as [m|]; [|reflexivity].
  rewrite nt_cca_rec_lags_truth with (b := false) by exact Hb.
  cbn [nt_cca_rec is_None andb orb negb].
  destruct (shape_at C 0) as [s0|e]; cbn [bind]; [|reflexivity].
  destruct (shape_at C 1) as [s1|e]; cbn [bind]; [|reflexivity].
  destruct (negb (s0 =? s1)); reflexivity.
Qed.

(** X6. A square covariance of more than three dimensions is rejected
    with the RuntimeError 'covariance should be 3D at most', with [lags]
    omitted or of truth value false and for every [m] (lines 81-82); the
    check comes last, after the square and the [lags] checks. *)
Theorem nt_cca_more_than_3D (lags : option pyobj) (n n2 n3 : nat)
    (sh : list nat) (dat : list F) (m : Z) (thresh : option F) :
  truth lags = Ok false ->
  nt_cca None None lags (Some (mkarr (n :: n :: n2 :: n3 :: sh) dat))
         (Some m) thresh
  = Raise (RuntimeError msg_3D).
Proof.
  intros Hb. unfold nt_cca.
  rewrite nt_cca_rec_lags_truth with (b := false) by exact Hb.
  unfold shape_at. cbn [shape nth_error bind]. rewrite Nat.eqb_refl.
  cbn [negb]. cbn. now rewrite Nat.eqb_refl.
Qed.

(** X7. With both X and Y given, nt_cca hands [lags] to _check_shifts and
    the data to cov_lags, and answers what it answers on the covariance
    and the split that cov_lags returns, with the threshold passed on (the
    default made explicit). The [C] and [m] of the caller appear nowhere on
    the right: they are dropped without a word, and none of the checks of
    lines 73-80 sees them; an error of a collaborator is the error of the
    call (lines 61-71). *)
Theorem nt_cca_raw_data_overrides (x y : pyobj) (lags : option pyobj)
    (C : option ndarray) (m : option Z) (thresh : option F) :
  nt_cca (Some x) (Some y) lags C m thresh
  = ('(lags', _) <- check_shifts lags ;;
     '(C', _, m') <- cov_lags x y lags' ;;
     nt_cca None None None (Some C') (Some m')
            (Some (match thresh with Some t => t | None => f1e12 end))).
Proof.
  (* the call on the covariance computes the same one level deeper *)
  unfold nt_cca.
  destruct (check_shifts lags) as [[l nl]|e] eqn:Hl; [|simpl; now rewrite Hl].
  destruct (cov_lags x y l) as [[[C' tw] m']|e] eqn:Hc;
    simpl; rewrite Hl; simpl; rewrite Hc; reflexivity.
Qed.

End Arguments.

(* ------------------------------------------------------------------ *)
(** ** whiten_nt at the edges *)

Section Edges.

Context {F : Type} {FO : Float64 F} {CO : Collaborators (F := F)}.

(** With no eigenvalue there is no maximum to divide by (line 155). *)
Lemma whiten_nt_no_eigenvalue (C d V : ndarray) (thresh : option F) :
  eigh C = Ok (d, V) -> data d = [] ->
  whiten_nt C thresh = Raise (ValueError msg_max).
Proof.
  intros He Hd. unfold whiten_nt. rewrite He. cbn [bind].
  unfold np_real, argsort, take1, np_max. rewrite Hd. reflexivity.
Qed.

Lemma whiten_nt_empty_fails (C : ndarray) (thresh : option F) :
  eigh_shapes -> nrows C = 0 -> is_ok (whiten_nt C thresh) = false.
Proof.
  intros Hes Hn. destruct (eigh C) as [[d V]|e] eqn:He.
  - rewrite (@whiten_nt_no_eigenvalue C d V thresh He); [reflexivity|].
    destruct (Hes _ _ _ He) as [_ Hd]. rewrite Hn in Hd.
    now apply length_zero_iff_nil.
  - unfold whiten_nt. rewrite He. reflexivity.
Qed.

(** X8. whiten_nt of a matrix of order 0 never returns: either eigh raises,
    and that is the error of the call, or it returns no eigenvalue and
    [np.max(d)] raises 'zero-size array to reduction operation maximum
    which has no identity' (lines 145-155). *)
Theorem whiten_nt_order_0 (C : ndarray) (thresh : option F) :
  eigh_shapes -> nrows C = 0 ->
  (forall e, eigh C = Raise e -> whiten_nt C thresh = Raise e) /\
  (forall d V, eigh C = Ok (d, V) ->
     whiten_nt C thresh = Raise (ValueError msg_max)).
Proof.
  intros Hes Hn. split.
  - intros e He. unfold whiten_nt. rewrite He. reflexivity.
  - intros d V He. apply (@whiten_nt_no_eigenvalue C d V thresh He).
    destruct (Hes _ _ _ He) as [_ Hd]. rewrite Hn in Hd.
    now apply length_zero_iff_nil.
Qed.

(** X9. When no eigenvalue-to-maximum ratio exceeds the threshold,
    whiten_nt raises nothing: it returns a transform with all the rows of
    the eigenvector matrix and no column at all (lines 155-166). The null
    matrix is such an input: each ratio is 0/0, a NaN. *)
Theorem whiten_nt_all_removed (C d V : ndarray) (thresh : F) :
  eigh C = Ok (d, V) -> data d <> [] -> removes_all d thresh ->
  exists W, whiten_nt C (Some thresh) = Ok W /\
            shape W = [nrows V; 0] /\ data W = [].
Proof.
  intros He Hne Hall.
  destruct (np_max_sorted_ok d Hne) as (mx & Hmx & _).
  assert (Hk : retained d thresh = Ok []).
  { unfold retained. rewrite Hmx. cbn [bind]. f_equal.
    specialize (Hall mx Hmx). rewrite Forall_forall in Hall.
    assert (Hin : forall i, In i (descending d) ->
                    fgtb (fdiv (ev d i) mx) thresh = false).
    { intros i Hi. apply Hall. apply ev_In. now apply In_descending. }
    revert Hin. generalize (descending d) as l.
    induction l as [|i l IH]; intros Hin; [reflexivity|].
    simpl. rewrite (Hin i) by now left.
    apply IH. intros j Hj. apply Hin. now right. }
  destruct (whiten_nt_spec_shape C thresh He Hk) as (W & HW & HsW).
  rewrite <- whiten_nt_refines in HW.
  exists W. split; [exact HW|]. split; [exact HsW|].
  destruct (whiten_nt_built _ _ HW) as (r & c & g & ->).
  cbn [shape build2 build] in HsW. inversion HsW; subst.
  unfold build2, build. cbn [data]. apply length_zero_iff_nil.
  rewrite length_tabulate. simpl. lia.
Qed.

End Edges.

(* ------------------------------------------------------------------ *)
(** ** The split index at and past the ends *)

Section Splits.

Context {F : Type} {FO : Float64 F} {CO : Collaborators (F := F)}.

Lemma pybound_degenerate (m : Z) (n : nat) :
  (m = 0 \/ Z.of_nat n <= m \/ m <= - Z.of_nat n)%Z ->
  pybound m n = 0 \/ pybound m n = n.
Proof. intros Hm. unfold pybound. destruct (Z.ltb_spec m 0); lia. Qed.

Lemma pybound_negative (m : Z) (n : nat) :
  (- Z.of_nat n <= m < 0)%Z -> pybound (Z.of_nat n + m) n = pybound m n.
Proof.
  intros Hm. unfold pybound.
  destruct (Z.ltb_spec m 0), (Z.ltb_spec (Z.of_nat n + m) 0); lia.
Qed.

(** X11. On a two-dimensional covariance of order [n] a negative split
    index [-n <= m < 0] is not rejected: the slices [C[:m, :m]] and
    [C[m:, m:]] count it from the end, and the call does what it does with
    the split [n + m] (lines 101-102; [m] is used nowhere else in the 2D
    core). *)
Theorem nt_cca_negative_split (n : nat) (dat : list F) (m : Z)
    (thresh : option F) :
  (- Z.of_nat n <= m < 0)%Z ->
  nt_cca None None None (Some (mkarr [n; n] dat)) (Some m) thresh
  = nt_cca None None None (Some (mkarr [n; n] dat))
           (Some (Z.of_nat n + m)%Z) thresh.
Proof.
  intros Hm.
  pose proof (nt_cca_2d n dat m thresh) as H1.
  pose proof (nt_cca_2d n dat (Z.of_nat n + m) thresh) as H2.
  cbv zeta in H1, H2. rewrite H1, H2.
  unfold cca_core, upper_left, lower_right. cbn [nrows ncols shape nth].
  now rewrite (@pybound_negative m n Hm).
Qed.

(** X12. On a stack of pages the same index is an error: with [m < 0] or
    [m > n] a dimension of the output arrays, [m] or
    [N = min(m, n - m)], is negative, and [np.zeros] raises 'negative
    dimensions are not allowed' before any page is looked at (lines
    85-87). *)
Theorem nt_cca_pages_bad_split (n p : nat) (dat : list F) (m : Z)
    (thresh : option F) :
  (m < 0 \/ Z.of_nat n < m)%Z ->
  nt_cca None None None (Some (mkarr [n; n; p] dat)) (Some m) thresh
  = Raise (ValueError msg_negative).
Proof.
  intros Hm. pose proof (nt_cca_3d n p dat m thresh) as H3.
  cbv zeta in H3. rewrite H3. clear H3.
  unfold cca_pages, np_zeros. cbn [nrows shape nth forallb].
  destruct (Z.leb_spec 0 m); [|reflexivity].
  destruct (Z.leb_spec 0 (Z.min m (Z.of_nat n - m))); [lia|reflexivity].
Qed.

End Splits.

(* ------------------------------------------------------------------ *)
(** ** The stack of pages, page by page *)

Section Pagewise.

Context {F : Type} {FO : Float64 F} {CO : Collaborators (F := F)}.

Lemma foldM_app {A S : Type} (body : S -> A -> result S) (l1 l2 : list A)
    (s : S) :
  foldM body (l1 ++ l2) s = (s' <- foldM body l1 s ;; foldM body l2 s').
Proof.
  revert s. induction l1 as [|a l1 IH]; intros s; simpl; [reflexivity|].
  destruct (body s a) as [s'|e]; simpl; [apply IH|reflexivity].
Qed.

(** Lines 93-95 with a page result of the full size: the page [k] of the
    three outputs is the result, the other pages are as they were. *)
Lemma store_page_full (a b c p k : nat) (A B R AA BB RR : ndarray) :
  shaped a b c p (A, B, R) -> k < p ->
  shape AA = [a; c] -> shape BB = [b; c] -> shape RR = [c] ->
  exists A' B' R',
    store_page (A, B, R) k (AA, BB, RR) = Ok (A', B', R') /\
    shaped a b c p (A', B', R') /\
    (forall i j l, i < a -> j < c -> l < p ->
       item3 A' i j l = if l =? k then item2 AA i j else item3 A i j l) /\
    (forall i j l, i < b -> j < c -> l < p ->
       item3 B' i j l = if l =? k then item2 BB i j else item3 B i j l) /\
    (forall j l, j < c -> l < p ->
       item2 R' j l = if l =? k then item1 RR j else item2 R j l).
Proof.
  intros (HA & HB & HR) Hk HAA HBB HRR.
  unfold store_page, shape_at. rewrite HAA, HBB. cbn [nth_error bind].
  unfold setitem3_page, npages, nrows, ncols. rewrite HA, HB. cbn [nth].
  apply Nat.ltb_lt in Hk as Hk'. rewrite Hk'.
  unfold broadcast2. rewrite HAA, HBB. rewrite !Nat.min_id, !Nat.eqb_refl.
  cbn [orb andb bind].
  unfold setitem2_col, broadcast1, nrows, ncols. rewrite HR, HRR. cbn [nth].
  rewrite Hk', Nat.eqb_refl. cbn [orb bind].
  eexists _, _, _. split; [reflexivity|]. split; [repeat split|].
  split; [|split].
  - intros i j l Hi Hj Hl. rewrite item3_build3 by assumption.
    apply Nat.ltb_lt in Hi as Hi', Hj as Hj'. rewrite Hi', Hj'. cbn [andb].
    destruct (l =? k); [|reflexivity].
    destruct (Nat.eqb_spec a 1), (Nat.eqb_spec c 1);
      repeat f_equal; lia.
  - intros i j l Hi Hj Hl. rewrite item3_build3 by assumption.
    apply Nat.ltb_lt in Hi as Hi', Hj as Hj'. rewrite Hi', Hj'. cbn [andb].
    destruct (l =? k); [|reflexivity].
    destruct (Nat.eqb_spec b 1), (Nat.eqb_spec c 1);
      repeat f_equal; lia.
  - intros j l Hj Hl. rewrite item2_build2 by assumption.
    destruct (l =? k); [|reflexivity].
    destruct (Nat.eqb_spec c 1); repeat f_equal; lia.
Qed.

(** The loop of lines 91-95 over pages whose results have the full size. *)
Lemma pages_loop (self : ndarray -> result triple) (C : ndarray)
    (a b c p : nat) (AA BB RR : nat -> ndarray) (ks : list nat) :
  forall A B R,
  shaped a b c p (A, B, R) -> NoDup ks ->
  (forall k, In k ks ->
     k < p /\ self (page C k) = Ok (AA k, BB k, RR k) /\
     shape (AA k) = [a; c] /\ shape (BB k) = [b; c] /\ shape (RR k) = [c]) ->
  exists A' B' R',
    foldM (fun acc k => res <- self (page C k) ;; store_page acc k res)
          ks (A, B, R) = Ok (A', B', R') /\
    shaped a b c p (A', B', R') /\
    (forall i j l, i < a -> j < c -> l < p ->
       (In l ks -> item3 A' i j l = item2 (AA l) i j) /\
       (~ In l ks -> item3 A' i j l = item3 A i j l)) /\
    (forall i j l, i < b -> j < c -> l < p ->
       (In l ks -> item3 B' i j l = item2 (BB l) i j) /\
       (~ In l ks -> item3 B' i j l = item3 B i j l)) /\
    (forall j l, j < c -> l < p ->
       (In l ks -> item2 R' j l = item1 (RR l) j) /\
       (~ In l ks -> item2 R' j l = item2 R j l)).
Proof.
  induction ks as [|k ks IH]; intros A B R Hsh Hnd Hpages.
  - exists A, B, R. split; [reflexivity|]. split; [exact Hsh|].
    repeat split; simpl; tauto.
  - inversion Hnd as [|k' ks' Hnotin Hnd']; subst.
    destruct (Hpages k (or_introl eq_refl)) as (Hk & Hself & HAA & HBB & HRR).
    destruct (@store_page_full a b c p k A B R (AA k) (BB k) (RR k)
                Hsh Hk HAA HBB HRR)
      as (A1 & B1 & R1 & Hst & Hsh1 & HA1 & HB1 & HR1).
    destruct (IH A1 B1 R1 Hsh1 Hnd')
      as (A' & B' & R' & Hfold & Hsh' & HA' & HB' & HR').
    { intros l Hl. apply Hpages. now right. }
    exists A', B', R'. split.
    { cbn [foldM]. rewrite Hself. cbn [bind]. rewrite Hst. cbn [bind].
      exact Hfold. }
    split; [exact Hsh'|].
    split; [|split].
    + intros i j l Hi Hj Hl. destruct (HA' i j l Hi Hj Hl) as [Hin Hout].
      specialize (HA1 i j l Hi Hj Hl). split.
      * intros [<-|Hl']; [|now apply Hin].
        rewrite (Hout Hnotin), HA1. now rewrite Nat.eqb_refl.
      * intros Hn. rewrite Hout by (intros Hl'; apply Hn; now right).
        rewrite HA1. destruct (Nat.eqb_spec l k); [|reflexivity].
        exfalso. apply Hn. now left.
    + intros i j l Hi Hj Hl. destruct (HB' i j l Hi Hj Hl) as [Hin Hout].
      specialize (HB1 i j l Hi Hj Hl). split.
      * intros [<-|Hl']; [|now apply Hin].
        rewrite (Hout Hnotin), HB1. now rewrite Nat.eqb_refl.
      * intros Hn. rewrite Hout by (intros Hl'; apply Hn; now right).
        rewrite HB1. destruct (Nat.eqb_spec l k); [|reflexivity].
        exfalso. apply Hn. now left.
    + intros j l Hj Hl. destruct (HR' j l Hj Hl) as [Hin Hout].
      specialize (HR1 j l Hj Hl). split.
      * intros [<-|Hl']; [|now apply Hin].
        rewrite (Hout Hnotin), HR1. now rewrite Nat.eqb_refl.
      * intros Hn. rewrite Hout by (intros Hl'; apply Hn; now right).
        rewrite HR1. destruct (Nat.eqb_spec l k); [|reflexivity].
        exfalso. apply Hn. now left.
Qed.

(** The three arrays of zeros of lines 87-89. *)
Lemma pages_zeros (n p : nat) (m : Z) :
  (0 <= m <= Z.of_nat n)%Z ->
  let N := Z.min m (Z.of_nat n - m) in
  exists A B R : ndarray,
    np_zeros [m; N; Z.of_nat p] = Ok A /\
    np_zeros [(Z.of_nat n - m)%Z; N; Z.of_nat p] = Ok B /\
    np_zeros [N; Z.of_nat p] = Ok R /\
    shaped (Z.to_nat m) (n - Z.to_nat m)
           (Nat.min (Z.to_nat m) (n - Z.to_nat m)) p (A, B, R).
Proof.
  intros Hm N.
  assert (HN : Z.to_nat N = Nat.min (Z.to_nat m) (n - Z.to_nat m))
    by (unfold N; lia).
  eexists _, _, _.
  split; [apply np_zeros_ok; repeat constructor; unfold N; lia|].
  split; [apply np_zeros_ok; repeat constructor; unfold N; lia|].
  split; [apply np_zeros_ok; repeat constructor; unfold N; lia|].
  unfold shaped, build. cbn [shape map]. rewrite HN, Nat2Z.id.
  repeat split. f_equal. lia.
Qed.

(** X13. A stack of [p] pages whose pages each give, on their own, a
    result of the full size [N = min(m, n - m)] gives those results page
    by page: [A[:, :, k]], [B[:, :, k]] and [R[:, k]] are the [A], [B] and
    [R] that nt_cca returns on [C[:, :, k]] alone, and the shapes are
    [(m, N, p)], [(n - m, N, p)] and [(N, p)]; a stack of no page gives
    three empty arrays (lines 84-97). *)
Theorem nt_cca_pagewise (n p : nat) (dat : list F) (m : Z)
    (thresh : option F) (AA BB RR : nat -> ndarray) :
  let C := mkarr [n; n; p] dat in
  let N := Nat.min (Z.to_nat m) (n - Z.to_nat m) in
  (0 <= m <= Z.of_nat n)%Z ->
  (forall k, k < p ->
     nt_cca None None None (Some (page C k)) (Some m) thresh
     = Ok (AA k, BB k, RR k) /\
     shape (AA k) = [Z.to_nat m; N] /\
     shape (BB k) = [n - Z.to_nat m; N] /\
     shape (RR k) = [N]) ->
  exists A B R,
    nt_cca None None None (Some C) (Some m) thresh = Ok (A, B, R) /\
    shape A = [Z.to_nat m; N; p] /\
    shape B = [n - Z.to_nat m; N; p] /\
    shape R = [N; p] /\
    forall k, k < p ->
      (forall i j, i < Z.to_nat m -> j < N ->
         item3 A i j k = item2 (AA k) i j) /\
      (forall i j, i < n - Z.to_nat m -> j < N ->
         item3 B i j k = item2 (BB k) i j) /\
      (forall j, j < N -> item2 R j k = item1 (RR k) j).
Proof.
  intros C N Hm Hpages.
  pose proof (nt_cca_3d n p dat m thresh) as H3. cbv zeta in H3.
  fold C in H3. rewrite H3. clear H3.
  set (self := fun Ck : ndarray => nt_cca_rec 2 None None None (Some Ck) _ _).
  destruct (@pages_zeros n p m Hm) as (A0 & B0 & R0 & HA0 & HB0 & HR0 & Hsh0).
  fold N in Hsh0.
  destruct (@pages_loop self C _ _ _ _ AA BB RR (seq 0 p) A0 B0 R0 Hsh0
              (seq_NoDup p 0))
    as (A & B & R & Hfold & (HsA & HsB & HsR) & HA & HB & HR).
  { intros k Hk. apply in_seq in Hk. split; [lia|].
    destruct (Hpages k) as (Hr & Hs); [lia|]. split; [|exact Hs].
    rewrite <- Hr. unfold self. destruct thresh; reflexivity. }
  exists A, B, R. split.
  { unfold cca_pages, C. cbn [nrows npages shape nth].
    rewrite HA0. cbn [bind]. rewrite HB0. cbn [bind]. rewrite HR0.
    cbn [bind]. exact Hfold. }
  split; [exact HsA|]. split; [exact HsB|]. split; [exact HsR|].
  intros k Hk. assert (Hin : In k (seq 0 p)) by (apply in_seq; lia).
  split; [|split].
  - intros i j Hi Hj. now apply (HA i j k Hi Hj Hk).
  - intros i j Hi Hj. now apply (HB i j k Hi Hj Hk).
  - intros j Hj. now apply (HR j k Hj Hk).
Qed.

(** X14. The pages are processed in order and the first page on which
    nt_cca raises ends the call with that page's error: if the pages
    before [k0] give results of the full size and the page [k0] raises
    [e], the call on the stack raises [e] (lines 91-95: the recursive
    call of line 92 is not guarded). *)
Theorem nt_cca_first_failing_page (n p : nat) (dat : list F) (m : Z)
    (thresh : option F) (AA BB RR : nat -> ndarray) (k0 : nat) (e : exn) :
  let C := mkarr [n; n; p] dat in
  let N := Nat.min (Z.to_nat m) (n - Z.to_nat m) in
  (0 <= m <= Z.of_nat n)%Z -> k0 < p ->
  (forall k, k < k0 ->
     nt_cca None None None (Some (page C k)) (Some m) thresh
     = Ok (AA k, BB k, RR k) /\
     shape (AA k) = [Z.to_nat m; N] /\
     shape (BB k) = [n - Z.to_nat m; N] /\
     shape (RR k) = [N]) ->
  nt_cca None None None (Some (page C k0)) (Some m) thresh = Raise e ->
  nt_cca None None None (Some C) (Some m) thresh = Raise e.
Proof.
  intros C N Hm Hk0 Hpages Hfail.
  pose proof (nt_cca_3d n p dat m thresh) as H3. cbv zeta in H3.
  fold C in H3. rewrite H3. clear H3.
  set (self := fun Ck : ndarray => nt_cca_rec 2 None None None (Some Ck) _ _).
  destruct (@pages_zeros n p m Hm) as (A0 & B0 & R0 & HA0 & HB0 & HR0 & Hsh0).
  fold N in Hsh0.
  destruct (@pages_loop self C _ _ _ _ AA BB RR (seq 0 k0) A0 B0 R0 Hsh0
              (seq_NoDup k0 0))
    as (A & B & R & Hfold & _).
  { intros k Hk. apply in_seq in Hk. split; [lia|].
    destruct (Hpages k) as (Hr & Hs); [lia|]. split; [|exact Hs].
    rewrite <- Hr. unfold self. destruct thresh; reflexivity. }
  unfold cca_pages. change (nrows C) with n. change (npages C) with p.
  rewrite HA0. cbn [bind]. rewrite HB0. cbn [bind]. rewrite HR0. cbn [bind].
  replace p with (k0 + (p - k0)) at 1 by lia.
  rewrite seq_app, foldM_app, Hfold. cbn [bind].
  destruct (p - k0) as [|q] eqn:Hq; [lia|].
  cbn [seq foldM Nat.add].
  assert (Hs : self (page C k0) = Raise e).
  { rewrite <- Hfail. unfold self. destruct thresh; reflexivity. }
  rewrite Hs. reflexivity.
Qed.

End Pagewise.

(* ------------------------------------------------------------------ *)
(** ** The split at an end *)

Section Ends.

Context {F : Type} {FO : Float64 F} {CO : Collaborators (F := F)}.

(** X10. A covariance of order [n] split at an end, [m = 0], [m >= n] or
    [m <= -n], never gives a result. In two dimensions one of the blocks
    [C[:m, :m]], [C[m:, m:]] has no row, and whiten_nt of it fails, on
    eigh or on the maximum of no eigenvalue (lines 101-102 and 145-155);
    a stack of at least one page fails on [np.zeros] or on its first page
    (lines 85-92). *)
Theorem nt_cca_degenerate_split (n : nat) (m : Z) (thresh : option F) :
  eigh_shapes ->
  (m = 0 \/ Z.of_nat n <= m \/ m <= - Z.of_nat n)%Z ->
  (forall dat,
     is_ok (nt_cca None None None (Some (mkarr [n; n] dat)) (Some m) thresh)
     = false) /\
  (forall p dat, 0 < p ->
     is_ok (nt_cca None None None (Some (mkarr [n; n; p] dat)) (Some m) thresh)
     = false).
Proof.
  intros Hes Hm.
  assert (H2d : forall dat,
            is_ok (nt_cca None None None (Some (mkarr [n; n] dat)) (Some m)
                          thresh) = false).
  { intros dat. pose proof (nt_cca_2d n dat m thresh) as H2.
    cbv zeta in H2. rewrite H2. clear H2.
    set (t := match thresh with Some t => t | None => f1e12 end).
    unfold cca_core.
    destruct (@pybound_degenerate m n Hm) as [Hp|Hp].
    - assert (H : is_ok (whiten_nt (upper_left (mkarr [n; n] dat) m) (Some t))
                  = false).
      { apply whiten_nt_empty_fails; [exact Hes|].
        rewrite (nrows_shape _ (shape_upper_left n dat m)). exact Hp. }
      destruct (whiten_nt (upper_left _ m) _); [discriminate|reflexivity].
    - assert (H : is_ok (whiten_nt (lower_right (mkarr [n; n] dat) m) (Some t))
                  = false).
      { apply whiten_nt_empty_fails; [exact Hes|].
        rewrite (nrows_shape _ (shape_lower_right n dat m)). lia. }
      destruct (whiten_nt (upper_left _ m) _); cbn [bind]; [|reflexivity].
      destruct (whiten_nt (lower_right _ m) _); [discriminate|reflexivity]. }
  split; [exact H2d|].
  intros p dat Hp. set (C := mkarr [n; n; p] dat).
  pose proof (nt_cca_3d n p dat m thresh) as H3. cbv zeta in H3.
  fold C in H3. rewrite H3. clear H3.
  unfold cca_pages. change (nrows C) with n. change (npages C) with p.
  destruct (Z_le_gt_dec 0 m) as [H0|H0];
    [destruct (Z_le_gt_dec m (Z.of_nat n)) as [H1|H1]|].
  - (* the arrays of zeros are made, the first page fails *)
    destruct (@pages_zeros F FO n p m (conj H0 H1))
      as (A0 & B0 & R0 & HA0 & HB0 & HR0 & _).
    rewrite HA0. cbn [bind]. rewrite HB0. cbn [bind]. rewrite HR0. cbn [bind].
    destruct p as [|q]; [lia|]. cbn [seq foldM].
    specialize (H2d (data (page C 0))).
    change (mkarr [n; n] (data (page C 0))) with (page C 0) in H2d.
    match goal with
    | |- is_ok (bind (bind ?r _) _) = false =>
        replace r
          with (nt_cca None None None (Some (page C 0)) (Some m) thresh)
          by (destruct thresh; reflexivity)
    end.
    destruct (nt_cca None None None (Some (page C 0)) (Some m) thresh);
      [discriminate|reflexivity].
  - unfold np_zeros. cbn [forallb].
    destruct (Z.leb_spec 0 m); [|reflexivity].
    destruct (Z.leb_spec 0 (Z.min m (Z.of_nat n - m))); [lia|reflexivity].
  - unfold np_zeros. cbn [forallb].
    destruct (Z.leb_spec 0 m); [lia|reflexivity].
Qed.

End Ends.

(* ------------------------------------------------------------------ *)
(** ** The arrays returned are new *)

Section Fresh.

Context {F : Type} {FO : Float64 F} {CO : Collaborators (F := F)}.

(** X15. The three arrays nt_cca returns are arrays it made: none is an
    array the caller held before the call, so none is X, Y or C or the
    base of a view on them, and writing to a result leaves the inputs as
    they are. In the store model: the addresses returned lie past the end
    of the store of the call and within the store it leaves (lines 87-89
    and 116-118: [np.zeros] for a stack, the products by [sqrt(2)] and
    [d[:N] - 1] for one matrix). *)
Theorem nt_cca_returns_new_arrays (h : @heap F) (X Y : option aref)
    (lags : option pyobj) (C : option aref) (m : option Z)
    (thresh : option F) (A B R : loc) :
  valid h X -> valid h Y -> valid h C ->
  fst (nt_cca_st X Y lags C m thresh h) = Ok (A, B, R) ->
  let h' := snd (nt_cca_st X Y lags C m thresh h) in
  length h <= A < length h' /\
  length h <= B < length h' /\
  length h <= R < length h'.
Proof.
  intros HX HY HC Hrun h'.
  destruct (@nt_cca_rec_st_agrees F FO CO 3 h X Y lags C m thresh HX HY HC)
    as (ext & Hs & Hr).
  fold (nt_cca_st X Y lags C m thresh h) in Hs, Hr.
  rewrite Hrun in Hr. unfold h'. rewrite Hs.
  destruct (nt_cca_rec 3 (arg h X) (arg h Y) lags (option_map (content h) C)
                       m thresh) as [[[a b] r]|e]; [|contradiction].
  destruct Hr as (HA & HB & HR & _). now repeat split.
Qed.

End Fresh.

(* ------------------------------------------------------------------ *)
(** ** The whitening functions without rank reduction *)

Section Whitening_full.

Context {F : Type} {FO : Float64 F} {CO : Collaborators (F := F)}.

(** X1. whiten removes nothing and fails only where eigh does: an error
    of eigh is the error of the call, and when eigh returns, whiten returns
    a square matrix of the order of [C], whatever the eigenvalues and the
    fudge (lines 123-140; no threshold, no mask). *)
Theorem whiten_full_rank (C : ndarray) (fudge : option F) :
  eigh_shapes ->
  (forall e, eigh C = Raise e -> whiten C fudge = Raise e) /\
  (forall d V, eigh C = Ok (d, V) ->
     exists W, whiten C fudge = Ok W /\ shape W = [nrows C; nrows C]).
Proof.
  intros Hes. split.
  - intros e He. unfold whiten. rewrite He. reflexivity.
  - intros d V He. exact (@whiten_returns F FO CO C d V fudge Hes He).
Qed.

(** X2. whiten_svd fails only where the decomposition does, and returns
    [U @ Vt], of the shape of its argument: the singular values are not
    used (lines 169-178). *)
Theorem whiten_svd_shape (X : ndarray) :
  scipy_svd_shapes ->
  (forall e, scipy_svd X = Raise e -> whiten_svd X = Raise e) /\
  (forall U Sv Vt, scipy_svd X = Ok (U, Sv, Vt) ->
     exists W, whiten_svd X = Ok W /\ np_dot U Vt = Ok W /\
               shape W = [nrows X; ncols X]).
Proof.
  intros Hss. split.
  - intros e He. unfold whiten_svd. rewrite He. reflexivity.
  - intros U Sv Vt Hs.
    destruct (@whiten_svd_returns F FO CO X U Sv Vt Hss Hs) as (W & HW & HsW).
    exists W. split; [exact HW|]. split; [|exact HsW].
    unfold whiten_svd in HW. rewrite Hs in HW. exact HW.
Qed.

(** X3. Given a threshold, whiten_zca of an [r] by [c] matrix passes on
    the error of the decomposition; when the decomposition returns, it
    returns a square matrix of order [r] if the matrix has no more rows
    than columns, as a covariance has, and raises a ValueError from the
    product [U @ D] if it has more: [U] is [r] by [r] and [D] is [c] by
    [c] (lines 181-203; without a threshold it never returns). *)
Theorem whiten_zca_with_thresh (C : ndarray) (thresh : F) (r c : nat) :
  numpy_svd_shapes -> shape C = [r; c] ->
  (forall e, numpy_svd C = Raise e -> whiten_zca C (Some thresh) = Raise e) /\
  (forall U Sv V, numpy_svd C = Ok (U, Sv, V) ->
     (r <= c ->
      exists W, whiten_zca C (Some thresh) = Ok W /\ shape W = [r; r]) /\
     (c < r ->
      exists msg, whiten_zca C (Some thresh) = Raise (ValueError msg))).
Proof.
  intros Hss HC. split.
  - intros e He. unfold whiten_zca. rewrite He. reflexivity.
  - intros U Sv V Hs. split; intros Hrc.
    + exact (@whiten_zca_returns F FO CO C U Sv V thresh r c Hss HC Hrc Hs).
    + exact (@whiten_zca_tall F FO CO C U Sv V thresh r c Hss HC Hrc Hs).
Qed.

End Whitening_full.

(* ------------------------------------------------------------------ *)
(** ** The claims on given inputs *)

(** C1, at an input where the code departs from it: two pages of order 6
    split at [m = 3], the second with a first block of rank 2. The page
    alone gives two components, and the stack has [N = 3] rows for R: line
    95, [R[:, k] = RR], which unlike lines 93-94 does not restrict the
    target to the size of the page's result, raises a ValueError. No
    zero-padded R is returned. *)
Theorem nt_cca_pages_of_two_ranks :
  (exists A B R,
     nt_cca None None None (Some (page C_two_ranks 1)) (Some 3%Z) None
     = Ok (A, B, R)
     /\ shape A = [3; 2] /\ shape B = [3; 2] /\ shape R = [2])
  /\ nt_cca None None None (Some C_two_ranks) (Some 3%Z) None
     = Raise (ValueError msg_broadcast).
Proof.
  split.
  - eexists _, _, _. split; [vm_compute; reflexivity|]. repeat split.
  - vm_compute. reflexivity.
Qed.

(** C3 on an input: with [lags = np.array([0])] next to a covariance the
    call returns a result. *)
Lemma nt_cca_lags_zero_array_returns :
  is_ok (nt_cca None None (Some (PyIntArray [0%Z]))
                (Some (diag_matrix [1; 1]%float)) (Some 1%Z) None) = true.
Proof. vm_compute. reflexivity. Qed.

(** C7 on an input: whiten_zca of the identity with the default
    threshold. *)
Lemma whiten_zca_identity_raises :
  whiten_zca (diag_matrix [1; 1]%float) None = Raise (TypeError msg_NoneType).
Proof. vm_compute. reflexivity. Qed.

(** C9 as stated fails when [m] is omitted: the check of line 75 comes
    first, and the error is the RuntimeError of line 76, not an
    IndexError. *)
Lemma nt_cca_1d_cov_without_m :
  nt_cca None None None (Some C_1d) None None = Raise (RuntimeError msg_m)
  /\ classify (RuntimeError msg_m) = Some InvalidState
  /\ ~ (exists msg,
          nt_cca None None None (Some C_1d) None None = Raise (IndexError msg)).
Proof.
  split; [reflexivity|]. split; [reflexivity|].
  intros [msg H]. discriminate H.
Qed.

(** C4 on a block with one null direction. *)
Lemma whiten_nt_rank_reducing_witness :
  eigh C_rank1 = Ok (d_rank1, V_rank1) /\
  ordered_on (data d_rank1) /\
  le_excludes_gt (data d_rank1) f1e12 /\
  exists (mx : float) (kept : list nat) (W : farray),
    Permutation (descending d_rank1) (seq 0 2) /\
    StronglySorted (fun i j => fltb (ev d_rank1 i) (ev d_rank1 j) = false)
                   (descending d_rank1) /\
    np_max (take1 d_rank1 (descending d_rank1)) = Ok mx /\
    Forall (fun x => fltb mx x = false) (data d_rank1) /\
    kept = filter (fun i => fgtb (fdiv (ev d_rank1 i) mx) f1e12)
                  (descending d_rank1) /\
    (forall i, i < 2 -> fleb (fdiv (ev d_rank1 i) mx) f1e12 = true ->
               ~ In i kept) /\
    whiten_nt C_rank1 (Some f1e12) = Ok W /\
    np_dot (take_cols V_rank1 kept)
      (np_diag (vec (map (fun i => fsqrt (fdiv f1 (fpow (ev d_rank1 i)
                                                        (fsub f1 f1e12))))
                         kept))) = Ok W /\
    shape W = [2; length kept] /\
    length kept <= 2 /\
    whiten_nt C_rank1 None = whiten_nt C_rank1 (Some f1e12).
Proof.
  assert (He : eigh C_rank1 = Ok (d_rank1, V_rank1))
    by (vm_compute; reflexivity).
  assert (Ho : ordered_on (data d_rank1))
    by (apply ordered_onb_sound; vm_compute; reflexivity).
  assert (Hl : le_excludes_gt (data d_rank1) f1e12)
    by (apply le_excludes_gtb_sound; vm_compute; reflexivity).
  split; [exact He|]. split; [exact Ho|]. split; [exact Hl|].
  exact (@whiten_nt_rank_reducing float _ _ C_rank1 d_rank1 V_rank1 f1e12 2
           He eq_refl eq_refl (Nat.lt_0_succ 1) Ho Hl).
Defined.

(** C6 on the identity of order 4 split in the middle. *)
Lemma nt_cca_rank_bound_witness :
  (0 < 2 < Z.of_nat 4)%Z /\
  eigh_shapes (CO := diagonal_collaborators) /\
  pca_shapes (CO := diagonal_collaborators) /\
  eigh (upper_left C_eye4 2) = Ok (d_full, V_full) /\
  eigh (lower_right C_eye4 2) = Ok (d_full, V_full) /\
  ((exists (N : nat) (Cxw Cyw C' : farray),
      whiten_nt (upper_left C_eye4 2) (Some f1e12) = Ok Cxw /\
      whiten_nt (lower_right C_eye4 2) (Some f1e12) = Ok Cyw /\
      N = Nat.min (ncols Cxw) (ncols Cyw) /\
      whitened_cov Cxw Cyw C_eye4 = Ok C' /\
      (Z.of_nat N <= Z.min 2 (Z.of_nat 4 - 2))%Z /\
      (removes_none d_full f1e12 -> removes_none d_full f1e12 ->
       Z.of_nat N = Z.min 2 (Z.of_nat 4 - 2)) /\
      (forall e, pca C' = Raise e ->
         nt_cca None None None (Some C_eye4) (Some 2%Z) None = Raise e) /\
      (forall V d, pca C' = Ok (V, d) ->
         exists A B R,
           nt_cca None None None (Some C_eye4) (Some 2%Z) None = Ok (A, B, R) /\
           shape A = [Z.to_nat 2; N] /\
           shape B = [4 - Z.to_nat 2; N] /\
           shape R = [N]))
   /\
   (forall (p : nat) (dat3 : list float) (A B R : farray),
      nt_cca None None None (Some (mkarr [4; 4; p] dat3)) (Some 2%Z) None
      = Ok (A, B, R) ->
      let N := Z.to_nat (Z.min 2 (Z.of_nat 4 - 2)) in
      shape A = [Z.to_nat 2; N; p] /\
      shape B = [4 - Z.to_nat 2; N; p] /\
      shape R = [N; p])).
Proof.
  assert (Hm : (0 < 2 < Z.of_nat 4)%Z) by (simpl; lia).
  assert (Hx : eigh (upper_left C_eye4 2) = Ok (d_full, V_full))
    by (vm_compute; reflexivity).
  assert (Hy : eigh (lower_right C_eye4 2) = Ok (d_full, V_full))
    by (vm_compute; reflexivity).
  split; [exact Hm|]. split; [exact diag_eigh_shapes|].
  split; [exact diag_pca_shapes|]. split; [exact Hx|]. split; [exact Hy|].
  exact (@nt_cca_rank_bound float _ _ 4 eye4_data 2%Z None
           d_full V_full d_full V_full
           Hm diag_eigh_shapes diag_pca_shapes Hx Hy).
Defined.

Lemma div_self_on_rank1 : div_self_on (data d_rank1).
Proof. intros x [<-|[<-|[]]] H; vm_compute in H |- *; congruence. Qed.

Lemma div_self_on_full : div_self_on (data d_full).
Proof. intros x [<-|[<-|[]]] H; vm_compute in H |- *; congruence. Qed.

(** C10 as stated fails on [C = diag(1, 0)] split at [m = 1]: [C] is
    symmetric, its largest eigenvalue is 1 and the default threshold is
    below 1, but the second block is the null matrix of order 1, of which
    whiten_nt retains nothing (0/0 is a NaN); the 2D core returns no
    canonical component, [N = 0], and an empty R. *)
Lemma nt_cca_no_component_on_null_block :
  (forall i j, i < 2 -> j < 2 -> item2 C_rank1 i j = item2 C_rank1 j i) /\
  eigh C_rank1 = Ok (d_rank1, V_rank1) /\
  leading d_rank1 = 1%float /\
  fltb f0 (leading d_rank1) = true /\
  fltb f1e12 f1 = true /\
  (exists A B R : farray,
     nt_cca None None None (Some C_rank1) (Some 1%Z) None = Ok (A, B, R) /\
     shape A = [1; 0] /\ shape B = [1; 0] /\ shape R = [0] /\ data R = []) /\
  ~ (exists A B R : farray,
       nt_cca None None None (Some C_rank1) (Some 1%Z) None = Ok (A, B, R) /\
       1 <= ncols A /\ data R <> []).
Proof.
  split.
  { intros i j Hi Hj.
    destruct i as [|[|i]]; [| |lia]; (destruct j as [|[|j]]; [| |lia]);
      reflexivity. }
  split; [vm_compute; reflexivity|]. split; [vm_compute; reflexivity|].
  split; [vm_compute; reflexivity|]. split; [vm_compute; reflexivity|].
  split.
  - eexists _, _, _. split; [vm_compute; reflexivity|]. repeat split.
  - intros (A & B & R & H & HA & HR). vm_compute in H.
    inversion H; subst. apply HR. reflexivity.
Qed.

(** C10, amended, on a covariance of order 4 whose first block has a null
    direction next to a positive one. *)
Lemma nt_cca_at_least_one_component_witness :
  (0 < 2 < Z.of_nat 4)%Z /\
  eigh_shapes (CO := diagonal_collaborators) /\
  pca_shapes (CO := diagonal_collaborators) /\
  eigh (upper_left C_deficient4 2) = Ok (d_rank1, V_rank1) /\
  eigh (lower_right C_deficient4 2) = Ok (d_full, V_full) /\
  ordered_on (data d_rank1) /\ ordered_on (data d_full) /\
  div_self_on (data d_rank1) /\ div_self_on (data d_full) /\
  fltb f0 (leading d_rank1) = true /\ fltb f0 (leading d_full) = true /\
  fltb f1e12 f1 = true /\
  (forall M d V : farray,
     eigh M = Ok (d, V) -> data d <> [] ->
     ordered_on (data d) -> div_self_on (data d) ->
     fltb f0 (leading d) = true ->
     exists kept W,
       whiten_nt M (Some f1e12) = Ok W /\ retains_leading d V f1e12 kept W /\
       1 <= ncols W) /\
  exists (kx ky : list nat) (Cxw Cyw C' : farray),
    whiten_nt (upper_left C_deficient4 2) (Some f1e12) = Ok Cxw /\
    retains_leading d_rank1 V_rank1 f1e12 kx Cxw /\
    shape Cxw = [Z.to_nat 2; length kx] /\
    whiten_nt (lower_right C_deficient4 2) (Some f1e12) = Ok Cyw /\
    retains_leading d_full V_full f1e12 ky Cyw /\
    shape Cyw = [4 - Z.to_nat 2; length ky] /\
    whitened_cov Cxw Cyw C_deficient4 = Ok C' /\
    (forall e, pca C' = Raise e ->
       nt_cca None None None (Some C_deficient4) (Some 2%Z) None = Raise e) /\
    (forall V d, pca C' = Ok (V, d) ->
       exists A B R,
         nt_cca None None None (Some C_deficient4) (Some 2%Z) None
         = Ok (A, B, R) /\
         1 <= Nat.min (length kx) (length ky) /\
         shape A = [Z.to_nat 2; Nat.min (length kx) (length ky)] /\
         shape B = [4 - Z.to_nat 2; Nat.min (length kx) (length ky)] /\
         shape R = [Nat.min (length kx) (length ky)] /\
         1 <= ncols A /\ ncols B = ncols A /\ data R <> []).
Proof.
  assert (Hm : (0 < 2 < Z.of_nat 4)%Z) by (simpl; lia).
  assert (Hx : eigh (upper_left C_deficient4 2) = Ok (d_rank1, V_rank1))
    by (vm_compute; reflexivity).
  assert (Hy : eigh (lower_right C_deficient4 2) = Ok (d_full, V_full))
    by (vm_compute; reflexivity).
  assert (Hox : ordered_on (data d_rank1))
    by (apply ordered_onb_sound; vm_compute; reflexivity).
  assert (Hoy : ordered_on (data d_full))
    by (apply ordered_onb_sound; vm_compute; reflexivity).
  assert (Hpx : fltb f0 (leading d_rank1) = true) by (vm_compute; reflexivity).
  assert (Hpy : fltb f0 (leading d_full) = true) by (vm_compute; reflexivity).
  assert (Ht : fltb f1e12 f1 = true) by (vm_compute; reflexivity).
  split; [exact Hm|]. split; [exact diag_eigh_shapes|].
  split; [exact diag_pca_shapes|]. split; [exact Hx|]. split; [exact Hy|].
  split; [exact Hox|]. split; [exact Hoy|].
  split; [exact div_self_on_rank1|]. split; [exact div_self_on_full|].
  split; [exact Hpx|]. split; [exact Hpy|]. split; [exact Ht|].
  exact (@nt_cca_at_least_one_component float _ _ 4 deficient4_data 2%Z None
           d_rank1 V_rank1 d_full V_full
           Hm diag_eigh_shapes diag_pca_shapes Hx Hy Hox Hoy
           div_self_on_rank1 div_self_on_full Hpx Hpy Ht).
Defined.


(** The run of nt_cca on the store that holds the stack of two identity
    pages: the stack is still at address 0, the three arrays returned are
    the first it allocated, and the other arrays it left behind are those
    of the calls on the pages. *)
Lemma nt_cca_st_on_stack :
  let run := nt_cca_st None None None (Some (whole 0)) (Some 2%Z) None
                       store_of_stack in
  fst run = Ok (1, 2, 3) /\
  nth 0 (snd run) no_array = C_stack /\
  length (snd run) = 16 /\
  map (@shape float) (firstn 4 (snd run))
  = [[4; 4; 2]; [2; 2; 2]; [2; 2; 2]; [2; 2]].
Proof. vm_compute. repeat split. Qed.

(** C8 on that store. *)
Lemma nt_cca_reads_only_witness :
  valid store_of_stack (@None aref) /\
  valid store_of_stack (Some (whole 0)) /\
  let run := nt_cca_st None None None (Some (whole 0)) (Some 2%Z) None
                       store_of_stack in
  (exists ext, snd run = store_of_stack ++ ext) /\
  outcome run
  = nt_cca (arg store_of_stack None) (arg store_of_stack None) None
           (option_map (content store_of_stack) (Some (whole 0)))
           (Some 2%Z) None /\
  (forall (h2 : heap) (X2 Y2 C2 : option aref),
     valid h2 X2 -> valid h2 Y2 -> valid h2 C2 ->
     arg h2 X2 = arg store_of_stack None ->
     arg h2 Y2 = arg store_of_stack None ->
     option_map (content h2) C2
     = option_map (content store_of_stack) (Some (whole 0)) ->
     outcome (nt_cca_st X2 Y2 None C2 (Some 2%Z) None h2) = outcome run).
Proof.
  assert (HN : valid store_of_stack (@None aref)) by exact I.
  assert (HC : valid store_of_stack (Some (whole 0)))
    by (simpl; apply Nat.lt_0_succ).
  split; [exact HN|]. split; [exact HC|].
  exact (@nt_cca_reads_only float _ _ store_of_stack None None None
           (Some (whole 0)) (Some 2%Z) None HN HN HC).
Defined.

(* ------------------------------------------------------------------ *)
(** ** More of the code on given inputs *)

Lemma diag_svd_square (C U Sv Vt : farray) :
  diag_svd C = Ok (U, Sv, Vt) ->
  ncols C = nrows C /\ shape U = [nrows C; nrows C] /\
  shape Vt = [nrows C; nrows C] /\ length (data Sv) = nrows C.
Proof.
  unfold diag_svd.
  destruct (is_diagonal C && _) eqn:E; [|discriminate].
  intros H. inversion H; subst. clear H.
  apply andb_prop in E. destruct E as [E _]. unfold is_diagonal in E.
  apply andb_prop in E. destruct E as [E _]. apply Nat.eqb_eq in E.
  split; [exact E|]. split; [reflexivity|]. split; [reflexivity|].
  unfold take1, vec. cbn [data]. rewrite length_map, length_rev, argsort_length.
  cbn [data]. unfold diagonal_of. now rewrite length_map, length_seq.
Qed.

Lemma diag_scipy_svd_shapes : scipy_svd_shapes (CO := diagonal_collaborators).
Proof.
  intros X U Sv Vt H. destruct (diag_svd_square _ H) as (Hc & HU & HVt & _).
  exists (nrows X). now rewrite Hc.
Qed.

Lemma diag_numpy_svd_shapes : numpy_svd_shapes (CO := diagonal_collaborators).
Proof.
  intros C U Sv V r c HC H.
  destruct (diag_svd_square _ H) as (Hc & HU & HV & HS).
  unfold nrows, ncols in *. rewrite HC in *. cbn [nth] in *. subst c.
  rewrite Nat.min_id. now repeat split.
Qed.

Lemma rect_numpy_svd_shapes :
  numpy_svd_shapes (CO := rectangular_collaborators).
Proof.
  intros C U Sv V r c HC H. cbn [numpy_svd rectangular_collaborators] in H.
  unfold rect_svd in H. destruct (is_rect_diagonal C); [|discriminate].
  inversion H; subst. unfold rect_diagonal_of, nrows, ncols. rewrite HC.
  cbn [nth vec data eye build2 build shape].
  now rewrite length_map, length_seq.
Qed.

(** X1 on the identity of order 2. *)
Lemma whiten_full_rank_witness :
  eigh_shapes (CO := diagonal_collaborators) /\
  exists W : farray, whiten C_eye2 None = Ok W /\ shape W = [2; 2].
Proof.
  assert (He : eigh C_eye2 = Ok (d_full, V_full)) by (vm_compute; reflexivity).
  split; [exact diag_eigh_shapes|].
  exact (proj2 (@whiten_full_rank float _ _ C_eye2 None diag_eigh_shapes)
               d_full V_full He).
Defined.

(** X2 on the identity of order 2. *)
Lemma whiten_svd_shape_witness :
  scipy_svd_shapes (CO := diagonal_collaborators) /\
  exists W : farray,
    whiten_svd C_eye2 = Ok W /\
    np_dot (unit_columns 2 [1; 0]) (transpose (unit_columns 2 [1; 0])) = Ok W /\
    shape W = [2; 2].
Proof.
  assert (Hs : scipy_svd C_eye2
               = Ok (unit_columns 2 [1; 0], vec [1; 1]%float,
                     transpose (unit_columns 2 [1; 0])))
    by (vm_compute; reflexivity).
  split; [exact diag_scipy_svd_shapes|].
  exact (proj2 (@whiten_svd_shape float _ _ C_eye2 diag_scipy_svd_shapes)
               _ _ _ Hs).
Defined.

(** X3 on the identity of order 2 and on a matrix of two rows and one
    column, with the fudge of whiten as the threshold. *)
Lemma whiten_zca_with_thresh_witness :
  (numpy_svd_shapes (CO := diagonal_collaborators) /\
   shape C_eye2 = [2; 2] /\
   exists W : farray,
     whiten_zca C_eye2 (Some f1e18) = Ok W /\ shape W = [2; 2]) /\
  (numpy_svd_shapes (CO := rectangular_collaborators) /\
   shape C_tall = [2; 1] /\
   exists msg,
     whiten_zca (CO := rectangular_collaborators) C_tall (Some f1e18)
     = Raise (ValueError msg)).
Proof.
  assert (Hs : numpy_svd C_eye2
               = Ok (unit_columns 2 [1; 0], vec [1; 1]%float,
                     transpose (unit_columns 2 [1; 0])))
    by (vm_compute; reflexivity).
  assert (Ht : numpy_svd (Collaborators := rectangular_collaborators) C_tall
               = Ok (eye 2, vec [1]%float, eye 1))
    by (vm_compute; reflexivity).
  split.
  - split; [exact diag_numpy_svd_shapes|]. split; [reflexivity|].
    exact (proj1 (proj2 (@whiten_zca_with_thresh float _ diagonal_collaborators
                           C_eye2 f1e18 2 2 diag_numpy_svd_shapes eq_refl)
                        _ _ _ Hs) (le_n 2)).
  - split; [exact rect_numpy_svd_shapes|]. split; [reflexivity|].
    exact (proj2 (proj2 (@whiten_zca_with_thresh float _
                           rectangular_collaborators
                           C_tall f1e18 2 1 rect_numpy_svd_shapes eq_refl)
                        _ _ _ Ht) (le_n 2)).
Defined.

(** X4 on the list [[1]] as [lags], next to the identity of order 2. *)
Lemma nt_cca_truthy_lags_rejected_witness :
  truth (F := float) (Some (PyList [1%Z])) = Ok true /\
  nt_cca None None (Some (PyList [1%Z])) (Some C_eye2) (Some 1%Z) None
  = Raise (RuntimeError msg_only).
Proof.
  split; [reflexivity|].
  exact (@nt_cca_truthy_lags_rejected float _ _ (Some (PyList [1%Z])) 2 []
           (data C_eye2) 1%Z None eq_refl).
Defined.

(** X5 on the array [[0]] as [lags], next to the identity of order 4. *)
Lemma nt_cca_falsy_lags_ignored_witness :
  truth (F := float) (Some (PyIntArray [0%Z])) = Ok false /\
  nt_cca None None (Some (PyIntArray [0%Z])) (Some C_eye4) (Some 2%Z) None
  = nt_cca None None None (Some C_eye4) (Some 2%Z) None.
Proof.
  split; [reflexivity|].
  exact (@nt_cca_falsy_lags_ignored float _ _ (Some (PyIntArray [0%Z]))
           (Some C_eye4) (Some 2%Z) None eq_refl).
Defined.

(** X6 on an array of four dimensions, with an empty list as [lags]. *)
Lemma nt_cca_more_than_3D_witness :
  truth (F := float) (Some (PyList [])) = Ok false /\
  nt_cca None None (Some (PyList []))
         (Some (mkarr [2; 2; 1; 1] (data C_eye2))) (Some 1%Z) None
  = Raise (RuntimeError msg_3D).
Proof.
  split; [reflexivity|].
  exact (@nt_cca_more_than_3D float _ _ (Some (PyList [])) 2 1 1 []
           (data C_eye2) 1%Z None eq_refl).
Defined.

(** X8 on the matrix of order 0. *)
Lemma whiten_nt_order_0_witness :
  eigh_shapes (CO := diagonal_collaborators) /\
  nrows C_empty = 0 /\
  whiten_nt C_empty None = Raise (ValueError msg_max).
Proof.
  assert (He : eigh C_empty = Ok (vec [], unit_columns 0 []))
    by (vm_compute; reflexivity).
  split; [exact diag_eigh_shapes|]. split; [reflexivity|].
  exact (proj2 (@whiten_nt_order_0 float _ _ C_empty None diag_eigh_shapes
                  eq_refl) _ _ He).
Defined.

Lemma removes_all_zero2 : removes_all (vec [0; 0]%float) f1e12.
Proof.
  intros mx H. vm_compute in H. inversion H; subst.
  repeat constructor.
Qed.

(** X9 on the null matrix of order 2. *)
Lemma whiten_nt_all_removed_witness :
  eigh C_zero2 = Ok (vec [0; 0]%float, V_full) /\
  data (vec [0; 0]%float) <> [] /\
  removes_all (vec [0; 0]%float) f1e12 /\
  exists W : farray,
    whiten_nt C_zero2 (Some f1e12) = Ok W /\
    shape W = [nrows V_full; 0] /\ data W = [].
Proof.
  assert (He : eigh C_zero2 = Ok (vec [0; 0]%float, V_full))
    by (vm_compute; reflexivity).
  assert (Hne : data (vec [0; 0]%float) <> []) by discriminate.
  split; [exact He|]. split; [exact Hne|]. split; [exact removes_all_zero2|].
  exact (@whiten_nt_all_removed float _ _ C_zero2 _ _ f1e12 He Hne
           removes_all_zero2).
Defined.

(** X10 on the order 4 split at 0: the identity, and two identity
    pages. *)
Lemma nt_cca_degenerate_split_witness :
  eigh_shapes (CO := diagonal_collaborators) /\
  (0 = 0 \/ Z.of_nat 4 <= 0 \/ 0 <= - Z.of_nat 4)%Z /\
  is_ok (nt_cca None None None (Some C_eye4) (Some 0%Z) None) = false /\
  is_ok (nt_cca None None None (Some C_stack) (Some 0%Z) None) = false.
Proof.
  assert (Hm : (0 = 0 \/ Z.of_nat 4 <= 0 \/ 0 <= - Z.of_nat 4)%Z)
    by (left; reflexivity).
  split; [exact diag_eigh_shapes|]. split; [exact Hm|].
  split.
  - exact (proj1 (@nt_cca_degenerate_split float _ _ 4 0%Z None
                    diag_eigh_shapes Hm) eye4_data).
  - exact (proj2 (@nt_cca_degenerate_split float _ _ 4 0%Z None
                    diag_eigh_shapes Hm) 2 (data C_stack) (Nat.lt_0_succ 1)).
Defined.

(** X11 on the identity of order 4 split at -2. *)
Lemma nt_cca_negative_split_witness :
  (- Z.of_nat 4 <= -2 < 0)%Z /\
  nt_cca None None None (Some C_eye4) (Some (-2)%Z) None
  = nt_cca None None None (Some C_eye4) (Some (Z.of_nat 4 + -2)%Z) None.
Proof.
  assert (Hm : (- Z.of_nat 4 <= -2 < 0)%Z) by (simpl; lia).
  split; [exact Hm|].
  exact (@nt_cca_negative_split float _ _ 4 eye4_data (-2)%Z None Hm).
Defined.

(** X12 on two identity pages of order 4 split at -2. *)
Lemma nt_cca_pages_bad_split_witness :
  (-2 < 0 \/ Z.of_nat 4 < -2)%Z /\
  nt_cca None None None (Some C_stack) (Some (-2)%Z) None
  = Raise (ValueError msg_negative).
Proof.
  assert (Hm : (-2 < 0 \/ Z.of_nat 4 < -2)%Z) by (left; reflexivity).
  split; [exact Hm|].
  exact (@nt_cca_pages_bad_split float _ _ 4 2 (data C_stack) (-2)%Z None Hm).
Defined.

Lemma C_stack_pages (k : nat) :
  k < 2 ->
  nt_cca None None None (Some (page C_stack k)) (Some 2%Z) None
  = Ok (AA_stack k, BB_stack k, RR_stack k) /\
  shape (AA_stack k) = [2; 2] /\ shape (BB_stack k) = [2; 2] /\
  shape (RR_stack k) = [2].
Proof.
  intros Hk. destruct k as [|[|k]]; [| |lia]; vm_compute; repeat split.
Qed.

(** X13 on two identity pages of order 4 split in the middle. *)
Lemma nt_cca_pagewise_witness :
  (0 <= 2 <= Z.of_nat 4)%Z /\
  (forall k, k < 2 ->
     nt_cca None None None (Some (page C_stack k)) (Some 2%Z) None
     = Ok (AA_stack k, BB_stack k, RR_stack k) /\
     shape (AA_stack k) = [2; 2] /\ shape (BB_stack k) = [2; 2] /\
     shape (RR_stack k) = [2]) /\
  exists A B R : farray,
    nt_cca None None None (Some C_stack) (Some 2%Z) None = Ok (A, B, R) /\
    shape A = [2; 2; 2] /\ shape B = [2; 2; 2] /\ shape R = [2; 2] /\
    forall k, k < 2 ->
      (forall i j, i < 2 -> j < 2 -> item3 A i j k = item2 (AA_stack k) i j) /\
      (forall i j, i < 2 -> j < 2 -> item3 B i j k = item2 (BB_stack k) i j) /\
      (forall j, j < 2 -> item2 R j k = item1 (RR_stack k) j).
Proof.
  assert (Hm : (0 <= 2 <= Z.of_nat 4)%Z) by (simpl; lia).
  split; [exact Hm|]. split; [exact C_stack_pages|].
  exact (@nt_cca_pagewise float _ _ 4 2 (data C_stack) 2%Z None
           AA_stack BB_stack RR_stack Hm C_stack_pages).
Defined.

Lemma C_mixed_first_page (k : nat) :
  k < 1 ->
  nt_cca None None None (Some (page C_mixed k)) (Some 2%Z) None
  = Ok (AA_stack k, BB_stack k, RR_stack k) /\
  shape (AA_stack k) = [2; 2] /\ shape (BB_stack k) = [2; 2] /\
  shape (RR_stack k) = [2].
Proof.
  intros Hk. destruct k as [|k]; [|lia]. vm_compute. repeat split.
Qed.

(** X14 on a stack whose second page is not diagonal. *)
Lemma nt_cca_first_failing_page_witness :
  (0 <= 2 <= Z.of_nat 4)%Z /\ 1 < 2 /\
  nt_cca None None None (Some (page C_mixed 1)) (Some 2%Z) None
  = Raise (LinAlgError msg_not_diagonal) /\
  nt_cca None None None (Some C_mixed) (Some 2%Z) None
  = Raise (LinAlgError msg_not_diagonal).
Proof.
  assert (Hm : (0 <= 2 <= Z.of_nat 4)%Z) by (simpl; lia).
  assert (Hf : nt_cca None None None (Some (page C_mixed 1)) (Some 2%Z) None
               = Raise (LinAlgError msg_not_diagonal))
    by (vm_compute; reflexivity).
  split; [exact Hm|]. split; [exact (Nat.lt_succ_diag_r 1)|].
  split; [exact Hf|].
  exact (@nt_cca_first_failing_page float _ _ 4 2 (data C_mixed) 2%Z None
           AA_stack BB_stack RR_stack 1 (LinAlgError msg_not_diagonal)
           Hm (Nat.lt_succ_diag_r 1) C_mixed_first_page Hf).
Defined.

(** X15 on the store that holds the stack of two identity pages. *)
Lemma nt_cca_returns_new_arrays_witness :
  valid store_of_stack (@None aref) /\
  valid store_of_stack (Some (whole 0)) /\
  fst (nt_cca_st None None None (Some (whole 0)) (Some 2%Z) None
                 store_of_stack) = Ok (1, 2, 3) /\
  let h' := snd (nt_cca_st None None None (Some (whole 0)) (Some 2%Z) None
                           store_of_stack) in
  length store_of_stack <= 1 < length h' /\
  length store_of_stack <= 2 < length h' /\
  length store_of_stack <= 3 < length h'.
Proof.
  assert (HN : valid store_of_stack (@None aref)) by exact I.
  assert (HC : valid store_of_stack (Some (whole 0)))
    by (simpl; apply Nat.lt_0_succ).
  assert (Hrun : fst (nt_cca_st None None None (Some (whole 0)) (Some 2%Z) None
                                store_of_stack) = Ok (1, 2, 3))
    by (vm_compute; reflexivity).
  split; [exact HN|]. split; [exact HC|]. split; [exact Hrun|].
  exact (@nt_cca_returns_new_arrays float _ _ store_of_stack None None None
           (Some (whole 0)) (Some 2%Z) None 1 2 3 HN HN HC Hrun).
Defined.
